(** * Line-pattern repair of [chapters.ts]: [fix_backticks.py] and [fix_backticks2.py]

    A shallow embedding of the two repair scripts and the properties their
    specification states about them.

    Text is modelled as [list ascii], one element per character, a character
    being a code point below 256; every character that the scripts tell from
    the others is among them.  The file system is a finite map from paths to
    the text Python reads from them.  Each regular expression of the scripts
    is written out as the matcher that Python's backtracking engine computes
    for it; the comment above each matcher gives the expression and the
    reading.  [V1] holds [fix_backticks.py] and [V2] holds
    [fix_backticks2.py]; the four rules of a loop body are named after what
    they repair. *)

From Stdlib Require Import List Ascii String Bool Arith NArith Lia.
From stdpp Require Import gmap strings.
Import ListNotations.

Set Warnings "-comment-terminator-in-string".

Local Open Scope list_scope.

(** ** Characters and literals *)

Definition text := list ascii.

Definition str (s : string) : text := list_ascii_of_string s.

Definition backtick : ascii := "`"%char.
Definition squote : ascii := "'"%char.
Definition dquote : ascii := "034"%char.
Definition bslash : ascii := "092"%char.
Definition newline : ascii := "010"%char.
Definition comma : ascii := ","%char.

(** [str.isspace] on one character, which is also the class [\s] of [re] on
    [str] patterns: TAB..CR, FS..US, space, NEL and NBSP. *)
Definition isspace (c : ascii) : bool :=
  let n := N_of_ascii c in
  ((9 <=? n) && (n <=? 13) || (28 <=? n) && (n <=? 32) || (n =? 133) || (n =? 160))%N.

(** ** Python string operations *)

Module Py.

Fixpoint take_while (p : ascii -> bool) (s : text) : text :=
  match s with
  | [] => []
  | c :: s' => if p c then c :: take_while p s' else []
  end.

Fixpoint drop_while (p : ascii -> bool) (s : text) : text :=
  match s with
  | [] => []
  | c :: s' => if p c then drop_while p s' else s
  end.

(** [s.startswith(p)] *)
Fixpoint startswith (p s : text) : bool :=
  match p, s with
  | [], _ => true
  | _ :: _, [] => false
  | a :: p', b :: s' => Ascii.eqb a b && startswith p' s'
  end.

(** [s.endswith(p)] *)
Definition endswith (p s : text) : bool := startswith (rev p) (rev s).

(** [p in s] *)
Fixpoint contains (p s : text) : bool :=
  startswith p s ||
  match s with
  | [] => false
  | _ :: s' => contains p s'
  end.

(** [s.partition(sep)] when [sep] occurs in [s]: the text before and after
    its first occurrence.  [s.split(sep, 1)] is [[before; after]] and
    [s.split(sep)[0]] is [before] in that case; both are [[s]] otherwise. *)
Fixpoint find (sep s : text) : option (text * text) :=
  if startswith sep s then Some ([], skipn (length sep) s)
  else match s with
       | [] => None
       | c :: s' =>
           match find sep s' with
           | Some (a, b) => Some (c :: a, b)
           | None => None
           end
       end.

(** [s.split(sep, 1)[1] if sep in s else ''] *)
Definition after_first (sep s : text) : text :=
  match find sep s with Some (_, b) => b | None => [] end.

(** [s.split(sep)[0]] *)
Definition before_first (sep s : text) : text :=
  match find sep s with Some (a, _) => a | None => s end.

(** [s.replace(old, new)] for a non-empty [old]: occurrences are replaced
    left to right without overlap.  [skip] counts the characters of a
    replaced occurrence still to be passed over. *)
Fixpoint replace_from (old new : text) (skip : nat) (s : text) : text :=
  match s with
  | [] => []
  | c :: s' =>
      match skip with
      | S k => replace_from old new k s'
      | O =>
          if startswith old s
          then new ++ replace_from old new (length old - 1) s'
          else c :: replace_from old new 0 s'
      end
  end.

(** [s.replace(old, new)]; with an empty [old] Python puts [new] before
    every character and at the end. *)
Definition replace (old new s : text) : text :=
  match old with
  | [] => new ++ flat_map (fun c => c :: new) s
  | _ :: _ => replace_from old new 0 s
  end.

Definition lstrip (s : text) : text := drop_while isspace s.
Definition rstrip (s : text) : text := rev (drop_while isspace (rev s)).

(** [s.strip()] *)
Definition strip (s : text) : text := rstrip (lstrip s).

(** [s.count(c)] for a one-character [c] *)
Definition count (c : ascii) (s : text) : nat :=
  length (List.filter (Ascii.eqb c) s).

(** [s[:-n]] for [n > 0] *)
Definition drop_last (n : nat) (s : text) : text := firstn (length s - n) s.

(** [s.split('\n')] *)
Fixpoint split_lines (s : text) : list text :=
  match s with
  | [] => [[]]
  | c :: s' =>
      if Ascii.eqb c newline then [] :: split_lines s'
      else match split_lines s' with
           | l :: ls => (c :: l) :: ls
           | [] => [[c]]
           end
  end.

(** ['\n'.join(lines)] *)
Fixpoint join_lines (ls : list text) : text :=
  match ls with
  | [] => []
  | [l] => l
  | l :: ls' => l ++ newline :: join_lines ls'
  end.

End Py.

(** ** The regular expressions *)

Module Re.
Import Py.

Definition is_backtick (c : ascii) : bool := Ascii.eqb c backtick.
Definition not_squote (c : ascii) : bool := negb (Ascii.eqb c squote).

(** [re.sub(r'(?<!\\)`', r'\\`', s)] (and the same call with the
    replacement given as [lambda m: '\\`']): a backslash is put before every
    backtick that no backslash precedes in [s].  The look-behind reads the
    subject [s], so [prev] is whether the previous character of [s] is a
    backslash; at the start of [s] nothing precedes. *)
Fixpoint escape_from (prev : bool) (s : text) : text :=
  match s with
  | [] => []
  | c :: s' =>
      if Ascii.eqb c backtick
      then (if prev then [c] else [bslash; c]) ++ escape_from false s'
      else c :: escape_from (Ascii.eqb c bslash) s'
  end.

Definition escape_backticks (s : text) : text := escape_from false s.

(** [re.sub] of "`([^`]*)`" by group 1 in [s]: scanning left to right, a backtick
    and the next backtick after it are removed and the text between them is
    kept; the scan resumes after the second one.  A last backtick with no
    partner stays.  [pending] is [Some acc] after an opening backtick, [acc]
    holding the text read since, reversed. *)
Fixpoint strip_pairs_from (pending : option text) (s : text) : text :=
  match s, pending with
  | [], None => []
  | [], Some acc => backtick :: rev acc
  | c :: s', None =>
      if Ascii.eqb c backtick then strip_pairs_from (Some []) s'
      else c :: strip_pairs_from None s'
  | c :: s', Some acc =>
      if Ascii.eqb c backtick then rev acc ++ strip_pairs_from None s'
      else strip_pairs_from (Some (c :: acc)) s'
  end.

Definition strip_pairs (s : text) : text := strip_pairs_from None s.

(** The expression "description:\s*'([^']*`[^']*)'" matched at the start
    of [s]; the result is group 0.  After the literal, [\s*] takes all the white space
    (what follows must be the quote, which is no white space); the two
    [[^']*] together cover the characters up to the next quote, which must
    exist and close the match, and one of them must be a backtick. *)
Definition desc_match_here (s : text) : option text :=
  if startswith (str "description:") s then
    let r := skipn 12 s in
    let ws := take_while isspace r in
    match drop_while isspace r with
    | q :: r' =>
        if Ascii.eqb q squote then
          let body := take_while not_squote r' in
          match drop_while not_squote r' with
          | _ :: _ =>
              if existsb is_backtick body
              then Some (str "description:" ++ ws ++ squote :: body ++ [squote])
              else None
          | [] => None
          end
        else None
    | [] => None
    end
  else None.

(** [re.search] of that expression: group 0 of the leftmost match. *)
Fixpoint desc_search (s : text) : option text :=
  match desc_match_here s with
  | Some m => Some m
  | None =>
      match s with
      | [] => None
      | _ :: s' => desc_search s'
      end
  end.

(** The last character of a text and what precedes it. *)
Definition unsnoc (s : text) : option (text * ascii) :=
  match rev s with
  | [] => None
  | c :: r => Some (rev r, c)
  end.

(** [re.search] of "^(\s*content:\s*)(.+)$" on a line (no newline in
    it, so [.] takes any character and [$] is the end): groups 1 and 2.
    The second [\s*] takes all the white space after the colon when text
    follows it; when only white space follows, it gives its last character
    back to [.+]. *)
Definition wrap_match1 (line : text) : option (text * text) :=
  let ws1 := take_while isspace line in
  let r1 := drop_while isspace line in
  if startswith (str "content:") r1 then
    let r2 := skipn 8 r1 in
    let ws2 := take_while isspace r2 in
    let v := drop_while isspace r2 in
    match v with
    | _ :: _ => Some (ws1 ++ str "content:" ++ ws2, v)
    | [] =>
        match unsnoc ws2 with
        | Some (ws2', c) => Some (ws1 ++ str "content:" ++ ws2', [c])
        | None => None
        end
    end
  else None.

Definition is_quote (c : ascii) : bool :=
  Ascii.eqb c backtick || Ascii.eqb c squote || Ascii.eqb c dquote.

(** [re.match] of "^(\s*content:\s*)(Q[^\n]+)$" on a line, where [Q] stands
    for the class of every character but the backtick, the single quote and
    the double quote: groups 1 and 2.  Group 2 needs two characters, the
    first one in [Q].  When the text [v] after the white space starts with a
    quote of the three kinds, or is a single character, the second [\s*]
    gives its last white-space character back, which [Q] then takes: the
    match succeeds with group 2 starting at that character. *)
Definition wrap_match2 (line : text) : option (text * text) :=
  let ws1 := take_while isspace line in
  let r1 := drop_while isspace line in
  if startswith (str "content:") r1 then
    let r2 := skipn 8 r1 in
    let ws2 := take_while isspace r2 in
    let v := drop_while isspace r2 in
    match v with
    | c :: _ :: _ =>
        if is_quote c then
          match unsnoc ws2 with
          | Some (ws2', w) => Some (ws1 ++ str "content:" ++ ws2', w :: v)
          | None => None
          end
        else Some (ws1 ++ str "content:" ++ ws2, v)
    | [_] =>
        match unsnoc ws2 with
        | Some (ws2', w) => Some (ws1 ++ str "content:" ++ ws2', w :: v)
        | None => None
        end
    | [] =>
        match unsnoc ws2 with
        | Some (ws2', w) =>
            match unsnoc ws2' with
            | Some (ws2'', w') => Some (ws1 ++ str "content:" ++ ws2'', [w'; w])
            | None => None
            end
        | None => None
        end
    end
  else None.

End Re.

(** ** Files and the console *)

(** The files of the machine, by path, each with the text that Python's text
    mode reads from it and writes to it, and the lines printed so far. *)
Record world := World { files : gmap string text; stdout : list string }.

Definition default_path : string := "src/data/chapters.ts".

(** ** [fix_backticks.py] *)

Module V1.
Import Py Re.

Definition tok_input : text := str "role: '`input`'".
Definition tok_output : text := str "role: '`output`'".
Definition open_content : text := str "content: `".

(** Lines 31 to 34: role values wrapped in backticks become plain strings. *)
Definition fix_role (line : text) : text :=
  let line :=
    if contains tok_input line
    then replace tok_input (str "role: 'input'") line else line in
  if contains tok_output line
  then replace tok_output (str "role: 'output'") line else line.

(** Lines 37 to 44: the backticks of the first matching description string
    are removed, in every copy of that string on the line. *)
Definition fix_description (line : text) : text :=
  if contains (str "description:") line && contains [backtick] line
     && contains [squote] line
  then
    match desc_search line with
    | Some old_desc =>
        let new_desc := replace [backtick] [] old_desc in
        replace old_desc new_desc line
    | None => line
    end
  else line.

(** Lines 47 to 57: a content line that opens a template literal and does not
    end with a backtick has the unescaped backticks after the opening one
    escaped. *)
Definition fix_unescaped (line : text) : text :=
  if contains open_content line && negb (endswith [backtick] (strip line))
  then
    let content_part :=
      if contains open_content line then after_first open_content line else [] in
    if contains [backtick] content_part && negb (endswith [backtick] content_part)
    then
      let before_content := before_first open_content line ++ open_content in
      let after_content := content_part in
      let fixed_content := escape_backticks after_content in
      before_content ++ fixed_content
    else line
  else line.

(** Lines 60 to 71: a content field with no template literal markers gets
    them. *)
Definition fix_missing (line : text) : text :=
  if contains (str "content:") line
     && negb (contains open_content line)
     && negb (contains (str "content: '") line)
     && negb (contains (str "content: " ++ [dquote; dquote]) line)
     && startswith (str "content:") (strip line)
  then
    match wrap_match1 line with
    | Some (prefix, group2) =>
        let text := strip group2 in
        if negb (Nat.eqb (length text) 0)
           && negb (startswith [backtick] text)
           && negb (startswith [squote] text)
           && negb (startswith [dquote] text)
        then prefix ++ backtick :: text ++ [backtick]
        else line
    | None => line
    end
  else line.

(** The body of the loop of [fix_file]: the four repairs in order, each on
    the result of the one before. *)
Definition fix_line (line : text) : text :=
  fix_missing (fix_unescaped (fix_description (fix_role line))).

(** The loop of [fix_file]: [lines] still to read, [fixed_lines] so far. *)
Fixpoint repair_loop (lines fixed_lines : list text) : list text :=
  match lines with
  | [] => fixed_lines
  | line :: rest => repair_loop rest (fixed_lines ++ [fix_line line])
  end.

(** From the text read to the text written. *)
Definition fix_text (content : text) : text :=
  join_lines (repair_loop (split_lines content) []).

(** [fix_file]: [None] is the exception [open] raises when it cannot read
    [filepath]; otherwise the file is overwritten and one line is printed. *)
Definition fix_file (filepath : string) (w : world) : option world :=
  match files w !! filepath with
  | None => None
  | Some content =>
      Some (World (<[filepath := fix_text content]> (files w))
                  (stdout w ++ [("Fixed " +:+ filepath)%string]))
  end.

(** Lines 81 to 83: [sys.argv] holds the script name and the arguments. *)
Definition main (argv : list string) (w : world) : option world :=
  let filepath :=
    if 1 <? length argv then nth 1 argv EmptyString else default_path in
  fix_file filepath w.

End V1.

(** ** [fix_backticks2.py] *)

Module V2.
Import Py Re.

Definition tok_input : text := str "role: '`input`'".
Definition tok_output : text := str "role: '`output`'".
Definition open_content : text := str "content: `".

(** Line 21: [re.sub] of "role: '`(input|output)`'" by "role: '\1'".
    [skip] counts the characters of a replaced match still to be passed. *)
Fixpoint role_sub (skip : nat) (s : text) : text :=
  match s with
  | [] => []
  | c :: s' =>
      match skip with
      | S k => role_sub k s'
      | O =>
          if startswith tok_input s
          then str "role: 'input'" ++ role_sub 14 s'
          else if startswith tok_output s
          then str "role: 'output'" ++ role_sub 15 s'
          else c :: role_sub 0 s'
      end
  end.

Definition fix_role (line : text) : text := role_sub 0 line.

(** Lines 24 and 25: when the line holds a description string with a
    backtick, backticks are removed in pairs over the whole line. *)
Definition fix_description (line : text) : text :=
  match desc_search line with
  | Some _ => strip_pairs line
  | None => line
  end.

(** Lines 31 to 36, case 1: content text without quotes is wrapped. *)
Definition fix_missing (line : text) : text :=
  match wrap_match2 line with
  | Some (prefix, group2) =>
      let text := strip group2 in
      if negb (Nat.eqb (length text) 0) && negb (endswith [backtick] text)
      then prefix ++ backtick :: text ++ [backtick]
      else line
  | None => line
  end.

(** Lines 40 to 58, case 2: the backticks between the opening one and a
    closing one at the end of the line are escaped. *)
Definition fix_unescaped (line : text) : text :=
  if contains open_content line && (2 <? count backtick line)
  then
    match find open_content line with
    | Some (before, rest) =>
        let prefix := before ++ open_content in
        if endswith [backtick] rest || endswith [backtick; comma] rest
        then
          let '(inner, suffix) :=
            if endswith [backtick; comma] rest
            then (drop_last 2 rest, [backtick; comma])
            else (drop_last 1 rest, [backtick]) in
          prefix ++ escape_backticks inner ++ suffix
        else line
    | None => line
    end
  else line.

(** Lines 28 to 58: both cases, for a line that holds [content:]. *)
Definition fix_content (line : text) : text :=
  if contains (str "content:") line
  then fix_unescaped (fix_missing line)
  else line.

(** The body of the loop of [fix_file]. *)
Definition fix_line (line : text) : text :=
  fix_content (fix_description (fix_role line)).

Fixpoint repair_loop (lines fixed_lines : list text) : list text :=
  match lines with
  | [] => fixed_lines
  | line :: rest => repair_loop rest (fixed_lines ++ [fix_line line])
  end.

Definition fix_text (content : text) : text :=
  join_lines (repair_loop (split_lines content) []).

Definition fix_file (filepath : string) (w : world) : option world :=
  match files w !! filepath with
  | None => None
  | Some content =>
      Some (World (<[filepath := fix_text content]> (files w))
                  (stdout w ++ [("Fixed " +:+ filepath)%string]))
  end.

(** Lines 68 and 69: the script reads no argument. *)
Definition main (argv : list string) (w : world) : option world :=
  fix_file default_path w.

End V2.


(** ** Vocabulary of the statements *)

Definition confirmation (path : string) : string := ("Fixed " +:+ path)%string.

(** The world after [path], which held [content], has been repaired by
    [repair] and the confirmation printed. *)
Definition repaired (repair : text -> text) (path : string) (content : text)
    (w : world) : world :=
  World (<[path := repair content]> (files w))
        (stdout w ++ [confirmation path]).

(** A machine with two files, for the examples. *)
Definition two_files : world :=
  World (<["other.ts"%string := str "content: x"]>
           (<[default_path := str "content: y"]> ∅)) [].

(** Texts made of white space only; texts that are not empty and neither
    start nor end with white space. *)
Definition blank (s : text) : bool := forallb isspace s.

Definition first_is (p : ascii -> bool) (s : text) : bool :=
  match s with
  | c :: _ => p c
  | [] => false
  end.

Definition last_is (p : ascii -> bool) (s : text) : bool := first_is p (rev s).

Definition solid (c : ascii) : bool := negb (isspace c).

Definition trimmed (s : text) : bool := first_is solid s && last_is solid s.

(** [c] does not occur in [p]. *)
Definition absent_char (c : ascii) (p : text) : bool :=
  negb (existsb (Ascii.eqb c) p).

(** Some occurrence of [p] starts inside [a] when [q] follows [a]. *)
Fixpoint starts_in (p a q : text) : bool :=
  match a with
  | [] => false
  | _ :: a' => Py.startswith p (a ++ q) || starts_in p a' q
  end.

(** [x] and [y] differ at a position that both have. *)
Fixpoint clash (x y : text) : bool :=
  match x, y with
  | a :: x', b :: y' => negb (Ascii.eqb a b) || clash x' y'
  | _, _ => false
  end.

(** No proper suffix of [m] can be continued by a text that starts with
    [y]: an occurrence of [m] that starts before [y] ends before it. *)
Definition borderless_into (m y : text) : bool :=
  forallb (fun k => clash (skipn k m) y) (seq 1 (length m - 1)).

(** Every backtick of [s] follows a backslash ([prev]: one precedes [s]). *)
Fixpoint all_escaped_from (prev : bool) (s : text) : bool :=
  match s with
  | [] => true
  | c :: s' =>
      if Ascii.eqb c backtick then prev && all_escaped_from false s'
      else all_escaped_from (Ascii.eqb c bslash) s'
  end.

Definition all_escaped (s : text) : bool := all_escaped_from false s.

(** No proper prefix of [m] can be the end of a text that ends with [x]:
    an occurrence of [m] that ends after [x] starts after it. *)
Definition borderless_from (m x : text) : bool :=
  forallb (fun k => clash (rev (firstn k m)) (rev x)) (seq 1 (length m - 1)).

(** [s] with its backticks taken out. *)
Definition without_backticks (s : text) : text :=
  List.filter (fun c => negb (Re.is_backtick c)) s.

(** [s] holds none of the three field markers. *)
Definition no_field (s : text) : bool :=
  negb (Py.contains (str "role:") s)
  && negb (Py.contains (str "description:") s)
  && negb (Py.contains (str "content:") s).

(** The role field with the value [v] wrapped in backticks. *)
Definition wrapped_role (v : text) : text := str "role: '`" ++ v ++ str "`'".

(** [p] holds neither a backtick nor a backslash. *)
Definition plain (p : text) : bool :=
  forallb (fun c => negb (Ascii.eqb c backtick) && negb (Ascii.eqb c bslash)) p.

(** [s] holds no [description:] and no role wrapped in backticks: the
    first two rules have nothing to do on it. *)
Definition settled (s : text) : bool :=
  negb (Py.contains (str "description:") s)
  && negb (Py.contains V1.tok_input s)
  && negb (Py.contains V1.tok_output s).

(** The wrapping rule of [fix_backticks2.py] rewrites [line]. *)
Definition wraps2 (line : text) : bool :=
  match Re.wrap_match2 line with
  | Some (_, group2) =>
      negb (Nat.eqb (length (Py.strip group2)) 0)
      && negb (Py.endswith [backtick] (Py.strip group2))
  | None => false
  end.

(** Characters that are neither white space, nor a backtick, nor a
    backslash, and the text that they make up in [s]. *)
Definition inert (c : ascii) : bool :=
  negb (isspace c) && negb (Ascii.eqb c backtick) && negb (Ascii.eqb c bslash).

Definition skeleton (s : text) : text := List.filter inert s.

(** [s] with its backslashes taken out. *)
Definition without_backslashes (s : text) : text :=
  List.filter (fun c => negb (Ascii.eqb c bslash)) s.


(** * Properties *)

(** ** Facts about the string operations *)

Section PyFacts.
Import Py.

Lemma startswith_app (p t : text) : startswith p (p ++ t) = true.
Proof.
  induction p as [|a p IH]; simpl; [reflexivity|].
  rewrite Ascii.eqb_refl. exact IH.
Qed.

Lemma startswith_true (p s : text) :
  startswith p s = true -> s = p ++ skipn (length p) s.
Proof.
  revert s. induction p as [|a p IH]; intros [|b s] H; simpl in *;
    try reflexivity; try discriminate.
  apply andb_true_iff in H as [Hab Hp].
  apply Ascii.eqb_eq in Hab. subst b. f_equal. apply IH, Hp.
Qed.

Lemma startswith_iff (p s : text) :
  startswith p s = true <-> exists t, s = p ++ t.
Proof.
  split.
  - intros H. eexists. apply startswith_true, H.
  - intros [t ->]. apply startswith_app.
Qed.

Lemma contains_startswith (p s : text) :
  startswith p s = true -> contains p s = true.
Proof. intros H. destruct s; cbn [contains]; rewrite H; reflexivity. Qed.

Lemma contains_iff (p s : text) :
  contains p s = true <-> exists a b, s = a ++ p ++ b.
Proof.
  split.
  - induction s as [|c s IH]; simpl; intros H.
    + rewrite orb_false_r in H. apply startswith_iff in H as [t Ht].
      exists [], t. exact Ht.
    + apply orb_true_iff in H as [H|H].
      * apply startswith_iff in H as [t Ht]. exists [], t. exact Ht.
      * destruct (IH H) as (a & b & ->). exists (c :: a), b. reflexivity.
  - intros (a & b & ->). induction a as [|c a IH].
    + change ([] ++ p ++ b) with (p ++ b).
      apply contains_startswith, startswith_app.
    + cbn [app contains]. rewrite IH. apply orb_true_r.
Qed.

Lemma contains_trans (p q s : text) :
  contains p q = true -> contains q s = true -> contains p s = true.
Proof.
  intros Hp Hq. apply contains_iff in Hp as (a & b & ->).
  apply contains_iff in Hq as (c & d & ->).
  apply contains_iff. exists (c ++ a), (b ++ d).
  repeat rewrite <- app_assoc. reflexivity.
Qed.

(** A line that lacks a marker lacks every text that holds the marker. *)
Lemma contains_absent (p q s : text) :
  contains p q = true -> contains p s = false -> contains q s = false.
Proof.
  intros Hp Hs. destruct (contains q s) eqn:E; [|reflexivity].
  rewrite (contains_trans _ _ _ Hp E) in Hs. discriminate.
Qed.

Lemma contains_cons_false (p : text) (c : ascii) (s : text) :
  contains p (c :: s) = false ->
  startswith p (c :: s) = false /\ contains p s = false.
Proof. simpl. intros H. apply orb_false_iff in H. exact H. Qed.

Lemma replace_from_absent (old new s : text) :
  contains old s = false -> replace_from old new 0 s = s.
Proof.
  induction s as [|c s IH]; intros H; [reflexivity|].
  apply contains_cons_false in H as [H1 H2].
  cbn [replace_from]. rewrite H1. f_equal. apply IH, H2.
Qed.

Lemma replace_absent (old new s : text) :
  old <> [] -> contains old s = false -> replace old new s = s.
Proof.
  intros Hne H. destruct old; [congruence|]. apply replace_from_absent, H.
Qed.

End PyFacts.

Section ReFacts.
Import Py Re.

Lemma desc_match_here_starts (s m : text) :
  desc_match_here s = Some m -> startswith (str "description:") s = true.
Proof.
  unfold desc_match_here.
  destruct (startswith (str "description:") s); [reflexivity|discriminate].
Qed.

Lemma desc_search_contains (s m : text) :
  desc_search s = Some m -> contains (str "description:") s = true.
Proof.
  induction s as [|c s IH]; cbn [desc_search contains].
  - destruct (desc_match_here []) eqn:E; [|discriminate].
    intros _. rewrite (desc_match_here_starts _ _ E). reflexivity.
  - destruct (desc_match_here (c :: s)) eqn:E.
    + intros _. rewrite (desc_match_here_starts _ _ E). reflexivity.
    + intros H. rewrite (IH H). apply orb_true_r.
Qed.

Lemma desc_search_absent (s : text) :
  contains (str "description:") s = false -> desc_search s = None.
Proof.
  intros H. destruct (desc_search s) eqn:E; [|reflexivity].
  rewrite (desc_search_contains _ _ E) in H. discriminate.
Qed.

End ReFacts.

(** ** The loop emits one repaired line per line read, in order *)

Section Loop.
Import Py.

Lemma V1_repair_loop_map (lines fixed : list text) :
  V1.repair_loop lines fixed = fixed ++ map V1.fix_line lines.
Proof.
  revert fixed. induction lines as [|l ls IH]; intros fixed; simpl.
  - rewrite app_nil_r. reflexivity.
  - rewrite IH, <- app_assoc. reflexivity.
Qed.

Lemma V2_repair_loop_map (lines fixed : list text) :
  V2.repair_loop lines fixed = fixed ++ map V2.fix_line lines.
Proof.
  revert fixed. induction lines as [|l ls IH]; intros fixed; simpl.
  - rewrite app_nil_r. reflexivity.
  - rewrite IH, <- app_assoc. reflexivity.
Qed.

Lemma V1_emitted_line (lines : list text) (i : nat) (line : text) :
  lines !! i = Some line ->
  V1.repair_loop lines [] !! i = Some (V1.fix_line line).
Proof.
  intros H. rewrite V1_repair_loop_map. cbn [app].
  change (map V1.fix_line lines) with (V1.fix_line <$> lines).
  rewrite list_lookup_fmap, H. reflexivity.
Qed.

Lemma V2_emitted_line (lines : list text) (i : nat) (line : text) :
  lines !! i = Some line ->
  V2.repair_loop lines [] !! i = Some (V2.fix_line line).
Proof.
  intros H. rewrite V2_repair_loop_map. cbn [app].
  change (map V2.fix_line lines) with (V2.fix_line <$> lines).
  rewrite list_lookup_fmap, H. reflexivity.
Qed.

(** Splitting at newlines and joining with newlines are inverse. *)
Lemma split_lines_nonempty (s : text) : split_lines s <> [].
Proof.
  induction s as [|c s IH]; simpl; [discriminate|].
  destruct (Ascii.eqb c newline); [discriminate|].
  destruct (split_lines s); [contradiction|discriminate].
Qed.

Lemma join_split_lines (s : text) : join_lines (split_lines s) = s.
Proof.
  induction s as [|c s IH]; [reflexivity|].
  cbn [split_lines]. destruct (Ascii.eqb c newline) eqn:E.
  - apply Ascii.eqb_eq in E. subst c.
    pose proof (split_lines_nonempty s) as Hne.
    destruct (split_lines s) as [|l ls] eqn:Es; [contradiction|].
    cbn [join_lines app]. simpl in IH. rewrite IH. reflexivity.
  - pose proof (split_lines_nonempty s) as Hne.
    destruct (split_lines s) as [|l ls] eqn:Es; [contradiction|].
    destruct ls as [|l' ls]; simpl in *; rewrite IH; reflexivity.
Qed.

End Loop.

(** ** Lines without a field marker *)

Section Unrelated.
Import Py Re.

Lemma V1_fix_role_absent (line : text) :
  contains (str "role:") line = false -> V1.fix_role line = line.
Proof.
  intros H. unfold V1.fix_role.
  rewrite (contains_absent (str "role:") V1.tok_input line eq_refl H).
  rewrite (contains_absent (str "role:") V1.tok_output line eq_refl H).
  reflexivity.
Qed.

Lemma V1_fix_description_absent (line : text) :
  contains (str "description:") line = false -> V1.fix_description line = line.
Proof. intros H. unfold V1.fix_description. rewrite H. reflexivity. Qed.

Lemma V1_fix_unescaped_absent (line : text) :
  contains (str "content:") line = false -> V1.fix_unescaped line = line.
Proof.
  intros H. unfold V1.fix_unescaped.
  rewrite (contains_absent (str "content:") V1.open_content line eq_refl H).
  reflexivity.
Qed.

Lemma V1_fix_missing_absent (line : text) :
  contains (str "content:") line = false -> V1.fix_missing line = line.
Proof. intros H. unfold V1.fix_missing. rewrite H. reflexivity. Qed.

Lemma V2_role_sub_absent (s : text) :
  contains V2.tok_input s = false -> contains V2.tok_output s = false ->
  V2.role_sub 0 s = s.
Proof.
  induction s as [|c s IH]; intros Hi Ho; [reflexivity|].
  apply contains_cons_false in Hi as [Hi1 Hi2].
  apply contains_cons_false in Ho as [Ho1 Ho2].
  cbn [V2.role_sub]. rewrite Hi1, Ho1. f_equal. apply IH; assumption.
Qed.

Lemma V2_fix_role_absent (line : text) :
  contains (str "role:") line = false -> V2.fix_role line = line.
Proof.
  intros H. apply V2_role_sub_absent.
  - apply (contains_absent (str "role:") V2.tok_input line eq_refl H).
  - apply (contains_absent (str "role:") V2.tok_output line eq_refl H).
Qed.

Lemma V2_fix_description_absent (line : text) :
  contains (str "description:") line = false -> V2.fix_description line = line.
Proof.
  intros H. unfold V2.fix_description.
  rewrite (desc_search_absent _ H). reflexivity.
Qed.

Lemma V2_fix_content_absent (line : text) :
  contains (str "content:") line = false -> V2.fix_content line = line.
Proof. intros H. unfold V2.fix_content. rewrite H. reflexivity. Qed.

Lemma unrelated_fix_line (line : text) :
  contains (str "role:") line = false ->
  contains (str "description:") line = false ->
  contains (str "content:") line = false ->
  V1.fix_line line = line /\ V2.fix_line line = line.
Proof.
  intros Hr Hd Hc. split.
  - unfold V1.fix_line.
    rewrite (V1_fix_role_absent _ Hr), (V1_fix_description_absent _ Hd),
      (V1_fix_unescaped_absent _ Hc), (V1_fix_missing_absent _ Hc).
    reflexivity.
  - unfold V2.fix_line.
    rewrite (V2_fix_role_absent _ Hr), (V2_fix_description_absent _ Hd),
      (V2_fix_content_absent _ Hc).
    reflexivity.
Qed.

(** C8. A line that holds none of [role:], [description:] and [content:]
    is emitted by the loop of either script at its own position exactly as
    it was read. *)
Theorem unrelated_line_unchanged (lines : list text) (i : nat) (line : text) :
  lines !! i = Some line ->
  contains (str "role:") line = false ->
  contains (str "description:") line = false ->
  contains (str "content:") line = false ->
  V1.repair_loop lines [] !! i = Some line /\
  V2.repair_loop lines [] !! i = Some line.
Proof.
  intros Hi Hr Hd Hc.
  destruct (unrelated_fix_line line Hr Hd Hc) as [H1 H2].
  rewrite (V1_emitted_line _ _ _ Hi), (V2_emitted_line _ _ _ Hi), H1, H2.
  split; reflexivity.
Qed.

Lemma unrelated_line_unchanged_witness :
  V1.repair_loop
    [str "content: intro"; str "  const chapters = [`a` + 'b'];"] [] !! 1
  = Some (str "  const chapters = [`a` + 'b'];") /\
  V2.repair_loop
    [str "content: intro"; str "  const chapters = [`a` + 'b'];"] [] !! 1
  = Some (str "  const chapters = [`a` + 'b'];").
Proof.
  apply (unrelated_line_unchanged
           [str "content: intro"; str "  const chapters = [`a` + 'b'];"] 1
           (str "  const chapters = [`a` + 'b'];")); reflexivity.
Defined.

End Unrelated.

(** ** Escaping *)

Section Escaping.
Import Py Re.

Lemma find_spec (sep s a b : text) :
  find sep s = Some (a, b) -> s = a ++ sep ++ b.
Proof.
  revert a b. induction s as [|c s IH]; intros a b; cbn [find].
  - destruct (startswith sep []) eqn:E; [|discriminate].
    intros [= <- <-]. apply startswith_true in E. exact E.
  - destruct (startswith sep (c :: s)) eqn:E.
    + intros [= <- <-]. apply startswith_true in E. exact E.
    + destruct (find sep s) as [[a' b']|]; [|discriminate].
      intros [= <- <-]. cbn [app]. f_equal. apply IH. reflexivity.
Qed.

Lemma find_contains (sep s : text) :
  contains sep s = true -> exists a b, find sep s = Some (a, b).
Proof.
  induction s as [|c s IH]; cbn [contains find]; intros H.
  - rewrite orb_false_r in H. rewrite H. eauto.
  - destruct (startswith sep (c :: s)); [eauto|].
    destruct (IH H) as (a & b & ->). eauto.
Qed.

Lemma endswith_app (p s : text) :
  endswith p s = true -> exists a, s = a ++ p.
Proof.
  unfold endswith. intros H. apply startswith_iff in H as [t Ht].
  exists (rev t). rewrite <- (rev_involutive s), Ht, rev_app_distr.
  rewrite rev_involutive. reflexivity.
Qed.

Lemma drop_last_app (a p : text) : drop_last (length p) (a ++ p) = a.
Proof.
  unfold drop_last. rewrite length_app.
  replace (length a + length p - length p) with (length a + 0) by lia.
  rewrite firstn_app_2. cbn [firstn]. apply app_nil_r.
Qed.

Lemma endswith_spec (p s : text) :
  endswith p s = true -> s = drop_last (length p) s ++ p.
Proof.
  intros H. apply endswith_app in H as [a ->].
  rewrite drop_last_app. reflexivity.
Qed.

Lemma escape_from_kept (prev : bool) (a b : text) :
  escape_from prev (a ++ bslash :: backtick :: b)
  = escape_from prev a ++ bslash :: backtick :: escape_from false b.
Proof.
  revert prev. induction a as [|c a IH]; intros prev.
  - reflexivity.
  - cbn [app escape_from]. destruct (Ascii.eqb c backtick).
    + rewrite IH, <- app_assoc. reflexivity.
    + rewrite IH. reflexivity.
Qed.

(** C7. The substitution that both scripts use to escape backticks passes a
    backtick that a backslash precedes through with that one backslash, and
    the escaping rule of each script changes a line by that substitution
    only: on the text after the opening delimiter in [fix_backticks.py], on
    the text between the opening and the closing delimiter in
    [fix_backticks2.py]. *)
Theorem escaped_backtick_not_escaped_again :
  (forall a b : text,
     escape_backticks (a ++ bslash :: backtick :: b)
     = escape_backticks a ++ bslash :: backtick :: escape_backticks b) /\
  (forall line : text,
     V1.fix_unescaped line = line \/
     exists before part,
       line = before ++ V1.open_content ++ part /\
       V1.fix_unescaped line
       = before ++ V1.open_content ++ escape_backticks part) /\
  (forall line : text,
     V2.fix_unescaped line = line \/
     exists before inner suffix,
       line = before ++ V2.open_content ++ inner ++ suffix /\
       (suffix = [backtick] \/ suffix = [backtick; comma]) /\
       V2.fix_unescaped line
       = before ++ V2.open_content ++ escape_backticks inner ++ suffix).
Proof.
  split; [|split].
  - intros a b. apply escape_from_kept.
  - intros line. unfold V1.fix_unescaped.
    destruct (contains V1.open_content line) eqn:Hc; [|left; reflexivity].
    destruct (negb (endswith [backtick] (strip line))); [|left; reflexivity].
    cbn [andb].
    destruct (contains [backtick] (after_first V1.open_content line)
              && negb (endswith [backtick] (after_first V1.open_content line)));
      [|left; reflexivity].
    right. destruct (find_contains _ _ Hc) as (a & b & Hf).
    unfold after_first, before_first. rewrite Hf.
    exists a, b. split.
    + apply find_spec, Hf.
    + rewrite <- app_assoc. reflexivity.
  - intros line. unfold V2.fix_unescaped.
    destruct (contains V2.open_content line && (2 <? count backtick line));
      [|left; reflexivity].
    destruct (find V2.open_content line) as [[before rest]|] eqn:Hf;
      [|left; reflexivity].
    apply find_spec in Hf.
    destruct (endswith [backtick; comma] rest) eqn:E2.
    + rewrite orb_true_r. right.
      exists before, (drop_last 2 rest), [backtick; comma].
      split; [|split; [right; reflexivity|]].
      * rewrite Hf at 1. rewrite (endswith_spec _ _ E2) at 1. reflexivity.
      * rewrite <- app_assoc. reflexivity.
    + rewrite orb_false_r.
      destruct (endswith [backtick] rest) eqn:E1; [|left; reflexivity].
      right. exists before, (drop_last 1 rest), [backtick].
      split; [|split; [left; reflexivity|]].
      * rewrite Hf at 1. rewrite (endswith_spec _ _ E1) at 1. reflexivity.
      * rewrite <- app_assoc. reflexivity.
Qed.

(** C1. On the line of the specification's own example, a content value
    closed by a backtick and a comma with one inline code span, neither
    script produces the repaired line: [fix_backticks.py] escapes the closing
    delimiter as well, and in [fix_backticks2.py] the wrapping rule fires
    first and puts a second pair of delimiters around the value.  The
    escaping rule of [fix_backticks2.py] does repair the line when the
    wrapping rule stays out of the way: when the line does not start with
    the field, or when no comma follows the closing delimiter. *)
Theorem interior_escaping_example :
  V1.fix_line (str "content: `Use `code` here`,")
  = str "content: `Use \`code\` here\`," /\
  V2.fix_line (str "content: `Use `code` here`,")
  = str "content:``Use `code` here`,`" /\
  V1.fix_line (str "content: `Use `code` here`,")
  <> str "content: `Use \`code\` here`," /\
  V2.fix_line (str "content: `Use `code` here`,")
  <> str "content: `Use \`code\` here`," /\
  V2.fix_line (str "{ content: `Use `code` here`,")
  = str "{ content: `Use \`code\` here`," /\
  V2.fix_line (str "content: `Use `code` here`")
  = str "content: `Use \`code\` here`".
Proof. repeat split; try reflexivity; intros H; discriminate H. Qed.

End Escaping.

(** ** The command line *)

Section CommandLine.

(** C9, as the scripts have it. [fix_backticks.py] repairs the file named by
    its first argument, or [src/data/chapters.ts] when it is given none, and
    prints one line naming that file; [fix_backticks2.py] reads no argument
    and repairs [src/data/chapters.ts] whatever it is given. *)
Theorem main_repairs_one_file (prog path : string) (rest : list string)
    (w : world) (named default : text) :
  files w !! path = Some named ->
  files w !! default_path = Some default ->
  V1.main (prog :: path :: rest) w = Some (repaired V1.fix_text path named w) /\
  V1.main [prog] w = Some (repaired V1.fix_text default_path default w) /\
  V2.main (prog :: path :: rest) w
  = Some (repaired V2.fix_text default_path default w) /\
  V2.main [prog] w = Some (repaired V2.fix_text default_path default w).
Proof.
  intros Hn Hd. unfold V1.main, V2.main, V1.fix_file, V2.fix_file, repaired.
  cbn [length Nat.ltb Nat.leb nth]. rewrite Hn, Hd.
  repeat split; reflexivity.
Qed.

Lemma main_repairs_one_file_witness :
  V1.main ["fix_backticks.py"; "other.ts"]%string two_files
  = Some (repaired V1.fix_text "other.ts" (str "content: x") two_files) /\
  V1.main ["fix_backticks.py"%string] two_files
  = Some (repaired V1.fix_text default_path (str "content: y") two_files) /\
  V2.main ["fix_backticks.py"; "other.ts"]%string two_files
  = Some (repaired V2.fix_text default_path (str "content: y") two_files) /\
  V2.main ["fix_backticks.py"%string] two_files
  = Some (repaired V2.fix_text default_path (str "content: y") two_files).
Proof.
  apply (main_repairs_one_file "fix_backticks.py" "other.ts" [] two_files
           (str "content: x") (str "content: y")); reflexivity.
Defined.

(** C9 fails as stated: given the path [other.ts], [fix_backticks2.py]
    leaves that file as it was, though a repair would change it, and
    prints the name of the default file. *)
Lemma second_script_ignores_argument :
  exists w' : world,
    V2.main ["fix_backticks2.py"; "other.ts"]%string two_files = Some w' /\
    files w' !! "other.ts"%string = Some (str "content: x") /\
    V2.fix_text (str "content: x") <> str "content: x" /\
    stdout w' = [confirmation "src/data/chapters.ts"].
Proof.
  eexists. split; [reflexivity|]. split; [reflexivity|].
  split; [intros H; discriminate H|reflexivity].
Qed.

End CommandLine.

(** ** White space *)

Section WhiteSpace.
Import Py Re.

Lemma take_drop_while (p : ascii -> bool) (s : text) :
  take_while p s ++ drop_while p s = s.
Proof.
  induction s as [|c s IH]; [reflexivity|]. simpl.
  destruct (p c); [simpl; rewrite IH|]; reflexivity.
Qed.

Lemma take_while_all (p : ascii -> bool) (s : text) :
  forallb p (take_while p s) = true.
Proof.
  induction s as [|c s IH]; [reflexivity|]. simpl.
  destruct (p c) eqn:E; [simpl; rewrite E, IH|]; reflexivity.
Qed.

Lemma drop_while_head (p : ascii -> bool) (s : text) :
  drop_while p s = [] \/ first_is (fun c => negb (p c)) (drop_while p s) = true.
Proof.
  induction s as [|c s IH]; [left; reflexivity|]. simpl.
  destruct (p c) eqn:E; [exact IH|]. right. simpl. rewrite E. reflexivity.
Qed.

(** Scanning a run of matching characters stops where the run stops. *)
Lemma take_while_app (p : ascii -> bool) (ws rest : text) :
  forallb p ws = true ->
  rest = [] \/ first_is (fun c => negb (p c)) rest = true ->
  take_while p (ws ++ rest) = ws /\ drop_while p (ws ++ rest) = rest.
Proof.
  intros Hws Hrest. induction ws as [|c ws IH]; cbn [app].
  - destruct Hrest as [->|H]; [split; reflexivity|].
    destruct rest as [|c r]; [discriminate|]. simpl in *.
    destruct (p c); [discriminate|]. split; reflexivity.
  - simpl in Hws. apply andb_true_iff in Hws as [Hc Hws].
    destruct (IH Hws) as [IH1 IH2]. simpl. rewrite Hc, IH1, IH2.
    split; reflexivity.
Qed.

Lemma unsnoc_spec (s a : text) (c : ascii) :
  unsnoc s = Some (a, c) -> s = a ++ [c].
Proof.
  unfold unsnoc. destruct (rev s) as [|d r] eqn:E; [discriminate|].
  intros [= <- <-]. rewrite <- (rev_involutive s), E. reflexivity.
Qed.

Lemma unsnoc_app (a : text) (c : ascii) : unsnoc (a ++ [c]) = Some (a, c).
Proof.
  unfold unsnoc. rewrite rev_app_distr. cbn. rewrite rev_involutive.
  reflexivity.
Qed.

Lemma blank_app (a b : text) : blank (a ++ b) = blank a && blank b.
Proof. apply forallb_app. Qed.

Lemma blank_rev (a : text) : blank (rev a) = blank a.
Proof.
  induction a as [|c a IH]; [reflexivity|].
  cbn [rev]. rewrite blank_app, IH. cbn. rewrite andb_true_r.
  apply andb_comm.
Qed.

(** What [strip] removes is white space on both sides, and what it leaves,
    when it leaves anything, starts and ends with a character that is none. *)
Lemma strip_spec (s : text) :
  exists lead trail,
    s = lead ++ strip s ++ trail /\ blank lead = true /\ blank trail = true /\
    (strip s = [] \/ trimmed (strip s) = true).
Proof.
  unfold strip, rstrip, lstrip.
  set (t := drop_while isspace s).
  exists (take_while isspace s), (rev (take_while isspace (rev t))).
  split; [|split; [|split]].
  - rewrite <- rev_app_distr, take_drop_while, rev_involutive.
    subst t. rewrite take_drop_while. reflexivity.
  - apply take_while_all.
  - rewrite blank_rev. apply take_while_all.
  - destruct (drop_while_head isspace (rev t)) as [E|E]; [left; rewrite E; reflexivity|].
    right. unfold trimmed, last_is. rewrite rev_involutive.
    fold solid in E. rewrite E, andb_true_r.
    assert (Ht : t = rev (drop_while isspace (rev t))
                     ++ rev (take_while isspace (rev t))).
    { rewrite <- rev_app_distr, take_drop_while, rev_involutive. reflexivity. }
    destruct (rev (drop_while isspace (rev t))) as [|c r] eqn:Er.
    + apply (f_equal (@rev ascii)) in Er. rewrite rev_involutive in Er.
      rewrite Er in E. discriminate.
    + destruct (drop_while_head isspace s) as [E'|E']; fold t in E'.
      * rewrite E' in Ht. discriminate.
      * rewrite Ht in E'. exact E'.
Qed.

Lemma wrap_match1_spec (line prefix group2 : text) :
  wrap_match1 line = Some (prefix, group2) -> line = prefix ++ group2.
Proof.
  unfold wrap_match1.
  destruct (startswith (str "content:") (drop_while isspace line)) eqn:Hs;
    [|discriminate].
  apply startswith_true in Hs.
  set (r2 := skipn 8 (drop_while isspace line)) in *.
  change (length (str "content:")) with 8 in Hs. fold r2 in Hs.
  intros H.
  rewrite <- (take_drop_while isspace line), Hs.
  rewrite <- (take_drop_while isspace r2).
  destruct (drop_while isspace r2) as [|c v] eqn:Ev.
  - destruct (unsnoc (take_while isspace r2)) as [[ws2' c]|] eqn:Eu;
      [|discriminate].
    injection H as <- <-. apply unsnoc_spec in Eu. rewrite Eu.
    repeat rewrite <- app_assoc. rewrite app_nil_r. reflexivity.
  - injection H as <- <-. repeat rewrite <- app_assoc. reflexivity.
Qed.

Lemma wrap_match2_spec (line prefix group2 : text) :
  wrap_match2 line = Some (prefix, group2) -> line = prefix ++ group2.
Proof.
  unfold wrap_match2.
  destruct (startswith (str "content:") (drop_while isspace line)) eqn:Hs;
    [|discriminate].
  apply startswith_true in Hs.
  set (r2 := skipn 8 (drop_while isspace line)) in *.
  change (length (str "content:")) with 8 in Hs. fold r2 in Hs.
  intros H.
  rewrite <- (take_drop_while isspace line), Hs.
  rewrite <- (take_drop_while isspace r2).
  destruct (drop_while isspace r2) as [|c [|d v]] eqn:Ev.
  - destruct (unsnoc (take_while isspace r2)) as [[ws2' w]|] eqn:Eu;
      [|discriminate].
    destruct (unsnoc ws2') as [[ws2'' w']|] eqn:Eu'; [|discriminate].
    injection H as <- <-. apply unsnoc_spec in Eu, Eu'. rewrite Eu, Eu'.
    repeat rewrite <- app_assoc. reflexivity.
  - destruct (unsnoc (take_while isspace r2)) as [[ws2' w]|] eqn:Eu;
      [|discriminate].
    injection H as <- <-. apply unsnoc_spec in Eu. rewrite Eu.
    repeat rewrite <- app_assoc. reflexivity.
  - destruct (is_quote c).
    + destruct (unsnoc (take_while isspace r2)) as [[ws2' w]|] eqn:Eu;
        [|discriminate].
      injection H as <- <-. apply unsnoc_spec in Eu. rewrite Eu.
      repeat rewrite <- app_assoc. reflexivity.
    + injection H as <- <-. repeat rewrite <- app_assoc. reflexivity.
Qed.

(** C10. Whenever the wrapping rule of either script rewrites a line, the
    line was [prefix ++ lead ++ text ++ trail] with [lead] and [trail] white
    space and [text] free of white space at both ends, and the line written
    is [prefix], a backtick, [text] and a backtick: the white space around the
    value is not kept between the delimiters.  So [content: Hello ] with a
    trailing blank becomes [content: `Hello`] in both. *)
Theorem wrap_drops_surrounding_blanks :
  (forall line : text,
     V1.fix_missing line = line \/
     exists prefix lead text trail,
       line = prefix ++ lead ++ text ++ trail /\
       blank lead = true /\ blank trail = true /\ trimmed text = true /\
       V1.fix_missing line = prefix ++ backtick :: text ++ [backtick]) /\
  (forall line : text,
     V2.fix_missing line = line \/
     exists prefix lead text trail,
       line = prefix ++ lead ++ text ++ trail /\
       blank lead = true /\ blank trail = true /\ trimmed text = true /\
       V2.fix_missing line = prefix ++ backtick :: text ++ [backtick]) /\
  V1.fix_line (str "content: Hello ") = str "content: `Hello`" /\
  V2.fix_line (str "content: Hello ") = str "content: `Hello`".
Proof.
  split; [|split; [|split; reflexivity]].
  - intros line. unfold V1.fix_missing.
    match goal with |- (if ?b then _ else _) = _ \/ _ => destruct b end;
      [|left; reflexivity].
    destruct (wrap_match1 line) as [[prefix g]|] eqn:Em; [|left; reflexivity].
    apply wrap_match1_spec in Em.
    destruct (strip_spec g) as (lead & trail & Hg & Hl & Ht & Hs).
    destruct (Nat.eqb (length (strip g)) 0) eqn:En; [left; reflexivity|].
    destruct Hs as [Hs|Hs]; [rewrite Hs in En; discriminate|].
    match goal with |- (if ?b then _ else _) = _ \/ _ => destruct b end;
      [|left; reflexivity].
    right. exists prefix, lead, (strip g), trail.
    rewrite <- Hg. repeat split; assumption.
  - intros line. unfold V2.fix_missing.
    destruct (wrap_match2 line) as [[prefix g]|] eqn:Em; [|left; reflexivity].
    apply wrap_match2_spec in Em.
    destruct (strip_spec g) as (lead & trail & Hg & Hl & Ht & Hs).
    destruct (Nat.eqb (length (strip g)) 0) eqn:En; [left; reflexivity|].
    destruct Hs as [Hs|Hs]; [rewrite Hs in En; discriminate|].
    match goal with |- (if ?b then _ else _) = _ \/ _ => destruct b end;
      [|left; reflexivity].
    right. exists prefix, lead, (strip g), trail.
    rewrite <- Hg. repeat split; assumption.
Qed.

End WhiteSpace.

(** ** Wrapping a bare content value *)

Section Wrapping.
Import Py Re.

Lemma first_is_app (p : ascii -> bool) (a b : text) :
  first_is p a = true -> first_is p (a ++ b) = true.
Proof. destruct a; [discriminate|]. intros H. exact H. Qed.

Lemma last_is_app (p : ascii -> bool) (a b : text) :
  last_is p b = true -> last_is p (a ++ b) = true.
Proof.
  unfold last_is. rewrite rev_app_distr. apply first_is_app.
Qed.

Lemma trimmed_first (s : text) : trimmed s = true -> first_is solid s = true.
Proof. unfold trimmed. intros H. apply andb_true_iff in H. apply H. Qed.

Lemma trimmed_last (s : text) : trimmed s = true -> last_is solid s = true.
Proof. unfold trimmed. intros H. apply andb_true_iff in H. apply H. Qed.

(** [strip] takes exactly the white space around a trimmed text. *)
Lemma strip_shape (lead s trail : text) :
  blank lead = true -> trimmed s = true -> blank trail = true ->
  strip (lead ++ s ++ trail) = s.
Proof.
  intros Hl Hs Ht. unfold strip, lstrip, rstrip.
  destruct (take_while_app isspace lead (s ++ trail) Hl) as [_ ->].
  { right. apply first_is_app, trimmed_first, Hs. }
  rewrite rev_app_distr.
  destruct (take_while_app isspace (rev trail) (rev s)) as [_ ->].
  - rewrite <- Ht. apply blank_rev.
  - right. apply trimmed_last, Hs.
  - apply rev_involutive.
Qed.

Lemma trimmed_content (ws2 value : text) :
  trimmed value = true -> trimmed (str "content:" ++ ws2 ++ value) = true.
Proof.
  intros H. unfold trimmed. apply andb_true_iff. split; [reflexivity|].
  rewrite app_assoc. apply last_is_app, trimmed_last, H.
Qed.

Lemma wrap_match1_shape (ws1 ws2 value ws3 : text) :
  blank ws1 = true -> blank ws2 = true -> trimmed value = true ->
  wrap_match1 (ws1 ++ str "content:" ++ ws2 ++ value ++ ws3)
  = Some (ws1 ++ str "content:" ++ ws2, value ++ ws3).
Proof.
  intros H1 H2 Hv. unfold wrap_match1.
  destruct (take_while_app isspace ws1
              (str "content:" ++ ws2 ++ value ++ ws3) H1) as [-> ->];
    [right; reflexivity|].
  rewrite startswith_app.
  change (skipn 8 (str "content:" ++ ws2 ++ value ++ ws3))
    with (ws2 ++ value ++ ws3).
  destruct (take_while_app isspace ws2 (value ++ ws3) H2) as [-> ->].
  { right. apply first_is_app, trimmed_first, Hv. }
  apply trimmed_first in Hv. destruct value; [discriminate|]. reflexivity.
Qed.

Lemma wrap_match2_shape (ws1 ws2 value ws3 : text) :
  blank ws1 = true -> blank ws2 = true -> trimmed value = true ->
  first_is is_quote value = false -> 2 <= length value ->
  wrap_match2 (ws1 ++ str "content:" ++ ws2 ++ value ++ ws3)
  = Some (ws1 ++ str "content:" ++ ws2, value ++ ws3).
Proof.
  intros H1 H2 Hv Hq Hlen. unfold wrap_match2.
  destruct (take_while_app isspace ws1
              (str "content:" ++ ws2 ++ value ++ ws3) H1) as [-> ->];
    [right; reflexivity|].
  rewrite startswith_app.
  change (skipn 8 (str "content:" ++ ws2 ++ value ++ ws3))
    with (ws2 ++ value ++ ws3).
  destruct (take_while_app isspace ws2 (value ++ ws3) H2) as [-> ->].
  { right. apply first_is_app, trimmed_first, Hv. }
  destruct value as [|c [|d v]]; simpl in Hlen; try lia.
  simpl in Hq. cbn [app]. rewrite Hq. reflexivity.
Qed.

Lemma contains_app_r (p a b : text) :
  contains p b = true -> contains p (a ++ b) = true.
Proof.
  intros H. apply contains_iff in H as (x & y & ->).
  apply contains_iff. exists (a ++ x), y. rewrite <- app_assoc. reflexivity.
Qed.

Lemma contains_app_l (p a b : text) :
  contains p a = true -> contains p (a ++ b) = true.
Proof.
  intros H. apply contains_iff in H as (x & y & ->).
  apply contains_iff. exists x, (y ++ b). repeat rewrite <- app_assoc.
  reflexivity.
Qed.

Lemma contains_app_false (p a b : text) :
  contains p (a ++ b) = false ->
  contains p a = false /\ contains p b = false.
Proof.
  intros H. split.
  - destruct (contains p a) eqn:E; [|reflexivity].
    rewrite (contains_app_l _ _ b E) in H. discriminate.
  - destruct (contains p b) eqn:E; [|reflexivity].
    rewrite (contains_app_r _ a _ E) in H. discriminate.
Qed.

Lemma count_app (c : ascii) (a b : text) :
  count c (a ++ b) = count c a + count c b.
Proof. unfold count. rewrite List.filter_app, length_app. reflexivity. Qed.

Lemma count_absent (c : ascii) (s : text) :
  contains [c] s = false -> count c s = 0.
Proof.
  induction s as [|d s IH]; [reflexivity|]. intros H.
  apply contains_cons_false in H as [H1 H2].
  unfold count in *. cbn [List.filter]. simpl in H1.
  rewrite andb_true_r in H1. rewrite H1. apply IH, H2.
Qed.

Lemma endswith_char_contains (c : ascii) (s : text) :
  endswith [c] s = true -> contains [c] s = true.
Proof.
  intros H. apply endswith_app in H as [a ->].
  apply contains_app_r. reflexivity || (cbn; rewrite Ascii.eqb_refl; reflexivity).
Qed.

Lemma first_is_quote_false (value : text) :
  first_is is_quote value = false ->
  startswith [backtick] value = false /\
  startswith [squote] value = false /\
  startswith [dquote] value = false.
Proof.
  destruct value as [|c v]; [repeat split; reflexivity|].
  cbn [first_is startswith]. unfold is_quote. rewrite !andb_true_r.
  rewrite (Ascii.eqb_sym backtick), (Ascii.eqb_sym squote),
    (Ascii.eqb_sym dquote).
  intros H. apply orb_false_iff in H as [H H3].
  apply orb_false_iff in H as [H1 H2]. repeat split; assumption.
Qed.

Lemma trimmed_length (s : text) :
  trimmed s = true -> Nat.eqb (length s) 0 = false.
Proof. intros H. apply trimmed_first in H. destruct s; [discriminate|reflexivity]. Qed.

(** C4, as the scripts have it.  Take a line made of white space,
    [content:], white space, a value and white space, where the value is not
    empty, has no white space at either end and starts with none of the
    three quote characters, and where the line holds neither [role:] nor
    [description:] nor one of the three texts that the rule of
    [fix_backticks.py] is guarded by.  Then [fix_backticks.py] puts the value
    between backticks, keeps the white space before it and drops the white
    space behind it; [fix_backticks2.py] does the same when the line holds
    no backtick and the value has two characters or more. *)
Theorem bare_content_wrapped (ws1 ws2 value ws3 : text) :
  let line := ws1 ++ str "content:" ++ ws2 ++ value ++ ws3 in
  let wrapped := ws1 ++ str "content:" ++ ws2 ++ backtick :: value ++ [backtick] in
  blank ws1 = true -> blank ws2 = true -> blank ws3 = true ->
  trimmed value = true -> first_is is_quote value = false ->
  contains (str "role:") line = false ->
  contains (str "description:") line = false ->
  contains (str "content: `") line = false ->
  contains (str "content: '") line = false ->
  contains (str "content: " ++ [dquote; dquote]) line = false ->
  V1.fix_line line = wrapped /\
  (contains [backtick] line = false -> 2 <= length value ->
   V2.fix_line line = wrapped).
Proof.
  intros line wrapped H1 H2 H3 Hv Hq Hr Hd Hc1 Hc2 Hc3.
  assert (Hc : contains (str "content:") line = true).
  { apply contains_iff. exists ws1, (ws2 ++ value ++ ws3). reflexivity. }
  split.
  - unfold V1.fix_line.
    rewrite (V1_fix_role_absent _ Hr), (V1_fix_description_absent _ Hd).
    unfold V1.fix_unescaped. fold V1.open_content in Hc1.
    change (str "content: `") with V1.open_content in Hc1. rewrite Hc1.
    cbn [andb]. unfold V1.fix_missing. rewrite Hc, Hc1, Hc2, Hc3. cbn [negb andb].
    assert (Hs : strip line = str "content:" ++ ws2 ++ value).
    { unfold line.
      replace (ws1 ++ str "content:" ++ ws2 ++ value ++ ws3)
        with (ws1 ++ (str "content:" ++ ws2 ++ value) ++ ws3)
        by (repeat rewrite <- app_assoc; reflexivity).
      apply strip_shape; [assumption|apply trimmed_content, Hv|assumption]. }
    rewrite Hs, startswith_app. unfold line.
    rewrite (wrap_match1_shape _ _ _ ws3 H1 H2 Hv).
    rewrite (strip_shape [] value ws3 eq_refl Hv H3 : strip (value ++ ws3) = value).
    rewrite (trimmed_length _ Hv).
    destruct (first_is_quote_false _ Hq) as (-> & -> & ->).
    cbn [negb andb]. unfold wrapped. repeat rewrite <- app_assoc. reflexivity.
  - intros Hb Hlen. unfold V2.fix_line.
    rewrite (V2_fix_role_absent _ Hr), (V2_fix_description_absent _ Hd).
    unfold V2.fix_content. rewrite Hc. unfold V2.fix_missing, line.
    rewrite (wrap_match2_shape _ _ _ ws3 H1 H2 Hv Hq Hlen).
    rewrite (strip_shape [] value ws3 eq_refl Hv H3 : strip (value ++ ws3) = value).
    rewrite (trimmed_length _ Hv).
    unfold line in Hb.
    apply contains_app_false in Hb as [Hb1 Hb].
    apply contains_app_false in Hb as [_ Hb].
    apply contains_app_false in Hb as [Hb2 Hb].
    apply contains_app_false in Hb as [Hbv _].
    assert (He : endswith [backtick] value = false).
    { destruct (endswith [backtick] value) eqn:E; [|reflexivity].
      rewrite (endswith_char_contains _ _ E) in Hbv. discriminate. }
    rewrite He. cbn [negb andb].
    unfold V2.fix_unescaped.
    assert (Hn : count backtick
                   ((ws1 ++ str "content:" ++ ws2) ++ backtick :: value ++ [backtick]) = 2).
    { rewrite !count_app. change (backtick :: value ++ [backtick])
        with ([backtick] ++ value ++ [backtick]). rewrite !count_app.
      rewrite (count_absent _ _ Hb1), (count_absent _ _ Hb2),
        (count_absent _ _ Hbv). reflexivity. }
    rewrite Hn. cbn [Nat.ltb Nat.leb]. rewrite andb_false_r.
    unfold wrapped. repeat rewrite <- app_assoc. reflexivity.
Qed.

Lemma bare_content_wrapped_witness :
  V1.fix_line (str "  content: Hello world ") = str "  content: `Hello world`" /\
  V2.fix_line (str "  content: Hello world ") = str "  content: `Hello world`".
Proof.
  destruct (bare_content_wrapped (str "  ") (str " ") (str "Hello world")
              (str " ") eq_refl eq_refl eq_refl eq_refl eq_refl eq_refl
              eq_refl eq_refl eq_refl eq_refl) as [H1 H2].
  split; [exact H1|]. apply H2; [reflexivity|]. cbn. lia.
Defined.

(** C4 fails as stated.  [fix_backticks2.py] leaves a bare value alone when
    it ends with a backtick, and when it is a single character right after
    the colon; [fix_backticks.py] leaves it alone when the text holds
    [content: '] further on. *)
Lemma bare_content_not_always_wrapped :
  V2.fix_line (str "content: Hello `world`") = str "content: Hello `world`" /\
  V2.fix_line (str "content:a") = str "content:a" /\
  V1.fix_line (str "content: he wrote content: 'x'")
  = str "content: he wrote content: 'x'".
Proof. repeat split; reflexivity. Qed.

End Wrapping.

(** ** Where occurrences can start *)

Section Occurrences.
Import Py Re.

Lemma startswith_nil_r (p : text) : p <> [] -> startswith p [] = false.
Proof. destruct p; [congruence|reflexivity]. Qed.

Lemma startswith_foreign (p s : text) (c : ascii) (b : text) :
  absent_char c p = true -> startswith p (s ++ c :: b) = startswith p s.
Proof.
  revert s. induction p as [|a p IH]; intros s H; [destruct s; reflexivity|].
  unfold absent_char in H. cbn [existsb] in H.
  apply negb_true_iff, orb_false_iff in H as [Hca Hp].
  destruct s as [|x s]; cbn [app startswith].
  - rewrite Ascii.eqb_sym, Hca. reflexivity.
  - rewrite IH; [reflexivity|]. unfold absent_char. rewrite Hp. reflexivity.
Qed.

(** A character that is not in [p] separates the occurrences of [p]. *)
Lemma contains_sep (p a : text) (c : ascii) (b : text) :
  p <> [] -> absent_char c p = true ->
  contains p (a ++ c :: b) = contains p a || contains p b.
Proof.
  intros Hne Hc. induction a as [|x a IH].
  - cbn [app contains].
    rewrite (startswith_foreign p [] c b Hc : startswith p (c :: b) = _).
    rewrite (startswith_nil_r p Hne). reflexivity.
  - cbn [app contains].
    rewrite (startswith_foreign p (x :: a) c b Hc : startswith p (x :: a ++ c :: b) = _).
    rewrite IH. rewrite !orb_assoc. reflexivity.
Qed.

Lemma startswith_app_cases (m y z : text) :
  startswith m (y ++ z) = true ->
  startswith m y = true \/
  (length y < length m /\ startswith (skipn (length y) m) z = true).
Proof.
  revert y. induction m as [|a m IH]; intros y H; [left; destruct y; reflexivity|].
  destruct y as [|b y].
  - right. split; [simpl; lia|exact H].
  - cbn [app startswith] in H |- *. apply andb_true_iff in H as [Hab H].
    rewrite Hab. destruct (IH y H) as [Hy|[Hlen Hz]].
    + left. exact Hy.
    + right. split; [simpl; lia|exact Hz].
Qed.

Lemma startswith_prefix (m p s : text) :
  startswith m p = true -> startswith p s = true -> startswith m s = true.
Proof.
  intros Hm Hp. apply startswith_iff in Hm as [t ->].
  apply startswith_iff in Hp as [u ->]. rewrite <- app_assoc.
  apply startswith_app.
Qed.

Lemma clash_startswith (x y r : text) :
  clash x y = true -> startswith x (y ++ r) = false.
Proof.
  revert y. induction x as [|a x IH]; intros [|b y] H; try discriminate.
  cbn [clash] in H. cbn [app startswith].
  destruct (Ascii.eqb a b); [|reflexivity].
  cbn [negb orb] in H. rewrite (IH _ H). reflexivity.
Qed.

Lemma borderless_into_spec (m y r : text) (k : nat) :
  borderless_into m y = true -> 0 < k < length m ->
  startswith (skipn k m) (y ++ r) = false.
Proof.
  intros H Hk. apply clash_startswith.
  unfold borderless_into in H. rewrite forallb_forall in H.
  apply H, in_seq. lia.
Qed.

(** An occurrence of [p] starts with its marker [m]; when [a] holds no [m]
    and [m] cannot run from [a] into [y], no occurrence starts inside [a]. *)
Lemma starts_in_marker (m p a y r : text) :
  startswith m p = true -> contains m a = false ->
  borderless_into m y = true ->
  starts_in p a (y ++ r) = false.
Proof.
  intros Hm Ha Hb. induction a as [|c a IH]; [reflexivity|].
  apply contains_cons_false in Ha as [Ha1 Ha2].
  cbn [starts_in]. rewrite (IH Ha2), orb_false_r.
  destruct (startswith p ((c :: a) ++ y ++ r)) eqn:E; [|reflexivity].
  pose proof (startswith_prefix _ _ _ Hm E) as E'.
  apply startswith_app_cases in E' as [E'|[Hlen E']].
  - rewrite E' in Ha1. discriminate.
  - rewrite (borderless_into_spec m y r _ Hb) in E'; [discriminate|].
    simpl in *. lia.
Qed.

(** White space holds no start of a text that starts with another character. *)
Lemma starts_in_blank (p a q : text) :
  blank a = true -> first_is solid p = true -> starts_in p a q = false.
Proof.
  intros Ha Hp. induction a as [|c a IH]; [reflexivity|].
  cbn in Ha. apply andb_true_iff in Ha as [Hc Ha].
  cbn [starts_in]. rewrite (IH Ha), orb_false_r.
  destruct p as [|x p]; [discriminate|]. cbn [app startswith].
  destruct (Ascii.eqb x c) eqn:E; [|reflexivity].
  apply Ascii.eqb_eq in E. subst x. cbn in Hp. unfold solid in Hp.
  rewrite Hc in Hp. discriminate.
Qed.

Lemma find_here (sep q : text) :
  find sep (sep ++ q) = Some ([], q).
Proof.
  destruct (sep ++ q) eqn:E; cbn [find]; rewrite <- E, startswith_app;
    rewrite skipn_app, skipn_all, Nat.sub_diag; reflexivity.
Qed.

Lemma find_skip (sep a q : text) :
  starts_in sep a q = false ->
  find sep (a ++ q)
  = match find sep q with Some (x, y) => Some (a ++ x, y) | None => None end.
Proof.
  induction a as [|c a IH]; intros H.
  - cbn [app]. destruct (find sep q) as [[x y]|]; reflexivity.
  - cbn [starts_in] in H. apply orb_false_iff in H as [H1 H2].
    cbn [app find]. cbn [app] in H1. rewrite H1, (IH H2).
    destruct (find sep q) as [[x y]|]; reflexivity.
Qed.

Lemma replace_from_skip (old new a q : text) :
  starts_in old a q = false ->
  replace_from old new 0 (a ++ q) = a ++ replace_from old new 0 q.
Proof.
  induction a as [|c a IH]; intros H; [reflexivity|].
  cbn [starts_in] in H. apply orb_false_iff in H as [H1 H2].
  cbn [app replace_from]. cbn [app] in H1. rewrite H1, (IH H2). reflexivity.
Qed.

(** After an occurrence has been replaced, the scan resumes behind it. *)
Lemma replace_from_pass (old new x q : text) :
  replace_from old new (length x) (x ++ q) = replace_from old new 0 q.
Proof.
  induction x as [|c x IH]; [reflexivity|]. cbn [app length replace_from].
  exact IH.
Qed.

Lemma replace_from_here (old new q : text) :
  old <> [] ->
  replace_from old new 0 (old ++ q) = new ++ replace_from old new 0 q.
Proof.
  intros Hne. destruct old as [|c old]; [congruence|].
  cbn [app replace_from].
  rewrite (startswith_app (c :: old) q : startswith (c :: old) (c :: old ++ q) = true).
  replace (length (c :: old) - 1) with (length old) by (simpl; lia).
  rewrite replace_from_pass. reflexivity.
Qed.

Lemma desc_search_skip (a q : text) :
  starts_in (str "description:") a q = false ->
  desc_search (a ++ q) = desc_search q.
Proof.
  induction a as [|c a IH]; intros H; [reflexivity|].
  cbn [starts_in] in H. apply orb_false_iff in H as [H1 H2].
  cbn [app desc_search]. cbn [app] in H1.
  destruct (desc_match_here (c :: a ++ q)) eqn:E.
  - rewrite (desc_match_here_starts _ _ E) in H1. discriminate.
  - apply IH, H2.
Qed.

Lemma role_sub_skip (a q : text) :
  starts_in V2.tok_input a q = false -> starts_in V2.tok_output a q = false ->
  V2.role_sub 0 (a ++ q) = a ++ V2.role_sub 0 q.
Proof.
  induction a as [|c a IH]; intros Hi Ho; [reflexivity|].
  cbn [starts_in] in Hi, Ho.
  apply orb_false_iff in Hi as [Hi1 Hi2]. apply orb_false_iff in Ho as [Ho1 Ho2].
  cbn [app V2.role_sub]. cbn [app] in Hi1, Ho1.
  rewrite Hi1, Ho1, (IH Hi2 Ho2). reflexivity.
Qed.

Lemma escape_from_escaped (prev : bool) (s : text) :
  all_escaped_from prev s = true -> escape_from prev s = s.
Proof.
  revert prev. induction s as [|c s IH]; intros prev H; [reflexivity|].
  cbn [all_escaped_from escape_from] in *.
  destruct (Ascii.eqb c backtick).
  - apply andb_true_iff in H as [-> H]. cbn [app]. rewrite (IH _ H). reflexivity.
  - rewrite (IH _ H). reflexivity.
Qed.

End Occurrences.

(** ** Occurrences in a concatenation *)

Section Straddle.
Import Py Re.

Lemma endswith_refl (x : text) : endswith x x = true.
Proof.
  unfold endswith. rewrite <- (app_nil_r (rev x)) at 2. apply startswith_app.
Qed.

Lemma endswith_cons (x : text) (c : ascii) (a : text) :
  endswith x a = true -> endswith x (c :: a) = true.
Proof.
  unfold endswith. intros H. cbn [rev].
  apply startswith_iff in H as [t Ht]. rewrite Ht, <- app_assoc.
  apply startswith_app.
Qed.

Lemma startswith_firstn (p y z : text) :
  startswith p (y ++ z) = true -> length y <= length p ->
  firstn (length y) p = y.
Proof.
  revert y. induction p as [|a p IH]; intros [|b y] H Hlen;
    try reflexivity; simpl in Hlen; try lia.
  cbn [app startswith] in H. apply andb_true_iff in H as [Hab H].
  apply Ascii.eqb_eq in Hab. subst b. cbn [length firstn]. f_equal.
  apply IH; [exact H|lia].
Qed.

(** An occurrence of [p] in [a ++ b] lies in [a], lies in [b], or starts in
    [a] and ends in [b]. *)
Lemma contains_app_cases (p a b : text) :
  contains p (a ++ b) = true ->
  contains p a = true \/ contains p b = true \/
  exists k, 0 < k < length p /\
            endswith (firstn k p) a = true /\ startswith (skipn k p) b = true.
Proof.
  induction a as [|c a IH]; intros H; [right; left; exact H|].
  cbn [app contains] in H. apply orb_true_iff in H as [H|H].
  - destruct (startswith_app_cases p (c :: a) b H) as [Hs|[Hlen Hs]].
    + left. apply contains_startswith, Hs.
    + right. right. exists (length (c :: a)). split; [simpl in *; lia|].
      split; [|exact Hs].
      rewrite (startswith_firstn p (c :: a) b H); [apply endswith_refl|lia].
  - destruct (IH H) as [Ha|[Hb|(k & Hk & Hl & Hr)]].
    + left. cbn [contains]. rewrite Ha. apply orb_true_r.
    + right. left. exact Hb.
    + right. right. exists k. split; [exact Hk|].
      split; [apply endswith_cons, Hl|exact Hr].
Qed.

Lemma borderless_from_spec (m a x : text) (k : nat) :
  borderless_from m x = true -> 0 < k < length m ->
  endswith (firstn k m) (a ++ x) = false.
Proof.
  intros H Hk. unfold endswith. rewrite rev_app_distr.
  apply clash_startswith.
  unfold borderless_from in H. rewrite forallb_forall in H.
  apply H, in_seq. lia.
Qed.

Lemma contains_apart_r (p a y r : text) :
  borderless_into p y = true ->
  contains p (a ++ y ++ r) = contains p a || contains p (y ++ r).
Proof.
  intros Hb. destruct (contains p (a ++ y ++ r)) eqn:E.
  - apply contains_app_cases in E as [E|[E|(k & Hk & _ & E)]].
    + rewrite E. reflexivity.
    + rewrite E. symmetry. apply orb_true_r.
    + rewrite (borderless_into_spec _ _ _ _ Hb Hk) in E. discriminate.
  - apply contains_app_false in E as [-> ->]. reflexivity.
Qed.

Lemma contains_apart_l (p a x r : text) :
  borderless_from p x = true ->
  contains p ((a ++ x) ++ r) = contains p (a ++ x) || contains p r.
Proof.
  intros Hb. destruct (contains p ((a ++ x) ++ r)) eqn:E.
  - apply contains_app_cases in E as [E|[E|(k & Hk & E & _)]].
    + rewrite E. reflexivity.
    + rewrite E. symmetry. apply orb_true_r.
    + rewrite (borderless_from_spec _ _ _ _ Hb Hk) in E. discriminate.
  - apply contains_app_false in E as [-> ->]. reflexivity.
Qed.

Lemma contains_blank (p a : text) :
  blank a = true -> first_is solid p = true -> contains p a = false.
Proof.
  intros Ha Hp. induction a as [|c a IH].
  - destruct p; [discriminate|reflexivity].
  - cbn in Ha. apply andb_true_iff in Ha as [Hc Ha].
    cbn [contains]. rewrite (IH Ha), orb_false_r.
    destruct p as [|x p]; [discriminate|]. cbn [startswith].
    destruct (Ascii.eqb x c) eqn:E; [|reflexivity].
    apply Ascii.eqb_eq in E. subst x. cbn in Hp. unfold solid in Hp.
    rewrite Hc in Hp. discriminate.
Qed.

End Straddle.

(** ** Content values that span several lines *)

Section MultiLine.
Import Py Re.

Lemma all_escaped_no_quote_tick (prev : bool) (s : text) :
  all_escaped_from prev s = true -> contains [squote; backtick] s = false.
Proof.
  revert prev. induction s as [|c s IH]; intros prev H; [reflexivity|].
  cbn [all_escaped_from] in H. cbn [contains startswith].
  destruct (Ascii.eqb c backtick) eqn:Ec.
  - apply andb_true_iff in H as [_ H]. rewrite (IH _ H), orb_false_r.
    apply Ascii.eqb_eq in Ec. subst c. reflexivity.
  - rewrite (IH _ H), orb_false_r.
    destruct (Ascii.eqb squote c) eqn:Eq; [|reflexivity].
    apply Ascii.eqb_eq in Eq. subst c. cbn in H.
    destruct s as [|d s]; [reflexivity|]. cbn [startswith].
    cbn [all_escaped_from] in H. rewrite Ascii.eqb_sym.
    destruct (Ascii.eqb d backtick); [discriminate|reflexivity].
Qed.

Lemma opening_line_no_quote_tick (ws text : text) :
  blank ws = true -> all_escaped text = true ->
  contains [squote; backtick] (ws ++ V1.open_content ++ text) = false.
Proof.
  intros Hws Ht.
  rewrite (contains_apart_r [squote; backtick] ws V1.open_content text eq_refl).
  rewrite (contains_blank [squote; backtick] ws Hws eq_refl). cbn [orb].
  change (contains [squote; backtick] (V1.open_content ++ text))
    with (contains [squote; backtick] (([] ++ V1.open_content) ++ text)).
  rewrite (contains_apart_l [squote; backtick] [] V1.open_content text eq_refl).
  rewrite (all_escaped_no_quote_tick _ _ Ht). reflexivity.
Qed.

Lemma find_opening (ws text : text) :
  blank ws = true ->
  find V1.open_content (ws ++ V1.open_content ++ text) = Some (ws, text).
Proof.
  intros Hws. rewrite find_skip by (apply starts_in_blank; [exact Hws|reflexivity]).
  rewrite find_here, app_nil_r. reflexivity.
Qed.

Lemma V1_opening_line (ws text : text) :
  blank ws = true -> all_escaped text = true ->
  contains (str "description:") (ws ++ V1.open_content ++ text) = false ->
  V1.fix_line (ws ++ V1.open_content ++ text) = ws ++ V1.open_content ++ text.
Proof.
  intros Hws Ht Hd. set (line := ws ++ V1.open_content ++ text) in *.
  pose proof (opening_line_no_quote_tick ws text Hws Ht) as Hq. fold line in Hq.
  assert (Hc : contains V1.open_content line = true).
  { apply contains_iff. exists ws, text. reflexivity. }
  unfold V1.fix_line.
  assert (Hr : V1.fix_role line = line).
  { unfold V1.fix_role.
    rewrite (contains_absent [squote; backtick] V1.tok_input line eq_refl Hq).
    rewrite (contains_absent [squote; backtick] V1.tok_output line eq_refl Hq).
    reflexivity. }
  rewrite Hr, (V1_fix_description_absent _ Hd).
  assert (Hu : V1.fix_unescaped line = line).
  { assert (Ha : after_first V1.open_content line = text).
    { unfold after_first, line. rewrite (find_opening ws text Hws). reflexivity. }
    assert (Hb : before_first V1.open_content line = ws).
    { unfold before_first, line. rewrite (find_opening ws text Hws). reflexivity. }
    unfold V1.fix_unescaped. rewrite Hc, Ha, Hb.
    destruct (negb (endswith [backtick] (strip line))); [|reflexivity].
    cbn [andb].
    destruct (contains [backtick] text && negb (endswith [backtick] text));
      [|reflexivity].
    unfold escape_backticks. rewrite (escape_from_escaped _ _ Ht).
    unfold line. rewrite <- app_assoc. reflexivity. }
  rewrite Hu. unfold V1.fix_missing. rewrite Hc.
  rewrite andb_false_r. reflexivity.
Qed.

(** C6, as the scripts have it.  The opening line of a content value that
    goes on over further lines, white space, [content: `] and text whose
    backticks are all escaped, passes [fix_backticks.py] unchanged when it
    holds no [description:]; any other line of the value passes both scripts
    unchanged when it holds none of the three field markers. *)
Theorem multiline_value_unchanged (ws text other : text) :
  blank ws = true -> all_escaped text = true ->
  contains (str "description:") (ws ++ str "content: `" ++ text) = false ->
  contains (str "role:") other = false ->
  contains (str "description:") other = false ->
  contains (str "content:") other = false ->
  V1.fix_line (ws ++ str "content: `" ++ text) = ws ++ str "content: `" ++ text /\
  V1.fix_line other = other /\ V2.fix_line other = other.
Proof.
  intros Hws Ht Hd Hr' Hd' Hc'. split.
  - apply (V1_opening_line ws text Hws Ht Hd).
  - apply unrelated_fix_line; assumption.
Qed.

Lemma multiline_value_unchanged_witness :
  V1.fix_line (str "    content: `First line with \`code\`")
  = str "    content: `First line with \`code\`" /\
  V1.fix_line (str "second line, with \`more\` code`,")
  = str "second line, with \`more\` code`," /\
  V2.fix_line (str "second line, with \`more\` code`,")
  = str "second line, with \`more\` code`,".
Proof.
  apply (multiline_value_unchanged (str "    ")
           (str "First line with \`code\`")
           (str "second line, with \`more\` code`,")); reflexivity.
Defined.

(** C6 fails as stated: a line inside a well-formed value that reads like a
    bare content field is wrapped by both scripts, which keep no record of
    being inside a value. *)
Lemma multiline_interior_line_rewritten :
  V1.repair_loop
    [str "content: `Example:"; str "  content: Hello"; str "`,"] [] !! 1
  = Some (str "  content: `Hello`") /\
  V2.repair_loop
    [str "content: `Example:"; str "  content: Hello"; str "`,"] [] !! 1
  = Some (str "  content: `Hello`") /\
  V1.fix_text
    (Py.join_lines [str "content: `Example:"; str "  content: Hello"; str "`,"])
  <> Py.join_lines [str "content: `Example:"; str "  content: Hello"; str "`,"].
Proof.
  split; [reflexivity|]. split; [reflexivity|]. intros H. discriminate H.
Qed.

End MultiLine.

(** ** Description strings *)

Section Description.
Import Py Re.

Lemma replace_nonempty (old new s : text) :
  old <> [] -> replace old new s = replace_from old new 0 s.
Proof. destruct old; [congruence|reflexivity]. Qed.

Lemma replace_backtick_nil (s : text) :
  replace [backtick] [] s = without_backticks s.
Proof.
  cbn [replace]. induction s as [|c s IH]; [reflexivity|].
  cbn [replace_from startswith length Nat.sub app].
  unfold without_backticks in *. cbn [List.filter]. unfold is_backtick at 1.
  rewrite andb_true_r, (Ascii.eqb_sym c backtick).
  destruct (Ascii.eqb backtick c); cbn [negb]; rewrite IH; reflexivity.
Qed.

Lemma without_backticks_app (a b : text) :
  without_backticks (a ++ b) = without_backticks a ++ without_backticks b.
Proof. apply List.filter_app. Qed.

Lemma isspace_not_backtick (c : ascii) :
  isspace c = true -> is_backtick c = false.
Proof.
  unfold is_backtick. destruct (Ascii.eqb c backtick) eqn:E; [|reflexivity].
  apply Ascii.eqb_eq in E. subst c. intros H. discriminate H.
Qed.

Lemma without_backticks_blank (ws : text) :
  blank ws = true -> without_backticks ws = ws.
Proof.
  induction ws as [|c ws IH]; [reflexivity|]. cbn. intros H.
  apply andb_true_iff in H as [Hc H].
  unfold without_backticks in *. cbn [List.filter].
  rewrite (isspace_not_backtick _ Hc). cbn [negb]. rewrite (IH H). reflexivity.
Qed.

Lemma without_backticks_absent (s : text) :
  contains [backtick] s = false -> without_backticks s = s.
Proof.
  induction s as [|c s IH]; [reflexivity|]. intros H.
  apply contains_cons_false in H as [H1 H2].
  cbn [startswith] in H1. rewrite andb_true_r in H1.
  unfold without_backticks in *. cbn [List.filter]. unfold is_backtick at 1.
  rewrite Ascii.eqb_sym, H1. cbn [negb]. rewrite (IH H2). reflexivity.
Qed.

Lemma desc_search_here (s m : text) :
  desc_match_here s = Some m -> desc_search s = Some m.
Proof. intros H. destruct s; cbn [desc_search]; rewrite H; reflexivity. Qed.

(** The matcher on a description string: white space, a quote, a body with
    no quote and a backtick, and the closing quote. *)
Lemma desc_match_here_shape (ws body post : text) :
  blank ws = true -> forallb not_squote body = true ->
  existsb is_backtick body = true ->
  desc_match_here (str "description:" ++ ws ++ squote :: body ++ squote :: post)
  = Some (str "description:" ++ ws ++ squote :: body ++ [squote]).
Proof.
  intros Hws Hb He. unfold desc_match_here. rewrite startswith_app.
  change (skipn 12 (str "description:" ++ ws ++ squote :: body ++ squote :: post))
    with (ws ++ squote :: body ++ squote :: post).
  destruct (take_while_app isspace ws (squote :: body ++ squote :: post) Hws)
    as [-> ->]; [right; reflexivity|].
  rewrite Ascii.eqb_refl.
  destruct (take_while_app not_squote body (squote :: post) Hb) as [-> ->];
    [right; reflexivity|].
  rewrite He. reflexivity.
Qed.

Lemma existsb_backtick_contains (s : text) :
  existsb is_backtick s = true -> contains [backtick] s = true.
Proof.
  intros H. apply existsb_exists in H as (c & Hin & Hc).
  apply Ascii.eqb_eq in Hc. subst c.
  apply in_split in Hin as (a & b & ->).
  apply contains_iff. exists a, b. reflexivity.
Qed.

(** The rule of [fix_backticks.py] on a line with one description string. *)
Lemma V1_fix_description_shape (pre ws body post : text) :
  blank ws = true -> forallb not_squote body = true ->
  existsb is_backtick body = true ->
  contains (str "description:") pre = false ->
  contains (str "description:") post = false ->
  V1.fix_description
    (pre ++ str "description:" ++ ws ++ squote :: body ++ squote :: post)
  = pre ++ str "description:" ++ ws
        ++ squote :: without_backticks body ++ squote :: post.
Proof.
  intros Hws Hb He Hpre Hpost.
  set (old := str "description:" ++ ws ++ squote :: body ++ [squote]).
  assert (Hline : pre ++ str "description:" ++ ws ++ squote :: body ++ squote :: post
                  = pre ++ old ++ post).
  { unfold old. repeat (rewrite <- app_assoc; cbn [app]). reflexivity. }
  assert (Hstart : starts_in (str "description:") pre (old ++ post) = false).
  { unfold old. rewrite <- app_assoc.
    apply (starts_in_marker (str "description:")); [reflexivity|exact Hpre|reflexivity]. }
  assert (Hstart' : starts_in old pre (old ++ post) = false).
  { unfold old at 2. rewrite <- app_assoc.
    apply (starts_in_marker (str "description:")); [|exact Hpre|reflexivity].
    unfold old. apply startswith_app. }
  assert (Hs : desc_search (pre ++ old ++ post) = Some old).
  { rewrite (desc_search_skip _ _ Hstart). apply desc_search_here.
    unfold old. repeat (rewrite <- app_assoc; cbn [app]).
    apply desc_match_here_shape; assumption. }
  assert (Hne : old <> []) by discriminate.
  unfold V1.fix_description. rewrite Hline, Hs.
  assert (Hd : contains (str "description:") (pre ++ old ++ post) = true).
  { apply contains_app_r, contains_app_l, contains_startswith.
    unfold old. apply startswith_app. }
  assert (Ht : contains [backtick] (pre ++ old ++ post) = true).
  { apply contains_app_r, contains_app_l. unfold old.
    apply contains_app_r, contains_app_r.
    change (squote :: body ++ [squote]) with ([squote] ++ body ++ [squote]).
    apply contains_app_r, contains_app_l, existsb_backtick_contains, He. }
  assert (Hq : contains [squote] (pre ++ old ++ post) = true).
  { apply contains_app_r, contains_app_l. unfold old.
    apply contains_app_r, contains_app_r. reflexivity. }
  rewrite Hd, Ht, Hq. cbn [andb].
  rewrite (replace_nonempty _ _ _ Hne), (replace_from_skip _ _ _ _ Hstart').
  rewrite (replace_from_here _ _ _ Hne).
  rewrite replace_from_absent.
  2:{ apply (contains_absent (str "description:") old post); [|exact Hpost].
      apply contains_startswith. unfold old. apply startswith_app. }
  rewrite replace_backtick_nil. unfold old.
  change (squote :: body ++ [squote]) with ([squote] ++ body ++ [squote]).
  rewrite !without_backticks_app, (without_backticks_blank _ Hws).
  repeat (rewrite <- app_assoc; cbn [app]). reflexivity.
Qed.

(** Backticks go in pairs: over a stretch with an even number of them,
    all of them go. *)
Lemma strip_pairs_from_parity (s t acc : text) :
  (Nat.even (count backtick s) = true ->
   strip_pairs_from None (s ++ t)
   = without_backticks s ++ strip_pairs_from None t) /\
  (Nat.even (count backtick s) = false ->
   strip_pairs_from (Some acc) (s ++ t)
   = rev acc ++ without_backticks s ++ strip_pairs_from None t).
Proof.
  revert acc. induction s as [|c s IH]; intros acc.
  - split; [reflexivity|discriminate].
  - unfold count, without_backticks in *. cbn [List.filter app strip_pairs_from].
    change (is_backtick c) with (Ascii.eqb c backtick).
    rewrite (Ascii.eqb_sym backtick c).
    destruct (Ascii.eqb c backtick) eqn:E; cbn [negb length]; split; intros H.
    + rewrite Nat.even_succ, <- Nat.negb_even in H.
      apply negb_true_iff in H. apply (proj2 (IH [])) in H. exact H.
    + rewrite Nat.even_succ, <- Nat.negb_even in H.
      apply negb_false_iff in H. rewrite (proj1 (IH acc) H). reflexivity.
    + rewrite (proj1 (IH acc) H). reflexivity.
    + etransitivity; [exact (proj2 (IH (c :: acc)) H)|]. cbn [rev].
      rewrite <- app_assoc. reflexivity.
Qed.

Lemma strip_pairs_even (s : text) :
  Nat.even (count backtick s) = true -> strip_pairs s = without_backticks s.
Proof.
  intros H. unfold strip_pairs.
  rewrite <- (app_nil_r s) at 1.
  rewrite (proj1 (strip_pairs_from_parity s [] []) H). apply app_nil_r.
Qed.

(** C3, as the scripts have it.  Take a line with one description string,
    [pre description: ws 'body' post], where [body] holds no quote and at
    least one backtick, [pre] and [post] hold no [description:], the line
    holds no [role:] and the repaired line no [content:].  Then
    [fix_backticks.py] takes every backtick out of [body] and changes
    nothing else; [fix_backticks2.py], which takes backticks out in pairs
    over the whole line, gives the same line when [pre] and [post] hold no
    backtick and [body] holds an even number of them. *)
Theorem description_backticks_removed (pre ws body post : text) :
  let line :=
    pre ++ str "description:" ++ ws ++ squote :: body ++ squote :: post in
  let repaired :=
    pre ++ str "description:" ++ ws
        ++ squote :: without_backticks body ++ squote :: post in
  blank ws = true -> forallb not_squote body = true ->
  existsb is_backtick body = true ->
  contains (str "description:") pre = false ->
  contains (str "description:") post = false ->
  contains (str "role:") line = false ->
  contains (str "content:") repaired = false ->
  V1.fix_line line = repaired /\
  (contains [backtick] pre = false -> contains [backtick] post = false ->
   Nat.even (count backtick body) = true ->
   V2.fix_line line = repaired).
Proof.
  intros line repaired Hws Hb He Hpre Hpost Hr Hc. split.
  - unfold V1.fix_line. rewrite (V1_fix_role_absent _ Hr). unfold line.
    rewrite (V1_fix_description_shape _ _ _ _ Hws Hb He Hpre Hpost).
    fold repaired.
    rewrite (V1_fix_unescaped_absent _ Hc), (V1_fix_missing_absent _ Hc).
    reflexivity.
  - intros Hp1 Hp2 Heven. unfold V2.fix_line.
    rewrite (V2_fix_role_absent _ Hr).
    assert (Hs : desc_search line
                 = Some (str "description:" ++ ws ++ squote :: body ++ [squote])).
    { unfold line.
      rewrite desc_search_skip
        by (apply (starts_in_marker (str "description:"));
            [reflexivity|exact Hpre|reflexivity]).
      apply desc_search_here, desc_match_here_shape; assumption. }
    unfold V2.fix_description. rewrite Hs.
    assert (Hn : Nat.even (count backtick line) = true).
    { unfold line.
      change (squote :: body ++ squote :: post)
        with ([squote] ++ body ++ [squote] ++ post).
      rewrite !count_app, (count_absent _ _ Hp1), (count_absent _ _ Hp2).
      rewrite (count_absent backtick ws).
      2:{ destruct (contains [backtick] ws) eqn:E; [|reflexivity].
          apply contains_iff in E as (a & b & ->).
          rewrite !blank_app in Hws. cbn in Hws.
          rewrite andb_false_r in Hws. discriminate. }
      cbn [count List.filter length]. cbn.
      rewrite Nat.add_0_r. exact Heven. }
    rewrite (strip_pairs_even _ Hn). unfold line.
    change (squote :: body ++ squote :: post)
      with ([squote] ++ body ++ [squote] ++ post).
    rewrite !without_backticks_app, (without_backticks_absent _ Hp1),
      (without_backticks_absent _ Hp2), (without_backticks_blank _ Hws).
    change (without_backticks (str "description:")) with (str "description:").
    change (without_backticks [squote]) with [squote].
    fold repaired.
    assert (Hrep : pre ++ str "description:" ++ ws ++ [squote]
                    ++ without_backticks body ++ [squote] ++ post = repaired)
      by reflexivity.
    rewrite Hrep. apply (V2_fix_content_absent _ Hc).
Qed.

Lemma description_backticks_removed_witness :
  V1.fix_line (str "  description: 'use the `foo` helper',")
  = str "  description: 'use the foo helper'," /\
  V2.fix_line (str "  description: 'use the `foo` helper',")
  = str "  description: 'use the foo helper',".
Proof.
  destruct (description_backticks_removed (str "  ") (str " ")
              (str "use the `foo` helper") (str ",")
              eq_refl eq_refl eq_refl eq_refl eq_refl eq_refl eq_refl)
    as [H1 H2].
  split; [exact H1|]. apply H2; reflexivity.
Defined.

(** C3 fails as stated.  In [fix_backticks2.py] a backtick with no partner
    stays in the description, and backticks elsewhere on the line go with
    those of the description; in [fix_backticks.py] only the first
    description string with a backtick is cleaned. *)
Lemma description_backticks_not_all_removed :
  V2.fix_line (str "description: 'press ` to open'")
  = str "description: 'press ` to open'" /\
  V2.fix_line (str "description: 'use `x`', code: `y`")
  = str "description: 'use x', code: y" /\
  V1.fix_line (str "description: 'a `b`', description: 'c `d`'")
  = str "description: 'a b', description: 'c `d`'".
Proof. repeat split; reflexivity. Qed.

End Description.

(** ** Role values *)

Section Role.
Import Py Re.

Lemma no_field_spec (s : text) :
  no_field s = true ->
  contains (str "role:") s = false /\
  contains (str "description:") s = false /\
  contains (str "content:") s = false.
Proof.
  unfold no_field. intros H.
  apply andb_true_iff in H as [H H3]. apply andb_true_iff in H as [H1 H2].
  apply negb_true_iff in H1, H2, H3. repeat split; assumption.
Qed.

Lemma V1_fix_role_eq (line : text) :
  V1.fix_role line
  = replace V1.tok_output (str "role: 'output'")
      (replace V1.tok_input (str "role: 'input'") line).
Proof.
  unfold V1.fix_role.
  destruct (contains V1.tok_input line) eqn:E1.
  - destruct (contains V1.tok_output _) eqn:E2; [reflexivity|].
    symmetry. apply replace_absent; [discriminate|exact E2].
  - rewrite (replace_absent V1.tok_input _ line) by (discriminate || exact E1).
    destruct (contains V1.tok_output line) eqn:E2; [reflexivity|].
    symmetry. apply replace_absent; [discriminate|exact E2].
Qed.

(** A text [p] between [pre] and [post], none of which can share an
    occurrence of [m] with its neighbour. *)
Lemma contains_three (m pre x post : text) :
  borderless_into m x = true -> borderless_from m x = true ->
  contains m pre = false -> contains m x = false -> contains m post = false ->
  contains m (pre ++ x ++ post) = false.
Proof.
  intros Hi Hf Hpre Hx Hpost.
  rewrite (contains_apart_r m pre x post Hi), Hpre. cbn [orb].
  change (x ++ post) with (([] ++ x) ++ post).
  rewrite (contains_apart_l m [] x post Hf). cbn [app].
  rewrite Hx, Hpost. reflexivity.
Qed.

(** Straddling is also excluded when the part of [p] that would lie in [a]
    holds a character that [a] lacks. *)
Lemma contains_apart_mixed (p a y r : text) (c : ascii) :
  contains [c] a = false ->
  forallb (fun k => clash (skipn k p) y || existsb (Ascii.eqb c) (firstn k p))
    (seq 1 (length p - 1)) = true ->
  contains p (a ++ y ++ r) = contains p a || contains p (y ++ r).
Proof.
  intros Hc Hall. destruct (contains p (a ++ y ++ r)) eqn:E.
  - apply contains_app_cases in E as [E|[E|(k & Hk & El & Er)]].
    + rewrite E. reflexivity.
    + rewrite E. symmetry. apply orb_true_r.
    + rewrite forallb_forall in Hall.
      assert (Hin : In k (seq 1 (length p - 1))) by (apply in_seq; lia).
      apply Hall, orb_true_iff in Hin as [Hcl|Hex].
      * rewrite (clash_startswith _ _ r Hcl) in Er. discriminate.
      * apply endswith_app in El as [a' ->].
        apply existsb_exists in Hex as (d & Hd & Hcd).
        apply Ascii.eqb_eq in Hcd. subst d.
        apply in_split in Hd as (l1 & l2 & Hl). rewrite Hl in Hc.
        rewrite (contains_app_r [c] a' _) in Hc; [discriminate|].
        apply contains_iff. exists l1, l2. reflexivity.
  - apply contains_app_false in E as [-> ->]. reflexivity.
Qed.

Lemma contains_cons_other (p : text) (c : ascii) (s : text) :
  first_is (fun x => negb (Ascii.eqb x c)) p = true ->
  contains p (c :: s) = contains p s.
Proof.
  intros H. cbn [contains]. destruct p as [|x p]; [discriminate|].
  cbn [first_is] in H. cbn [startswith].
  apply negb_true_iff in H. rewrite H. reflexivity.
Qed.

(** Two values without backticks that are followed by a backtick and agree
    are the same value. *)
Lemma startswith_value (w v x y : text) :
  contains [backtick] w = false -> contains [backtick] v = false ->
  startswith (w ++ backtick :: x) (v ++ backtick :: y) = true -> v = w.
Proof.
  revert v. induction w as [|a w IH]; intros [|c v] Hw Hv H.
  - reflexivity.
  - cbn [app startswith] in H. apply andb_true_iff in H as [H _].
    apply Ascii.eqb_eq in H. subst c.
    apply contains_cons_false in Hv as [Hv _]. discriminate Hv.
  - cbn [app startswith] in H. apply andb_true_iff in H as [H _].
    apply Ascii.eqb_eq in H. subst a.
    apply contains_cons_false in Hw as [Hw _]. discriminate Hw.
  - cbn [app startswith] in H. apply andb_true_iff in H as [Hac H].
    apply Ascii.eqb_eq in Hac. subst c.
    apply contains_cons_false in Hw as [_ Hw].
    apply contains_cons_false in Hv as [_ Hv].
    f_equal. apply (IH v Hw Hv H).
Qed.

Lemma contains_wrapped_prefix (w rest : text) :
  contains (wrapped_role w) (str "role: '`" ++ rest)
  = startswith (w ++ str "`'") rest || contains (wrapped_role w) rest.
Proof.
  unfold wrapped_role.
  change (str "role: '`" ++ rest)
    with ("r" :: "o" :: "l" :: "e" :: ":" :: " " :: "'" :: "`" :: rest)%char.
  change (str "role: '`" ++ w ++ str "`'")
    with ("r" :: "o" :: "l" :: "e" :: ":" :: " " :: "'" :: "`" :: w ++ str "`'")%char.
  cbn [contains startswith Ascii.eqb Bool.eqb andb orb]. reflexivity.
Qed.

(** A wrapped role value other than [w] holds no wrapped [w], whatever
    stands around it as long as that holds no [role:]. *)
Lemma wrapped_role_absent (w pre v post : text) :
  w = str "input" \/ w = str "output" ->
  contains (str "role:") pre = false -> contains (str "role:") post = false ->
  contains [backtick] v = false -> v <> w ->
  contains (wrapped_role w) (pre ++ wrapped_role v ++ post) = false.
Proof.
  intros Hw Hpre Hpost Hv Hne.
  assert (Hw' : contains [backtick] w = false) by (destruct Hw; subst w; reflexivity).
  assert (Hr : contains (str "role:") (wrapped_role w) = true)
    by (destruct Hw; subst w; reflexivity).
  unfold wrapped_role at 2. rewrite <- !app_assoc.
  rewrite (contains_apart_r (wrapped_role w) pre (str "role: '`")).
  2:{ destruct Hw; subst w; reflexivity. }
  rewrite (contains_absent _ _ _ Hr Hpre). cbn [orb].
  rewrite contains_wrapped_prefix.
  destruct (startswith (w ++ str "`'") (v ++ str "`'" ++ post)) eqn:Es.
  { exfalso. apply Hne.
    apply (startswith_value w v [squote] (squote :: post) Hw' Hv Es). }
  cbn [orb].
  rewrite (contains_apart_mixed (wrapped_role w) v (str "`'") post backtick Hv).
  2:{ destruct Hw; subst w; reflexivity. }
  rewrite (contains_absent [backtick] (wrapped_role w) v); [|destruct Hw; subst w; reflexivity|exact Hv].
  cbn [orb]. change (str "`'" ++ post) with (backtick :: squote :: post).
  rewrite !contains_cons_other by (destruct Hw; subst w; reflexivity).
  apply (contains_absent _ _ _ Hr Hpost).
Qed.

Lemma role_sub_input (q : text) :
  V2.role_sub 0 (V2.tok_input ++ q) = str "role: 'input'" ++ V2.role_sub 0 q.
Proof. reflexivity. Qed.

Lemma role_sub_output (q : text) :
  V2.role_sub 0 (V2.tok_output ++ q) = str "role: 'output'" ++ V2.role_sub 0 q.
Proof. reflexivity. Qed.

Lemma starts_in_role (tok pre rest : text) :
  startswith (str "role:") tok = true ->
  contains (str "role:") pre = false ->
  starts_in tok pre (str "role:" ++ rest) = false.
Proof.
  intros Ht Hpre.
  apply (starts_in_marker (str "role:")); [exact Ht|exact Hpre|reflexivity].
Qed.

(** The role rule of either script on a line with one wrapped role. *)
Lemma fix_role_input (pre post : text) :
  contains (str "role:") pre = false -> contains (str "role:") post = false ->
  V1.fix_role (pre ++ wrapped_role (str "input") ++ post)
  = pre ++ str "role: 'input'" ++ post /\
  V2.fix_role (pre ++ wrapped_role (str "input") ++ post)
  = pre ++ str "role: 'input'" ++ post.
Proof.
  intros Hpre Hpost.
  change (wrapped_role (str "input")) with V1.tok_input.
  assert (Hi : contains V1.tok_input post = false)
    by (apply (contains_absent (str "role:")); [reflexivity|exact Hpost]).
  assert (Ho : contains V1.tok_output post = false)
    by (apply (contains_absent (str "role:")); [reflexivity|exact Hpost]).
  split.
  - rewrite V1_fix_role_eq.
    rewrite (replace_nonempty V1.tok_input) by discriminate.
    rewrite replace_from_skip
      by (apply (starts_in_role V1.tok_input pre (str " '`input`'" ++ post));
          [reflexivity|exact Hpre]).
    rewrite replace_from_here by discriminate.
    rewrite (replace_from_absent _ _ _ Hi).
    apply replace_absent; [discriminate|].
    apply contains_three; try reflexivity; try assumption.
    apply (contains_absent (str "role:")); [reflexivity|exact Hpre].
  - unfold V2.fix_role.
    rewrite role_sub_skip.
    + change V1.tok_input with V2.tok_input. rewrite role_sub_input.
      rewrite (V2_role_sub_absent post Hi Ho). reflexivity.
    + apply (starts_in_role V2.tok_input pre (str " '`input`'" ++ post));
        [reflexivity|exact Hpre].
    + apply (starts_in_role V2.tok_output pre (str " '`input`'" ++ post));
        [reflexivity|exact Hpre].
Qed.

Lemma fix_role_output (pre post : text) :
  contains (str "role:") pre = false -> contains (str "role:") post = false ->
  V1.fix_role (pre ++ wrapped_role (str "output") ++ post)
  = pre ++ str "role: 'output'" ++ post /\
  V2.fix_role (pre ++ wrapped_role (str "output") ++ post)
  = pre ++ str "role: 'output'" ++ post.
Proof.
  intros Hpre Hpost.
  change (wrapped_role (str "output")) with V1.tok_output.
  assert (Hi : contains V1.tok_input post = false)
    by (apply (contains_absent (str "role:")); [reflexivity|exact Hpost]).
  assert (Ho : contains V1.tok_output post = false)
    by (apply (contains_absent (str "role:")); [reflexivity|exact Hpost]).
  split.
  - rewrite V1_fix_role_eq.
    rewrite (replace_absent V1.tok_input).
    2: discriminate.
    2:{ apply contains_three; try reflexivity; try assumption.
        apply (contains_absent (str "role:")); [reflexivity|exact Hpre]. }
    rewrite (replace_nonempty V1.tok_output) by discriminate.
    rewrite replace_from_skip
      by (apply (starts_in_role V1.tok_output pre (str " '`output`'" ++ post));
          [reflexivity|exact Hpre]).
    rewrite replace_from_here by discriminate.
    rewrite (replace_from_absent _ _ _ Ho). reflexivity.
  - unfold V2.fix_role.
    rewrite role_sub_skip.
    + change V1.tok_output with V2.tok_output. rewrite role_sub_output.
      rewrite (V2_role_sub_absent post Hi Ho). reflexivity.
    + apply (starts_in_role V2.tok_input pre (str " '`output`'" ++ post));
        [reflexivity|exact Hpre].
    + apply (starts_in_role V2.tok_output pre (str " '`output`'" ++ post));
        [reflexivity|exact Hpre].
Qed.

Lemma fix_role_other (pre v post : text) :
  contains (str "role:") pre = false -> contains (str "role:") post = false ->
  contains [backtick] v = false -> v <> str "input" -> v <> str "output" ->
  V1.fix_role (pre ++ wrapped_role v ++ post) = pre ++ wrapped_role v ++ post /\
  V2.fix_role (pre ++ wrapped_role v ++ post) = pre ++ wrapped_role v ++ post.
Proof.
  intros Hpre Hpost Hv Hi Ho.
  pose proof (wrapped_role_absent (str "input") pre v post
                (or_introl eq_refl) Hpre Hpost Hv Hi) as Ai.
  pose proof (wrapped_role_absent (str "output") pre v post
                (or_intror eq_refl) Hpre Hpost Hv Ho) as Ao.
  change (wrapped_role (str "input")) with V1.tok_input in Ai.
  change (wrapped_role (str "output")) with V1.tok_output in Ao.
  split.
  - unfold V1.fix_role. rewrite Ai, Ao. reflexivity.
  - apply V2_role_sub_absent; assumption.
Qed.

End Role.

Section RoleWholeLine.
Import Py Re.

Lemma V1_fix_line_role_only (line : text) :
  contains (str "description:") (V1.fix_role line) = false ->
  contains (str "content:") (V1.fix_role line) = false ->
  V1.fix_line line = V1.fix_role line.
Proof.
  intros Hd Hc. unfold V1.fix_line.
  rewrite (V1_fix_description_absent _ Hd), (V1_fix_unescaped_absent _ Hc).
  apply (V1_fix_missing_absent _ Hc).
Qed.

Lemma V2_fix_line_role_only (line : text) :
  contains (str "description:") (V2.fix_role line) = false ->
  contains (str "content:") (V2.fix_role line) = false ->
  V2.fix_line line = V2.fix_role line.
Proof.
  intros Hd Hc. unfold V2.fix_line.
  rewrite (V2_fix_description_absent _ Hd). apply (V2_fix_content_absent _ Hc).
Qed.

Lemma contains_nil_r (m : text) : m <> [] -> contains m [] = false.
Proof. destruct m; [congruence|reflexivity]. Qed.

(** A marker without quote or backtick is no more in a line with a wrapped
    role than in the value and the text around. *)
Lemma marker_absent_wrapped (m pre v post : text) :
  m <> [] -> absent_char backtick m = true -> absent_char squote m = true ->
  borderless_into m (str "role: '`") = true ->
  borderless_from m (str "role: '`") = true ->
  contains m (str "role: '`") = false ->
  contains m pre = false -> contains m v = false -> contains m post = false ->
  contains m (pre ++ wrapped_role v ++ post) = false.
Proof.
  intros Hne Hb Hq Hi Hf Hx Hpre Hv Hpost.
  unfold wrapped_role. rewrite <- !app_assoc.
  rewrite (contains_apart_r m pre _ _ Hi), Hpre. cbn [orb].
  change (str "role: '`" ++ v ++ str "`'" ++ post)
    with (([] ++ str "role: '`") ++ v ++ backtick :: [] ++ squote :: post).
  rewrite (contains_apart_l m [] _ _ Hf). cbn [app]. rewrite Hx. cbn [orb].
  rewrite (contains_sep m v backtick _ Hne Hb), Hv. cbn [orb].
  change (squote :: post) with ([] ++ squote :: post).
  rewrite (contains_sep m [] squote _ Hne Hq), Hpost, (contains_nil_r m Hne).
  reflexivity.
Qed.

(** C5, as the scripts have it.  On a line whose text before and after
    the role holds no field marker, both scripts rewrite a role wrapped
    around [input] or [output] to the plain quoted value and leave the rest
    of the line alone, and they leave the whole line alone when the role is
    wrapped around any other value [v] that holds no backtick and no
    [description:] or [content:]. *)
Theorem role_values_unwrapped (pre post v : text) :
  no_field pre = true -> no_field post = true ->
  contains [backtick] v = false ->
  contains (str "description:") v = false ->
  contains (str "content:") v = false ->
  v <> str "input" -> v <> str "output" ->
  (V1.fix_line (pre ++ wrapped_role (str "input") ++ post)
   = pre ++ str "role: 'input'" ++ post /\
   V1.fix_line (pre ++ wrapped_role (str "output") ++ post)
   = pre ++ str "role: 'output'" ++ post /\
   V1.fix_line (pre ++ wrapped_role v ++ post) = pre ++ wrapped_role v ++ post) /\
  (V2.fix_line (pre ++ wrapped_role (str "input") ++ post)
   = pre ++ str "role: 'input'" ++ post /\
   V2.fix_line (pre ++ wrapped_role (str "output") ++ post)
   = pre ++ str "role: 'output'" ++ post /\
   V2.fix_line (pre ++ wrapped_role v ++ post) = pre ++ wrapped_role v ++ post).
Proof.
  intros Hpre Hpost Hv Hvd Hvc Hi Ho.
  apply no_field_spec in Hpre as (Hpr & Hpd & Hpc).
  apply no_field_spec in Hpost as (Hqr & Hqd & Hqc).
  destruct (fix_role_input pre post Hpr Hqr) as [I1 I2].
  destruct (fix_role_output pre post Hpr Hqr) as [O1 O2].
  destruct (fix_role_other pre v post Hpr Hqr Hv Hi Ho) as [V1' V2'].
  assert (Di : contains (str "description:") (pre ++ str "role: 'input'" ++ post) = false)
    by (apply contains_three; try reflexivity; assumption).
  assert (Ci : contains (str "content:") (pre ++ str "role: 'input'" ++ post) = false)
    by (apply contains_three; try reflexivity; assumption).
  assert (Do : contains (str "description:") (pre ++ str "role: 'output'" ++ post) = false)
    by (apply contains_three; try reflexivity; assumption).
  assert (Co : contains (str "content:") (pre ++ str "role: 'output'" ++ post) = false)
    by (apply contains_three; try reflexivity; assumption).
  assert (Dv : contains (str "description:") (pre ++ wrapped_role v ++ post) = false)
    by (apply marker_absent_wrapped; try reflexivity; try assumption; discriminate).
  assert (Cv : contains (str "content:") (pre ++ wrapped_role v ++ post) = false)
    by (apply marker_absent_wrapped; try reflexivity; try assumption; discriminate).
  split; (split; [|split]).
  - rewrite V1_fix_line_role_only; rewrite I1; try assumption. reflexivity.
  - rewrite V1_fix_line_role_only; rewrite O1; try assumption. reflexivity.
  - rewrite V1_fix_line_role_only; rewrite V1'; try assumption. reflexivity.
  - rewrite V2_fix_line_role_only; rewrite I2; try assumption. reflexivity.
  - rewrite V2_fix_line_role_only; rewrite O2; try assumption. reflexivity.
  - rewrite V2_fix_line_role_only; rewrite V2'; try assumption. reflexivity.
Qed.

Lemma role_values_unwrapped_witness :
  (V1.fix_line (str "    role: '`input`',") = str "    role: 'input'," /\
   V1.fix_line (str "    role: '`output`',") = str "    role: 'output'," /\
   V1.fix_line (str "    role: '`other`',") = str "    role: '`other`',") /\
  (V2.fix_line (str "    role: '`input`',") = str "    role: 'input'," /\
   V2.fix_line (str "    role: '`output`',") = str "    role: 'output'," /\
   V2.fix_line (str "    role: '`other`',") = str "    role: '`other`',").
Proof.
  apply (role_values_unwrapped (str "    ") (str ",") (str "other"));
    try reflexivity; intros H; discriminate H.
Defined.

(** C5 fails as stated: inside a longer line a role wrapped around another
    value does not always stay.  The description rule of
    [fix_backticks2.py] takes the backticks of the whole line, and the
    escaping rule of [fix_backticks.py] escapes every backtick after an
    opening [content: `]. *)
Lemma wrapped_role_not_always_kept :
  V2.fix_line (str "{ role: '`other`', description: 'use `x`' }")
  = str "{ role: 'other', description: 'use x' }" /\
  V1.fix_line (str "content: `see role: '`other`' below")
  = str "content: `see role: '\`other\`' below".
Proof. split; reflexivity. Qed.

End RoleWholeLine.

(** ** Running the repair twice *)

Section RoleTwice.
Import Py Re.

Lemma startswith_app_l (p y q : text) :
  startswith p y = true -> startswith p (y ++ q) = true.
Proof.
  intros H. apply startswith_iff in H as [t ->]. rewrite <- app_assoc.
  apply startswith_app.
Qed.

Lemma starts_in_contains (p a q : text) :
  p <> [] -> starts_in p a q = false -> contains p a = false.
Proof.
  intros Hne. induction a as [|c a IH]; intros H.
  - apply contains_nil_r, Hne.
  - cbn [starts_in] in H. apply orb_false_iff in H as [H1 H2].
    cbn [contains]. rewrite (IH H2), orb_false_r.
    destruct (startswith p (c :: a)) eqn:E; [|reflexivity].
    rewrite (startswith_app_l _ _ q E) in H1. discriminate.
Qed.

(** One step of [replace]: nothing to replace, or a first occurrence. *)
Lemma replace_from_unfold (old new s : text) :
  old <> [] ->
  contains old s = false \/
  exists a b, s = a ++ old ++ b /\ starts_in old a (old ++ b) = false /\
              replace_from old new 0 s = a ++ new ++ replace_from old new 0 b.
Proof.
  intros Hne. induction s as [|c s IH]; [left; apply contains_nil_r, Hne|].
  destruct (startswith old (c :: s)) eqn:E.
  - right. apply startswith_true in E.
    exists [], (skipn (length old) (c :: s)). split; [exact E|].
    split; [reflexivity|]. rewrite E at 1. apply replace_from_here, Hne.
  - destruct IH as [IH|(a & b & Hs & Ha & Hr)].
    + left. cbn [contains]. rewrite E, IH. reflexivity.
    + right. exists (c :: a), b. split; [rewrite Hs; reflexivity|].
      split.
      * cbn [starts_in]. rewrite Ha, orb_false_r. cbn [app].
        rewrite <- Hs. exact E.
      * cbn [replace_from]. rewrite E, Hr. reflexivity.
Qed.

(** A text [p] that cannot share an occurrence with a replacement [new]
    and its neighbours is not in the result of a replacement when it was
    not in the text, and neither is the replaced text itself. *)
Lemma replace_from_out_absent (p old new : text) (n : nat) :
  old <> [] -> p <> [] ->
  borderless_into p new = true -> borderless_from p new = true ->
  contains p new = false ->
  forall s, length s <= n ->
    contains p s = false \/ p = old ->
    contains p (replace_from old new 0 s) = false.
Proof.
  intros Hne Hpne Hi Hf Hnew. induction n as [|n IH]; intros s Hlen Hs.
  - destruct s; [|simpl in Hlen; lia]. apply contains_nil_r, Hpne.
  - destruct (replace_from_unfold old new s Hne) as [Habs|(a & b & Hab & Ha & ->)].
    + rewrite (replace_from_absent _ _ _ Habs).
      destruct Hs as [Hs| ->]; assumption.
    + assert (Hlb : length b <= n).
      { rewrite Hab, !length_app in Hlen. destruct old; [congruence|].
        simpl in Hlen. lia. }
      apply contains_three; try assumption.
      * destruct Hs as [Hs| ->].
        -- rewrite Hab in Hs. apply contains_app_false in Hs. apply Hs.
        -- apply (starts_in_contains _ _ _ Hne Ha).
      * apply IH; [exact Hlb|]. destruct Hs as [Hs|Hs]; [left|right; exact Hs].
        rewrite Hab in Hs. apply contains_app_false in Hs as [_ Hs].
        apply contains_app_false in Hs. apply Hs.
Qed.

Lemma replace_out_absent (p old new s : text) :
  old <> [] -> p <> [] ->
  borderless_into p new = true -> borderless_from p new = true ->
  contains p new = false ->
  contains p s = false \/ p = old ->
  contains p (replace old new s) = false.
Proof.
  intros Hne Hpne Hi Hf Hnew Hs. rewrite (replace_nonempty _ _ _ Hne).
  apply (replace_from_out_absent p old new (length s)); auto.
Qed.

(** After the role rule of [fix_backticks.py] no wrapped role is left, and
    no [description:] has come into the line. *)
Lemma V1_fix_role_clean (line : text) :
  contains V1.tok_input (V1.fix_role line) = false /\
  contains V1.tok_output (V1.fix_role line) = false /\
  (contains (str "description:") line = false ->
   contains (str "description:") (V1.fix_role line) = false).
Proof.
  rewrite V1_fix_role_eq. split; [|split].
  - apply replace_out_absent; try reflexivity; try discriminate. left.
    apply replace_out_absent; try reflexivity; try discriminate. right. reflexivity.
  - apply replace_out_absent; try reflexivity; try discriminate. right. reflexivity.
  - intros H.
    apply replace_out_absent; try reflexivity; try discriminate. left.
    apply replace_out_absent; try reflexivity; try discriminate. left. exact H.
Qed.

(** One step of the substitution of [fix_backticks2.py]. *)
Lemma role_sub_unfold (s : text) :
  (contains V2.tok_input s = false /\ contains V2.tok_output s = false) \/
  exists a b tok new,
    ((tok = V2.tok_input /\ new = str "role: 'input'") \/
     (tok = V2.tok_output /\ new = str "role: 'output'")) /\
    s = a ++ tok ++ b /\
    starts_in V2.tok_input a (tok ++ b) = false /\
    starts_in V2.tok_output a (tok ++ b) = false /\
    V2.role_sub 0 s = a ++ new ++ V2.role_sub 0 b.
Proof.
  induction s as [|c s IH]; [left; split; reflexivity|].
  destruct (startswith V2.tok_input (c :: s)) eqn:Ei.
  { right. apply startswith_true in Ei.
    exists [], (skipn (length V2.tok_input) (c :: s)), V2.tok_input,
      (str "role: 'input'").
    split; [left; split; reflexivity|]. split; [exact Ei|].
    split; [reflexivity|]. split; [reflexivity|].
    rewrite Ei at 1. apply role_sub_input. }
  destruct (startswith V2.tok_output (c :: s)) eqn:Eo.
  { right. apply startswith_true in Eo.
    exists [], (skipn (length V2.tok_output) (c :: s)), V2.tok_output,
      (str "role: 'output'").
    split; [right; split; reflexivity|]. split; [exact Eo|].
    split; [reflexivity|]. split; [reflexivity|].
    rewrite Eo at 1. apply role_sub_output. }
  destruct IH as [[Hi Ho]|(a & b & tok & new & Ht & Hs & Hai & Hao & Hr)].
  - left. cbn [contains]. rewrite Ei, Eo, Hi, Ho. split; reflexivity.
  - right. exists (c :: a), b, tok, new. split; [exact Ht|].
    split; [rewrite Hs; reflexivity|].
    cbn [starts_in app]. rewrite <- Hs, Ei, Eo, Hai, Hao.
    split; [reflexivity|]. split; [reflexivity|].
    cbn [V2.role_sub]. rewrite Ei, Eo, Hr. reflexivity.
Qed.

Lemma role_sub_out_absent (p : text) (n : nat) :
  p <> [] ->
  borderless_into p (str "role: 'input'") = true ->
  borderless_from p (str "role: 'input'") = true ->
  contains p (str "role: 'input'") = false ->
  borderless_into p (str "role: 'output'") = true ->
  borderless_from p (str "role: 'output'") = true ->
  contains p (str "role: 'output'") = false ->
  forall s, length s <= n ->
    contains p s = false \/ p = V2.tok_input \/ p = V2.tok_output ->
    contains p (V2.role_sub 0 s) = false.
Proof.
  intros Hpne Hi1 Hf1 Hn1 Hi2 Hf2 Hn2.
  induction n as [|n IH]; intros s Hlen Hs.
  - destruct s; [|simpl in Hlen; lia]. apply contains_nil_r, Hpne.
  - destruct (role_sub_unfold s)
      as [[Ai Ao]|(a & b & tok & new & Ht & Hab & Hai & Hao & ->)].
    + rewrite (V2_role_sub_absent _ Ai Ao).
      destruct Hs as [Hs|[->| ->]]; assumption.
    + assert (Hlb : length b <= n).
      { rewrite Hab, !length_app in Hlen.
        destruct Ht as [[-> _]|[-> _]]; simpl in Hlen; lia. }
      assert (Ha : contains p a = false).
      { destruct Hs as [Hs|[->| ->]].
        - rewrite Hab in Hs. apply contains_app_false in Hs. apply Hs.
        - apply (starts_in_contains _ _ _ Hpne Hai).
        - apply (starts_in_contains _ _ _ Hpne Hao). }
      assert (Hb : contains p (V2.role_sub 0 b) = false).
      { apply IH; [exact Hlb|]. destruct Hs as [Hs|Hs]; [left|right; exact Hs].
        rewrite Hab in Hs. apply contains_app_false in Hs as [_ Hs].
        apply contains_app_false in Hs. apply Hs. }
      destruct Ht as [[_ ->]|[_ ->]]; apply contains_three; assumption.
Qed.

Lemma V2_fix_role_clean (line : text) :
  contains V2.tok_input (V2.fix_role line) = false /\
  contains V2.tok_output (V2.fix_role line) = false /\
  (contains (str "description:") line = false ->
   contains (str "description:") (V2.fix_role line) = false).
Proof.
  unfold V2.fix_role. split; [|split].
  - apply (role_sub_out_absent V2.tok_input (length line));
      try reflexivity; try discriminate. right. left. reflexivity.
  - apply (role_sub_out_absent V2.tok_output (length line));
      try reflexivity; try discriminate. right. right. reflexivity.
  - intros H. apply (role_sub_out_absent (str "description:") (length line));
      try reflexivity; try discriminate. left. exact H.
Qed.

End RoleTwice.

Section EscapeTwice.
Import Py Re.

Lemma escape_all_escaped (prev : bool) (s : text) :
  all_escaped_from prev (escape_from prev s) = true.
Proof.
  revert prev. induction s as [|c s IH]; intros prev; [reflexivity|].
  cbn [escape_from]. destruct (Ascii.eqb c backtick) eqn:E.
  - apply Ascii.eqb_eq in E. subst c.
    destruct prev; cbn [app all_escaped_from]; cbn; apply IH.
  - cbn [all_escaped_from]. rewrite E. apply IH.
Qed.

Lemma escape_backticks_idem (s : text) :
  escape_backticks (escape_backticks s) = escape_backticks s.
Proof. apply escape_from_escaped, escape_all_escaped. Qed.

Lemma plain_cons (a : ascii) (p : text) :
  plain (a :: p) = true ->
  Ascii.eqb a backtick = false /\ Ascii.eqb a bslash = false /\ plain p = true.
Proof.
  cbn. intros H. apply andb_true_iff in H as [H Hp].
  apply andb_true_iff in H as [H1 H2].
  apply negb_true_iff in H1, H2. repeat split; assumption.
Qed.

(** Escaping does not touch what a text without backtick or backslash can
    match. *)
Lemma startswith_escape (p : text) (prev : bool) (s y : text) :
  plain p = true ->
  startswith p (escape_from prev s ++ y) = startswith p (s ++ y).
Proof.
  revert prev p. induction s as [|c s IH]; intros prev p Hp; [reflexivity|].
  destruct p as [|a p]; [reflexivity|].
  apply plain_cons in Hp as (Ha1 & Ha2 & Hp).
  cbn [escape_from]. destruct (Ascii.eqb c backtick) eqn:E.
  - apply Ascii.eqb_eq in E. subst c.
    destruct prev; cbn [app startswith]; rewrite ?Ha1, ?Ha2; reflexivity.
  - cbn [app startswith]. rewrite (IH _ p Hp). reflexivity.
Qed.

Lemma startswith_escape_ctx (p x : text) (prev : bool) (s y : text) :
  plain p = true ->
  startswith p (x ++ escape_from prev s ++ y) = startswith p (x ++ s ++ y).
Proof.
  revert p. induction x as [|c x IH]; intros p Hp.
  - exact (startswith_escape p prev s y Hp).
  - destruct p as [|a p]; [reflexivity|].
    apply plain_cons in Hp as (_ & _ & Hp).
    cbn [app startswith]. rewrite (IH p Hp). reflexivity.
Qed.

Lemma contains_escape (p : text) (prev : bool) (s y : text) :
  p <> [] -> plain p = true ->
  contains p (escape_from prev s ++ y) = contains p (s ++ y).
Proof.
  intros Hne Hp. revert prev. induction s as [|c s IH]; intros prev; [reflexivity|].
  pose proof (startswith_escape p prev (c :: s) y Hp) as Hs.
  destruct p as [|a p]; [congruence|].
  destruct (plain_cons _ _ Hp) as (Ha1 & Ha2 & _).
  cbn [escape_from] in *. destruct (Ascii.eqb c backtick) eqn:E.
  - apply Ascii.eqb_eq in E. subst c.
    destruct prev; cbn [app contains startswith]; rewrite ?Ha1, ?Ha2, IH;
      reflexivity.
  - cbn [app contains] in *. rewrite Hs, IH. reflexivity.
Qed.

Lemma contains_escape_ctx (p x : text) (prev : bool) (s y : text) :
  p <> [] -> plain p = true ->
  contains p (x ++ escape_from prev s ++ y) = contains p (x ++ s ++ y).
Proof.
  intros Hne Hp. induction x as [|c x IH].
  - exact (contains_escape p prev s y Hne Hp).
  - pose proof (startswith_escape_ctx p (c :: x) prev s y Hp) as Hs.
    cbn [app contains] in *. rewrite Hs, IH. reflexivity.
Qed.

Lemma startswith_indep (p y b : text) :
  length p <= length y -> startswith p (y ++ b) = startswith p y.
Proof.
  revert y. induction p as [|a p IH]; intros y H; [destruct y; reflexivity|].
  destruct y as [|c y]; [simpl in H; lia|].
  cbn [app startswith]. rewrite IH; [reflexivity|simpl in H; lia].
Qed.

Lemma starts_in_indep (sep a b b' : text) :
  starts_in sep a (sep ++ b) = starts_in sep a (sep ++ b').
Proof.
  induction a as [|c a IH]; [reflexivity|].
  cbn [starts_in]. rewrite IH. f_equal.
  rewrite !(app_assoc (c :: a) sep).
  rewrite (startswith_indep sep ((c :: a) ++ sep) b)
    by (rewrite length_app; lia).
  rewrite (startswith_indep sep ((c :: a) ++ sep) b')
    by (rewrite length_app; lia).
  reflexivity.
Qed.

Lemma find_starts_in (sep s a b : text) :
  find sep s = Some (a, b) -> starts_in sep a (sep ++ b) = false.
Proof.
  revert a b. induction s as [|c s IH]; intros a b; cbn [find].
  - destruct (startswith sep []); [|discriminate]. intros [= <- <-]. reflexivity.
  - destruct (startswith sep (c :: s)) eqn:E; [intros [= <- <-]; reflexivity|].
    destruct (find sep s) as [[a' b']|] eqn:Ef; [|discriminate].
    intros [= <- <-]. cbn [starts_in]. rewrite (IH a' b' eq_refl), orb_false_r.
    apply find_spec in Ef. cbn [app]. rewrite <- Ef. exact E.
Qed.

(** The first occurrence of [sep] stays the first one when the text behind
    it changes. *)
Lemma find_stable (sep s a b b' : text) :
  find sep s = Some (a, b) -> find sep (a ++ sep ++ b') = Some (a, b').
Proof.
  intros H. apply find_starts_in in H.
  rewrite (starts_in_indep sep a b b') in H.
  rewrite (find_skip _ _ _ H), find_here, app_nil_r. reflexivity.
Qed.

(** What the escaping rules do, with the place they do it at. *)
Lemma V1_fix_unescaped_cases (line : text) :
  V1.fix_unescaped line = line \/
  exists before part,
    find V1.open_content line = Some (before, part) /\
    V1.fix_unescaped line = before ++ V1.open_content ++ escape_backticks part.
Proof.
  unfold V1.fix_unescaped.
  destruct (contains V1.open_content line) eqn:Hc; [|left; reflexivity].
  destruct (negb (endswith [backtick] (strip line))); [|left; reflexivity].
  cbn [andb].
  destruct (contains [backtick] (after_first V1.open_content line)
            && negb (endswith [backtick] (after_first V1.open_content line)));
    [|left; reflexivity].
  right. destruct (find_contains _ _ Hc) as (a & b & Hf).
  unfold after_first, before_first. rewrite Hf.
  exists a, b. split; [reflexivity|]. rewrite <- app_assoc. reflexivity.
Qed.

Lemma V2_fix_unescaped_cases (line : text) :
  V2.fix_unescaped line = line \/
  exists before inner suffix,
    find V2.open_content line = Some (before, inner ++ suffix) /\
    (suffix = [backtick] \/ suffix = [backtick; comma]) /\
    V2.fix_unescaped line
    = before ++ V2.open_content ++ escape_backticks inner ++ suffix.
Proof.
  unfold V2.fix_unescaped.
  destruct (contains V2.open_content line && (2 <? count backtick line));
    [|left; reflexivity].
  destruct (find V2.open_content line) as [[before rest]|] eqn:Hf;
    [|left; reflexivity].
  destruct (endswith [backtick; comma] rest) eqn:E2.
  - rewrite orb_true_r. right.
    exists before, (drop_last 2 rest), [backtick; comma].
    split; [|split; [right; reflexivity|]].
    + do 2 f_equal. exact (endswith_spec _ _ E2).
    + rewrite <- app_assoc. reflexivity.
  - rewrite orb_false_r.
    destruct (endswith [backtick] rest) eqn:E1; [|left; reflexivity].
    right. exists before, (drop_last 1 rest), [backtick].
    split; [|split; [left; reflexivity|]].
    + do 2 f_equal. exact (endswith_spec _ _ E1).
    + rewrite <- app_assoc. reflexivity.
Qed.

Lemma endswith_app_r (p a : text) : endswith p (a ++ p) = true.
Proof.
  unfold endswith. rewrite rev_app_distr. apply startswith_app.
Qed.

(** The escaping rule of either script changes nothing the second time. *)
Lemma V1_fix_unescaped_idem (line : text) :
  V1.fix_unescaped (V1.fix_unescaped line) = V1.fix_unescaped line.
Proof.
  destruct (V1_fix_unescaped_cases line) as [H|(before & part & Hf & ->)];
    [rewrite H; exact H|].
  pose proof (find_stable _ _ _ _ (escape_backticks part) Hf) as Hf'.
  set (fixed := before ++ V1.open_content ++ escape_backticks part) in *.
  assert (Hc : contains V1.open_content fixed = true).
  { apply contains_iff. exists before, (escape_backticks part). reflexivity. }
  assert (Ha : after_first V1.open_content fixed = escape_backticks part).
  { unfold after_first. rewrite Hf'. reflexivity. }
  assert (Hb : before_first V1.open_content fixed = before).
  { unfold before_first. rewrite Hf'. reflexivity. }
  unfold V1.fix_unescaped. rewrite Hc, Ha, Hb. cbn [andb].
  destruct (negb (endswith [backtick] (strip fixed))); [|reflexivity].
  destruct (contains [backtick] (escape_backticks part)
            && negb (endswith [backtick] (escape_backticks part)));
    [|reflexivity].
  rewrite escape_backticks_idem, <- app_assoc. reflexivity.
Qed.

Lemma V2_fix_unescaped_idem (line : text) :
  V2.fix_unescaped (V2.fix_unescaped line) = V2.fix_unescaped line.
Proof.
  destruct (V2_fix_unescaped_cases line)
    as [H|(before & inner & suffix & Hf & Hs & ->)]; [rewrite H; exact H|].
  pose proof (find_stable _ _ _ _ (escape_backticks inner ++ suffix) Hf) as Hf'.
  unfold V2.fix_unescaped.
  match goal with |- (if ?b then _ else _) = _ => destruct b end;
    [|reflexivity].
  rewrite Hf'.
  destruct Hs as [-> | ->].
  - assert (E2 : endswith [backtick; comma] (escape_backticks inner ++ [backtick])
                 = false).
    { unfold endswith. rewrite rev_app_distr. reflexivity. }
    rewrite E2, endswith_app_r. cbn [orb].
    rewrite (drop_last_app (escape_backticks inner) [backtick]
              : drop_last 1 (escape_backticks inner ++ [backtick]) = _).
    rewrite escape_backticks_idem, <- app_assoc. reflexivity.
  - rewrite endswith_app_r, orb_true_r.
    rewrite (drop_last_app (escape_backticks inner) [backtick; comma]
              : drop_last 2 (escape_backticks inner ++ [backtick; comma]) = _).
    rewrite escape_backticks_idem, <- app_assoc. reflexivity.
Qed.

End EscapeTwice.

Section WrapTwice.
Import Py Re.

Lemma blank_unsnoc (ws ws' : text) (c : ascii) :
  blank ws = true -> unsnoc ws = Some (ws', c) ->
  blank ws' = true /\ isspace c = true.
Proof.
  intros Hb Hu. apply unsnoc_spec in Hu. subst ws.
  rewrite blank_app in Hb. apply andb_true_iff in Hb as [H1 H2].
  cbn in H2. rewrite andb_true_r in H2. split; assumption.
Qed.

Lemma wrap_match1_inv (line prefix g : text) :
  wrap_match1 line = Some (prefix, g) ->
  exists ws1 ws2, blank ws1 = true /\ blank ws2 = true /\
                  prefix = ws1 ++ str "content:" ++ ws2.
Proof.
  unfold wrap_match1.
  destruct (startswith (str "content:") (drop_while isspace line)); [|discriminate].
  set (r2 := skipn 8 (drop_while isspace line)).
  pose proof (take_while_all isspace line) as H1.
  pose proof (take_while_all isspace r2) as H2.
  destruct (drop_while isspace r2) as [|c v].
  - destruct (unsnoc (take_while isspace r2)) as [[ws2' c]|] eqn:Eu; [|discriminate].
    intros [= <- <-]. destruct (blank_unsnoc _ _ _ H2 Eu) as [H2' _].
    exists (take_while isspace line), ws2'. repeat split; assumption.
  - intros [= <- <-]. exists (take_while isspace line), (take_while isspace r2).
    repeat split; assumption.
Qed.

Lemma wrap_match2_inv (line prefix g : text) :
  wrap_match2 line = Some (prefix, g) ->
  exists ws1 ws2, blank ws1 = true /\ blank ws2 = true /\
                  prefix = ws1 ++ str "content:" ++ ws2.
Proof.
  unfold wrap_match2.
  destruct (startswith (str "content:") (drop_while isspace line)); [|discriminate].
  set (r2 := skipn 8 (drop_while isspace line)).
  pose proof (take_while_all isspace line) as H1.
  pose proof (take_while_all isspace r2) as H2.
  destruct (drop_while isspace r2) as [|c [|d v]].
  - destruct (unsnoc (take_while isspace r2)) as [[ws2' w]|] eqn:Eu; [|discriminate].
    destruct (unsnoc ws2') as [[ws2'' w']|] eqn:Eu'; [|discriminate].
    intros [= <- <-]. destruct (blank_unsnoc _ _ _ H2 Eu) as [H2' _].
    destruct (blank_unsnoc _ _ _ H2' Eu') as [H2'' _].
    exists (take_while isspace line), ws2''. repeat split; assumption.
  - destruct (unsnoc (take_while isspace r2)) as [[ws2' w]|] eqn:Eu; [|discriminate].
    intros [= <- <-]. destruct (blank_unsnoc _ _ _ H2 Eu) as [H2' _].
    exists (take_while isspace line), ws2'. repeat split; assumption.
  - destruct (is_quote c).
    + destruct (unsnoc (take_while isspace r2)) as [[ws2' w]|] eqn:Eu; [|discriminate].
      intros [= <- <-]. destruct (blank_unsnoc _ _ _ H2 Eu) as [H2' _].
      exists (take_while isspace line), ws2'. repeat split; assumption.
    + intros [= <- <-]. exists (take_while isspace line), (take_while isspace r2).
      repeat split; assumption.
Qed.

(** What the wrapping rules do. *)
Lemma V1_fix_missing_cases (line : text) :
  V1.fix_missing line = line \/
  exists ws1 ws2 lead text trail,
    blank ws1 = true /\ blank ws2 = true /\
    line = (ws1 ++ str "content:" ++ ws2) ++ lead ++ text ++ trail /\
    V1.fix_missing line
    = (ws1 ++ str "content:" ++ ws2) ++ backtick :: text ++ [backtick].
Proof.
  unfold V1.fix_missing.
  match goal with |- (if ?b then _ else _) = _ \/ _ => destruct b end;
    [|left; reflexivity].
  destruct (wrap_match1 line) as [[prefix g]|] eqn:Em; [|left; reflexivity].
  destruct (wrap_match1_inv _ _ _ Em) as (ws1 & ws2 & H1 & H2 & ->).
  apply wrap_match1_spec in Em.
  destruct (strip_spec g) as (lead & trail & Hg & _).
  match goal with |- (if ?b then _ else _) = _ \/ _ => destruct b end;
    [|left; reflexivity].
  right. exists ws1, ws2, lead, (strip g), trail.
  rewrite <- Hg. repeat split; assumption.
Qed.

Lemma V2_fix_missing_cases (line : text) :
  V2.fix_missing line = line \/
  exists ws1 ws2 lead text trail,
    blank ws1 = true /\ blank ws2 = true /\
    line = (ws1 ++ str "content:" ++ ws2) ++ lead ++ text ++ trail /\
    V2.fix_missing line
    = (ws1 ++ str "content:" ++ ws2) ++ backtick :: text ++ [backtick].
Proof.
  unfold V2.fix_missing.
  destruct (wrap_match2 line) as [[prefix g]|] eqn:Em; [|left; reflexivity].
  destruct (wrap_match2_inv _ _ _ Em) as (ws1 & ws2 & H1 & H2 & ->).
  apply wrap_match2_spec in Em.
  destruct (strip_spec g) as (lead & trail & Hg & _).
  match goal with |- (if ?b then _ else _) = _ \/ _ => destruct b end;
    [|left; reflexivity].
  right. exists ws1, ws2, lead, (strip g), trail.
  rewrite <- Hg. repeat split; assumption.
Qed.

Lemma drop_while_snoc (p : ascii -> bool) (x : text) (c : ascii) :
  p c = false -> exists y, drop_while p (x ++ [c]) = y ++ [c].
Proof.
  intros Hc. induction x as [|d x IH].
  - exists []. cbn. rewrite Hc. reflexivity.
  - cbn [app drop_while]. destruct (p d); [exact IH|].
    exists (d :: x). reflexivity.
Qed.

(** A line that ends with a character that is no white space still ends
    with it when stripped. *)
Lemma strip_snoc (x : text) (c : ascii) :
  isspace c = false -> endswith [c] (strip (x ++ [c])) = true.
Proof.
  intros Hc. unfold strip, lstrip, rstrip.
  destruct (drop_while_snoc isspace x c Hc) as [y ->].
  rewrite rev_app_distr. cbn [rev app drop_while]. rewrite Hc.
  change (rev (c :: rev y)) with (rev (rev y) ++ [c]).
  apply endswith_app_r.
Qed.

(** A content line whose value is in backticks, as the wrapping rules leave
    it: [ws1 content: ws2 `t`]. *)
Lemma delimited_trimmed (t : text) : trimmed (backtick :: t ++ [backtick]) = true.
Proof.
  unfold trimmed, last_is. cbn [rev]. rewrite rev_app_distr. reflexivity.
Qed.

Lemma V1_fix_unescaped_delimited (p t : text) :
  V1.fix_unescaped (p ++ backtick :: t ++ [backtick])
  = p ++ backtick :: t ++ [backtick].
Proof.
  unfold V1.fix_unescaped.
  replace (p ++ backtick :: t ++ [backtick])
    with ((p ++ backtick :: t) ++ [backtick])
    by (rewrite <- app_assoc; reflexivity).
  rewrite (strip_snoc _ backtick eq_refl). cbn [negb]. rewrite andb_false_r.
  reflexivity.
Qed.

Lemma V1_fix_missing_delimited (ws1 ws2 t : text) :
  blank ws1 = true -> blank ws2 = true ->
  V1.fix_missing ((ws1 ++ str "content:" ++ ws2) ++ backtick :: t ++ [backtick])
  = (ws1 ++ str "content:" ++ ws2) ++ backtick :: t ++ [backtick].
Proof.
  intros H1 H2. unfold V1.fix_missing.
  match goal with |- (if ?b then _ else _) = _ => destruct b end;
    [|reflexivity].
  pose proof (wrap_match1_shape ws1 ws2 (backtick :: t ++ [backtick]) []
                H1 H2 (delimited_trimmed t)) as Hm.
  rewrite app_nil_r in Hm. rewrite <- !app_assoc. rewrite Hm.
  assert (Hs : strip (backtick :: t ++ [backtick]) = backtick :: t ++ [backtick]).
  { rewrite <- (app_nil_r (backtick :: t ++ [backtick])) at 1.
    exact (strip_shape [] _ [] eq_refl (delimited_trimmed t) eq_refl). }
  rewrite Hs. cbn [startswith]. rewrite Ascii.eqb_refl. cbn [negb andb].
  rewrite andb_false_r. reflexivity.
Qed.

Lemma wrap_match2_quoted (ws1 ws2 : text) (c d : ascii) (v : text) :
  blank ws1 = true -> blank ws2 = true ->
  is_quote c = true -> isspace c = false ->
  wrap_match2 (ws1 ++ str "content:" ++ ws2 ++ c :: d :: v)
  = match unsnoc ws2 with
    | Some (ws2', w) => Some (ws1 ++ str "content:" ++ ws2', w :: c :: d :: v)
    | None => None
    end.
Proof.
  intros H1 H2 Hq Hc. unfold wrap_match2.
  destruct (take_while_app isspace ws1 (str "content:" ++ ws2 ++ c :: d :: v) H1)
    as [-> ->]; [right; reflexivity|].
  rewrite startswith_app.
  change (skipn 8 (str "content:" ++ ws2 ++ c :: d :: v))
    with (ws2 ++ c :: d :: v).
  destruct (take_while_app isspace ws2 (c :: d :: v) H2) as [-> ->].
  { right. cbn. rewrite Hc. reflexivity. }
  rewrite Hq. reflexivity.
Qed.

Lemma V2_fix_missing_delimited (ws1 ws2 t : text) :
  blank ws1 = true -> blank ws2 = true ->
  V2.fix_missing ((ws1 ++ str "content:" ++ ws2) ++ backtick :: t ++ [backtick])
  = (ws1 ++ str "content:" ++ ws2) ++ backtick :: t ++ [backtick].
Proof.
  intros H1 H2.
  assert (Hv : exists d v, backtick :: t ++ [backtick] = backtick :: d :: v).
  { destruct t as [|d t]; [exists backtick, []|exists d, (t ++ [backtick])];
      reflexivity. }
  destruct Hv as (d & v & Hv).
  assert (Hm : wrap_match2
                 ((ws1 ++ str "content:" ++ ws2) ++ backtick :: t ++ [backtick])
               = match unsnoc ws2 with
                 | Some (ws2', w) =>
                     Some (ws1 ++ str "content:" ++ ws2',
                           w :: backtick :: t ++ [backtick])
                 | None => None
                 end).
  { rewrite Hv, <- !app_assoc.
    apply wrap_match2_quoted; [assumption|assumption|reflexivity|reflexivity]. }
  unfold V2.fix_missing. rewrite Hm.
  destruct (unsnoc ws2) as [[ws2' w]|] eqn:Eu; [|reflexivity].
  destruct (blank_unsnoc _ _ _ H2 Eu) as [_ Hw].
  assert (Hs : strip (w :: backtick :: t ++ [backtick]) = backtick :: t ++ [backtick]).
  { change (w :: backtick :: t ++ [backtick])
      with ([w] ++ (backtick :: t ++ [backtick])).
    rewrite <- (app_nil_r (backtick :: t ++ [backtick])) at 1.
    apply strip_shape; [cbn; rewrite Hw; reflexivity|apply delimited_trimmed|reflexivity]. }
  rewrite Hs.
  assert (He : endswith [backtick] (backtick :: t ++ [backtick]) = true)
    by apply (endswith_app_r [backtick] (backtick :: t)).
  rewrite He. cbn [negb]. rewrite andb_false_r. reflexivity.
Qed.

End WrapTwice.

Section SettledLines.
Import Py Re.

Lemma settled_spec (s : text) :
  settled s = true <->
  contains (str "description:") s = false /\
  contains V1.tok_input s = false /\ contains V1.tok_output s = false.
Proof.
  unfold settled. rewrite !andb_true_iff, !negb_true_iff. tauto.
Qed.

Lemma settled_fixed (s : text) :
  settled s = true ->
  V1.fix_role s = s /\ V1.fix_description s = s /\
  V2.fix_role s = s /\ V2.fix_description s = s.
Proof.
  intros H. apply settled_spec in H as (Hd & Hi & Ho).
  split; [|split; [|split]].
  - unfold V1.fix_role. rewrite Hi, Ho. reflexivity.
  - apply V1_fix_description_absent, Hd.
  - apply V2_role_sub_absent; assumption.
  - apply V2_fix_description_absent, Hd.
Qed.

Lemma contains_char_app (c : ascii) (a b : text) :
  contains [c] (a ++ b) = contains [c] a || contains [c] b.
Proof.
  induction a as [|x a IH]; [reflexivity|].
  cbn [app contains startswith]. rewrite IH, orb_assoc. reflexivity.
Qed.

Lemma contains_apart_end (p a y : text) :
  forallb (fun k => negb (startswith (skipn k p) y)) (seq 1 (length p - 1))
  = true ->
  contains p (a ++ y) = contains p a || contains p y.
Proof.
  intros Hall. destruct (contains p (a ++ y)) eqn:E.
  - apply contains_app_cases in E as [E|[E|(k & Hk & _ & E)]].
    + rewrite E. reflexivity.
    + rewrite E. symmetry. apply orb_true_r.
    + rewrite forallb_forall in Hall.
      assert (Hin : In k (seq 1 (length p - 1))) by (apply in_seq; lia).
      apply Hall in Hin. rewrite E in Hin. discriminate.
  - apply contains_app_false in E as [-> ->]. reflexivity.
Qed.

Lemma no_char_in_prefix (c : ascii) (ws1 ws2 : text) :
  blank ws1 = true -> blank ws2 = true ->
  isspace c = false -> contains [c] (str "content:") = false ->
  contains [c] (ws1 ++ str "content:" ++ ws2) = false.
Proof.
  intros H1 H2 Hc Hk. rewrite !contains_char_app, Hk.
  rewrite (contains_blank [c] ws1 H1), (contains_blank [c] ws2 H2);
    [reflexivity| |]; cbn; unfold solid; rewrite Hc; reflexivity.
Qed.

(** A wrapped role needs a quote before its first backtick, which the text
    before a wrapped value has not got. *)
Lemma token_absent_delimited (tok p lead t trail : text) :
  tok = V1.tok_input \/ tok = V1.tok_output ->
  contains [squote] p = false ->
  contains tok (p ++ lead ++ t ++ trail) = false ->
  contains tok (p ++ backtick :: t ++ [backtick]) = false.
Proof.
  intros Htok Hq Hs.
  apply contains_app_false in Hs as [Hp Hs].
  apply contains_app_false in Hs as [_ Hs].
  apply contains_app_false in Hs as [Ht _].
  change (p ++ backtick :: t ++ [backtick])
    with (p ++ [backtick] ++ t ++ [backtick]).
  rewrite (contains_apart_mixed tok p [backtick] (t ++ [backtick]) squote Hq)
    by (destruct Htok; subst tok; reflexivity).
  rewrite Hp. cbn [orb app].
  rewrite contains_cons_other by (destruct Htok; subst tok; reflexivity).
  rewrite contains_apart_end by (destruct Htok; subst tok; reflexivity).
  rewrite Ht. destruct Htok; subst tok; reflexivity.
Qed.

Lemma settled_delimited (ws1 ws2 lead t trail : text) :
  blank ws1 = true -> blank ws2 = true ->
  settled ((ws1 ++ str "content:" ++ ws2) ++ lead ++ t ++ trail) = true ->
  settled ((ws1 ++ str "content:" ++ ws2) ++ backtick :: t ++ [backtick]) = true.
Proof.
  intros H1 H2 Hs. apply settled_spec in Hs as (Hd & Hi & Ho).
  assert (Hq : contains [squote] (ws1 ++ str "content:" ++ ws2) = false)
    by (apply no_char_in_prefix; try assumption; reflexivity).
  apply settled_spec. split; [|split].
  - apply contains_app_false in Hd as [Hp Hd].
    apply contains_app_false in Hd as [_ Hd].
    apply contains_app_false in Hd as [Ht _].
    rewrite contains_sep by (reflexivity || discriminate).
    rewrite Hp. cbn [orb].
    rewrite contains_sep by (reflexivity || discriminate).
    rewrite Ht. reflexivity.
  - apply (token_absent_delimited _ _ lead t trail); [left; reflexivity| |]; assumption.
  - apply (token_absent_delimited _ _ lead t trail); [right; reflexivity| |]; assumption.
Qed.

Lemma token_absent_escaped (tok s : text) :
  tok = V1.tok_input \/ tok = V1.tok_output ->
  contains tok (escape_from false s) = false.
Proof.
  intros Htok. apply (contains_absent [squote; backtick]).
  - destruct Htok; subst tok; reflexivity.
  - apply (all_escaped_no_quote_tick false), escape_all_escaped.
Qed.

(** The escaping rules keep a settled line settled. *)
Lemma settled_escaped (before inner suffix : text) :
  suffix = [] \/ suffix = [backtick] \/ suffix = [backtick; comma] ->
  settled (before ++ V1.open_content ++ inner ++ suffix) = true ->
  settled (before ++ V1.open_content ++ escape_backticks inner ++ suffix) = true.
Proof.
  intros Hsuf Hs. apply settled_spec in Hs as (Hd & Hi & Ho).
  assert (Htok : forall tok, tok = V1.tok_input \/ tok = V1.tok_output ->
            contains tok (before ++ V1.open_content ++ inner ++ suffix) = false ->
            contains tok (before ++ V1.open_content
                            ++ escape_backticks inner ++ suffix) = false).
  { intros tok Htok H. rewrite app_assoc in H |- *.
    apply contains_app_false in H as [Hb _].
    rewrite contains_apart_l by (destruct Htok; subst tok; reflexivity).
    rewrite Hb. cbn [orb].
    rewrite contains_apart_end
      by (destruct Htok, Hsuf as [->|[->| ->]]; subst tok; reflexivity).
    unfold escape_backticks. rewrite (token_absent_escaped tok inner Htok).
    destruct Htok, Hsuf as [->|[->| ->]]; subst tok; reflexivity. }
  apply settled_spec. split; [|split].
  - rewrite app_assoc in Hd |- *. unfold escape_backticks.
    rewrite contains_escape_ctx by (reflexivity || discriminate). exact Hd.
  - apply Htok; [left; reflexivity|exact Hi].
  - apply Htok; [right; reflexivity|exact Ho].
Qed.

Lemma V1_fix_unescaped_settled (s : text) :
  settled s = true -> settled (V1.fix_unescaped s) = true.
Proof.
  intros H.
  destruct (V1_fix_unescaped_cases s) as [->|(before & part & Hf & ->)];
    [exact H|].
  apply find_spec in Hf. subst s.
  rewrite <- (app_nil_r (escape_backticks part)).
  apply settled_escaped; [left; reflexivity|]. rewrite app_nil_r. exact H.
Qed.

Lemma V2_fix_unescaped_settled (s : text) :
  settled s = true -> settled (V2.fix_unescaped s) = true.
Proof.
  intros H.
  destruct (V2_fix_unescaped_cases s)
    as [->|(before & inner & suffix & Hf & Hsuf & ->)]; [exact H|].
  apply find_spec in Hf. subst s.
  apply settled_escaped; [right; exact Hsuf|exact H].
Qed.

Lemma V1_fix_missing_settled (s : text) :
  settled s = true -> settled (V1.fix_missing s) = true.
Proof.
  intros H.
  destruct (V1_fix_missing_cases s)
    as [->|(ws1 & ws2 & lead & t & trail & H1 & H2 & Hs & ->)]; [exact H|].
  subst s. apply (settled_delimited ws1 ws2 lead t trail); assumption.
Qed.

Lemma V2_fix_missing_settled (s : text) :
  settled s = true -> settled (V2.fix_missing s) = true.
Proof.
  intros H.
  destruct (V2_fix_missing_cases s)
    as [->|(ws1 & ws2 & lead & t & trail & H1 & H2 & Hs & ->)]; [exact H|].
  subst s. apply (settled_delimited ws1 ws2 lead t trail); assumption.
Qed.

End SettledLines.

Section ContentTwice.
Import Py Re.

Lemma V1_fix_missing_open (x : text) :
  contains V1.open_content x = true -> V1.fix_missing x = x.
Proof.
  intros H. unfold V1.fix_missing. rewrite H. cbn [negb].
  rewrite andb_false_r. reflexivity.
Qed.

Lemma V1_fix_unescaped_closed (x : text) :
  contains V1.open_content x = false -> V1.fix_unescaped x = x.
Proof. intros H. unfold V1.fix_unescaped. rewrite H. reflexivity. Qed.

Lemma V1_fix_unescaped_keeps_open (s : text) :
  contains V1.open_content s = true ->
  contains V1.open_content (V1.fix_unescaped s) = true.
Proof.
  intros H.
  destruct (V1_fix_unescaped_cases s) as [->|(before & part & _ & ->)];
    [exact H|].
  apply contains_iff. exists before, (escape_backticks part). reflexivity.
Qed.

(** The two content rules of [fix_backticks.py], run a second time, change
    nothing. *)
Lemma V1_content_idem (s : text) :
  V1.fix_missing (V1.fix_unescaped (V1.fix_missing (V1.fix_unescaped s)))
  = V1.fix_missing (V1.fix_unescaped s).
Proof.
  destruct (contains V1.open_content s) eqn:Hc.
  - pose proof (V1_fix_unescaped_keeps_open s Hc) as Hu.
    rewrite (V1_fix_missing_open _ Hu), V1_fix_unescaped_idem.
    apply (V1_fix_missing_open _ Hu).
  - rewrite (V1_fix_unescaped_closed s Hc).
    destruct (V1_fix_missing_cases s)
      as [Hm|(ws1 & ws2 & lead & t & trail & H1 & H2 & _ & Hm)].
    + rewrite Hm, (V1_fix_unescaped_closed s Hc). exact Hm.
    + rewrite Hm, V1_fix_unescaped_delimited.
      apply V1_fix_missing_delimited; assumption.
Qed.

Lemma V2_fix_unescaped_plain (p s : text) :
  p <> [] -> plain p = true ->
  contains p (V2.fix_unescaped s) = contains p s.
Proof.
  intros Hne Hp.
  destruct (V2_fix_unescaped_cases s)
    as [->|(before & inner & suffix & Hf & _ & ->)]; [reflexivity|].
  apply find_spec in Hf. subst s. rewrite !(app_assoc before).
  unfold escape_backticks. apply contains_escape_ctx; assumption.
Qed.

Lemma V2_fix_missing_keeps_content (s : text) :
  contains (str "content:") s = true ->
  contains (str "content:") (V2.fix_missing s) = true.
Proof.
  intros H.
  destruct (V2_fix_missing_cases s)
    as [->|(ws1 & ws2 & lead & t & trail & _ & _ & _ & ->)]; [exact H|].
  apply contains_app_l, contains_app_r, contains_app_l. reflexivity.
Qed.

(** Where a text that starts with [p] and a character [c] that [p] has not
    got is cut before a [c], the cut is at that first [c] or behind it. *)
Lemma split_at_first (c : ascii) (p r b r' : text) :
  p ++ c :: r = b ++ c :: r' -> contains [c] p = false ->
  (b = p /\ r = r') \/ exists t1, b = p ++ c :: t1 /\ r = t1 ++ c :: r'.
Proof.
  revert b. induction p as [|x p IH]; intros b H Hp.
  - destruct b as [|y b]; cbn [app] in H.
    + left. injection H as ->. split; reflexivity.
    + right. injection H as <- ->. exists b. split; reflexivity.
  - apply contains_cons_false in Hp as [Hx Hp].
    destruct b as [|y b]; cbn [app] in H.
    + injection H as -> _. cbn in Hx. rewrite Ascii.eqb_refl in Hx. discriminate.
    + injection H as <- H. destruct (IH b H Hp) as [[-> ->]|(t1 & -> & ->)].
      * left. split; reflexivity.
      * right. exists t1. split; reflexivity.
Qed.

(** The escaping rule of [fix_backticks2.py] leaves a delimited content
    line delimited. *)
Lemma V2_fix_unescaped_delimited (p t : text) :
  contains [backtick] p = false ->
  exists t', V2.fix_unescaped (p ++ backtick :: t ++ [backtick])
             = p ++ backtick :: t' ++ [backtick].
Proof.
  intros Hp.
  destruct (V2_fix_unescaped_cases (p ++ backtick :: t ++ [backtick]))
    as [->|(before & inner & suffix & Hf & Hsuf & ->)]; [exists t; reflexivity|].
  apply find_spec in Hf.
  destruct Hsuf as [-> | ->].
  - change (before ++ V2.open_content ++ inner ++ [backtick])
      with (before ++ str "content: " ++ backtick :: inner ++ [backtick]) in Hf.
    rewrite app_assoc in Hf.
    destruct (split_at_first _ _ _ _ _ Hf Hp) as [[Hb _]|(t1 & Hb & _)].
    + exists (escape_backticks inner).
      change (before ++ V2.open_content ++ escape_backticks inner ++ [backtick])
        with (before ++ str "content: "
                ++ backtick :: escape_backticks inner ++ [backtick]).
      rewrite app_assoc, Hb. reflexivity.
    + exists (t1 ++ backtick :: escape_backticks inner).
      change (before ++ V2.open_content ++ escape_backticks inner ++ [backtick])
        with (before ++ str "content: "
                ++ backtick :: escape_backticks inner ++ [backtick]).
      rewrite app_assoc, Hb, <- !app_assoc. reflexivity.
  - exfalso.
    assert (H : (p ++ backtick :: t) ++ [backtick]
                = (before ++ V2.open_content ++ inner ++ [backtick]) ++ [comma]).
    { rewrite <- !app_assoc. exact Hf. }
    apply app_inj_tail in H as [_ H]. discriminate H.
Qed.

End ContentTwice.

Section WrapAfterEscape.
Import Py Re.

Lemma V2_fix_missing_idle (x : text) :
  wraps2 x = false -> V2.fix_missing x = x.
Proof.
  unfold wraps2, V2.fix_missing.
  destruct (wrap_match2 x) as [[prefix g]|]; [|reflexivity].
  intros ->. reflexivity.
Qed.

Lemma V2_fix_missing_wraps (x : text) :
  V2.fix_missing x = x -> wraps2 x = false.
Proof.
  unfold wraps2, V2.fix_missing.
  destruct (wrap_match2 x) as [[prefix g]|] eqn:Em; [|reflexivity].
  destruct (negb (length (strip g) =? 0) && negb (endswith [backtick] (strip g)));
    [|reflexivity].
  intros H. exfalso. apply wrap_match2_spec in Em.
  pose proof (eq_trans H Em) as H'. clear H. rename H' into H.
  apply app_inv_head in H.
  assert (Hs : strip g = backtick :: strip g ++ [backtick]).
  { rewrite <- H at 1. rewrite <- (app_nil_r (backtick :: strip g ++ [backtick])) at 1.
    exact (strip_shape [] _ [] eq_refl (delimited_trimmed (strip g)) eq_refl). }
  apply (f_equal (@length ascii)) in Hs. cbn [length] in Hs.
  rewrite length_app in Hs. cbn [length] in Hs. lia.
Qed.

(** Scanning a run stops at the first character that is not of the run,
    whatever follows. *)
Lemma take_drop_local (p : ascii -> bool) (y r : text) :
  existsb (fun c => negb (p c)) y = true ->
  take_while p (y ++ r) = take_while p y /\
  drop_while p (y ++ r) = drop_while p y ++ r.
Proof.
  induction y as [|c y IH]; [discriminate|]. cbn [existsb app take_while drop_while].
  destruct (p c); cbn [negb orb]; intros H; [|split; reflexivity].
  destruct (IH H) as [-> ->]. split; reflexivity.
Qed.

Lemma drop_while_app_suffix (p : ascii -> bool) (a b : text) :
  first_is (fun c => negb (p c)) b = true ->
  exists d0, drop_while p (a ++ b) = d0 ++ b.
Proof.
  intros Hb. induction a as [|c a IH].
  - exists []. destruct b as [|x b]; [discriminate|]. cbn in *.
    destruct (p x); [discriminate|reflexivity].
  - cbn [app drop_while]. destruct (p c); [exact IH|].
    exists (c :: a). reflexivity.
Qed.

Lemma skipn_app_le (n : nat) (l r : text) :
  n <= length l -> skipn n (l ++ r) = skipn n l ++ r.
Proof.
  intros H. rewrite skipn_app.
  replace (n - length l) with 0 by lia. reflexivity.
Qed.

Lemma existsb_snoc_solid (e0 : text) :
  existsb (fun c => negb (isspace c)) (e0 ++ [backtick]) = true.
Proof. rewrite existsb_app. cbn. apply orb_true_r. Qed.

Lemma endswith_snoc (a : ascii) (z : text) (c : ascii) :
  endswith [a] (z ++ [c]) = Ascii.eqb a c.
Proof.
  unfold endswith. rewrite rev_app_distr. cbn. apply andb_true_r.
Qed.

(** The matcher of the wrapping rule on a line that holds [content: `]:
    what it finds is settled before the text behind that backtick. *)
Lemma wrap_match2_tail (before r : text) :
  r <> [] ->
  wrap_match2 (before ++ V2.open_content ++ r)
  = let y := before ++ V2.open_content in
    let d := drop_while isspace y in
    if startswith (str "content:") d then
      let e := skipn 8 d in
      let f := drop_while isspace e in
      if first_is is_quote f then
        match unsnoc (take_while isspace e) with
        | Some (ws2', w) =>
            Some (take_while isspace y ++ str "content:" ++ ws2', w :: f ++ r)
        | None => None
        end
      else Some (take_while isspace y ++ str "content:" ++ take_while isspace e,
                 f ++ r)
    else None.
Proof.
  intros Hr. cbv zeta. unfold wrap_match2. rewrite app_assoc.
  set (y := before ++ V2.open_content).
  assert (Hy : existsb (fun c => negb (isspace c)) y = true).
  { unfold y. rewrite existsb_app. apply orb_true_iff. right. reflexivity. }
  destruct (take_drop_local isspace y r Hy) as [-> ->].
  destruct (drop_while_app_suffix isspace before V2.open_content eq_refl)
    as [d0 Hd]. fold y in Hd.
  set (d := drop_while isspace y) in *.
  assert (Hlen : 10 <= length d).
  { rewrite Hd, length_app. cbn. lia. }
  rewrite startswith_indep by (cbn; lia).
  destruct (startswith (str "content:") d); [|reflexivity].
  rewrite skipn_app_le by lia.
  assert (He : exists e0, skipn 8 d = e0 ++ [backtick]).
  { exists (skipn 8 (d0 ++ str "content: ")). rewrite Hd.
    change V2.open_content with (str "content: " ++ [backtick]).
    rewrite app_assoc. apply skipn_app_le. rewrite length_app. cbn. lia. }
  destruct He as [e0 He]. set (e := skipn 8 d) in *.
  assert (Hex : existsb (fun c => negb (isspace c)) e = true)
    by (rewrite He; apply existsb_snoc_solid).
  destruct (take_drop_local isspace e r Hex) as [-> ->].
  destruct (drop_while_snoc isspace e0 backtick eq_refl) as [f0 Hf].
  rewrite <- He in Hf. set (f := drop_while isspace e) in *.
  destruct f as [|c0 f']; [destruct f0; discriminate|].
  cbn [first_is app].
  destruct (f' ++ r) as [|d1 v'] eqn:Ev.
  { apply app_eq_nil in Ev as [_ Ev]. contradiction. }
  reflexivity.
Qed.

Lemma wraps2_value (before x : text) (c : ascii) :
  isspace c = false ->
  wraps2 (before ++ V2.open_content ++ x ++ [c])
  = let d := drop_while isspace (before ++ V2.open_content) in
    if startswith (str "content:") d then
      let e := skipn 8 d in
      (if first_is is_quote (drop_while isspace e)
       then match unsnoc (take_while isspace e) with
            | Some _ => true
            | None => false
            end
       else true)
      && negb (Ascii.eqb backtick c)
    else false.
Proof.
  intros Hc. cbv zeta. unfold wraps2.
  rewrite wrap_match2_tail by (destruct x; discriminate). cbv zeta.
  destruct (startswith (str "content:")
              (drop_while isspace (before ++ V2.open_content))); [|reflexivity].
  set (e := skipn 8 (drop_while isspace (before ++ V2.open_content))).
  set (f := drop_while isspace e).
  assert (Hf : f = [] \/ first_is solid f = true) by apply drop_while_head.
  assert (Htrim : forall lead, blank lead = true -> f <> [] ->
            strip (lead ++ f ++ x ++ [c]) = f ++ x ++ [c]).
  { intros lead Hl Hne.
    rewrite <- (app_nil_r (f ++ x ++ [c])) at 1.
    apply strip_shape; [exact Hl| |reflexivity].
    unfold trimmed. apply andb_true_iff. split.
    - apply first_is_app. destruct Hf as [Hf|Hf]; [contradiction|exact Hf].
    - rewrite !app_assoc. unfold last_is. rewrite rev_app_distr. cbn.
      unfold solid. rewrite Hc. reflexivity. }
  assert (Hend : endswith [backtick] (f ++ x ++ [c]) = Ascii.eqb backtick c).
  { rewrite app_assoc. apply endswith_snoc. }
  assert (Hlen : f <> [] -> (length (f ++ x ++ [c]) =? 0) = false).
  { intros Hne. destruct f; [contradiction|reflexivity]. }
  destruct (first_is is_quote f) eqn:Eq.
  - assert (Hne : f <> []) by (destruct f; [discriminate|discriminate]).
    destruct (unsnoc (take_while isspace e)) as [[ws2' w]|] eqn:Eu; [|reflexivity].
    destruct (blank_unsnoc _ _ _ (take_while_all isspace e) Eu) as [_ Hw].
    change (w :: f ++ x ++ [c]) with ([w] ++ f ++ x ++ [c]).
    rewrite (Htrim [w]) by (assumption || (cbn; rewrite Hw; reflexivity)).
    rewrite Hend, (Hlen Hne). reflexivity.
  - destruct f as [|c0 f'] eqn:Ef.
    + (* [f] is never empty: the text behind the colon ends with a backtick *)
      exfalso.
      destruct (drop_while_app_suffix isspace before V2.open_content eq_refl)
        as [d0 Hd].
      assert (He : e = skipn 8 (d0 ++ str "content: ") ++ [backtick]).
      { unfold e. rewrite Hd.
        change V2.open_content with (str "content: " ++ [backtick]).
        rewrite app_assoc. apply skipn_app_le. rewrite length_app. cbn. lia. }
      destruct (drop_while_snoc isspace (skipn 8 (d0 ++ str "content: "))
                  backtick eq_refl) as [f0 Hf0].
      rewrite <- He in Hf0. fold f in Hf0. rewrite Ef in Hf0.
      destruct f0; discriminate.
    + pose proof (Htrim [] eq_refl ltac:(discriminate)) as Ht.
      cbn [app] in Ht, Hend, Hlen |- *.
      rewrite Ht, Hend, (Hlen ltac:(discriminate)). reflexivity.
Qed.

(** Whether the wrapping rule rewrites a line that holds [content: `] and
    ends with [c] does not depend on what stands between them. *)
Lemma wraps2_local (before x x' : text) (c : ascii) :
  isspace c = false ->
  wraps2 (before ++ V2.open_content ++ x ++ [c])
  = wraps2 (before ++ V2.open_content ++ x' ++ [c]).
Proof.
  intros Hc. rewrite !wraps2_value by exact Hc. reflexivity.
Qed.

Lemma V2_fix_missing_after_escape (s : text) :
  V2.fix_missing s = s ->
  V2.fix_missing (V2.fix_unescaped s) = V2.fix_unescaped s.
Proof.
  intros Hm.
  destruct (V2_fix_unescaped_cases s)
    as [->|(before & inner & suffix & Hf & Hsuf & ->)]; [exact Hm|].
  apply find_spec in Hf. apply V2_fix_missing_wraps in Hm.
  apply V2_fix_missing_idle. rewrite <- Hm, Hf.
  destruct Hsuf as [-> | ->].
  - apply wraps2_local. reflexivity.
  - change [backtick; comma] with ([backtick] ++ [comma]).
    rewrite !(app_assoc _ [backtick] [comma]).
    apply wraps2_local. reflexivity.
Qed.

(** The content rules of [fix_backticks2.py], run a second time, change
    nothing. *)
Lemma V2_content_idem (s : text) :
  V2.fix_content (V2.fix_content s) = V2.fix_content s.
Proof.
  unfold V2.fix_content at 2 3.
  destruct (contains (str "content:") s) eqn:Hc;
    [|unfold V2.fix_content; rewrite Hc; reflexivity].
  assert (Hc' : contains (str "content:") (V2.fix_unescaped (V2.fix_missing s))
                = true).
  { rewrite V2_fix_unescaped_plain by (reflexivity || discriminate).
    apply V2_fix_missing_keeps_content, Hc. }
  unfold V2.fix_content. rewrite Hc'.
  assert (Hm : V2.fix_missing (V2.fix_unescaped (V2.fix_missing s))
               = V2.fix_unescaped (V2.fix_missing s)).
  { destruct (V2_fix_missing_cases s)
      as [Hm|(ws1 & ws2 & lead & t & trail & H1 & H2 & _ & Hm)].
    - rewrite Hm. apply V2_fix_missing_after_escape, Hm.
    - rewrite Hm.
      destruct (V2_fix_unescaped_delimited (ws1 ++ str "content:" ++ ws2) t)
        as [t' ->].
      + apply no_char_in_prefix; try assumption; reflexivity.
      + apply V2_fix_missing_delimited; assumption. }
  rewrite Hm. apply V2_fix_unescaped_idem.
Qed.

End WrapAfterEscape.

Section Idempotence.
Import Py Re.

Lemma V1_fix_role_settled (line : text) :
  contains (str "description:") line = false ->
  settled (V1.fix_role line) = true.
Proof.
  intros H. destruct (V1_fix_role_clean line) as (Hi & Ho & Hd).
  apply settled_spec. auto.
Qed.

Lemma V2_fix_role_settled (line : text) :
  contains (str "description:") line = false ->
  settled (V2.fix_role line) = true.
Proof.
  intros H. destruct (V2_fix_role_clean line) as (Hi & Ho & Hd).
  apply settled_spec. auto.
Qed.

Lemma V2_fix_content_settled (s : text) :
  settled s = true -> settled (V2.fix_content s) = true.
Proof.
  intros H. unfold V2.fix_content.
  destruct (contains (str "content:") s); [|exact H].
  apply V2_fix_unescaped_settled, V2_fix_missing_settled, H.
Qed.

(** On a line without [description:] a second pass of either loop body
    changes nothing. *)
Lemma fix_line_idem (line : text) :
  contains (str "description:") line = false ->
  V1.fix_line (V1.fix_line line) = V1.fix_line line /\
  V2.fix_line (V2.fix_line line) = V2.fix_line line.
Proof.
  intros Hd. split.
  - pose proof (V1_fix_role_settled line Hd) as Hs.
    destruct (settled_fixed _ Hs) as (_ & Hd1 & _ & _).
    assert (E : V1.fix_line line
                = V1.fix_missing (V1.fix_unescaped (V1.fix_role line))).
    { unfold V1.fix_line. rewrite Hd1. reflexivity. }
    rewrite E.
    pose proof (V1_fix_missing_settled _ (V1_fix_unescaped_settled _ Hs)) as Hs'.
    destruct (settled_fixed _ Hs') as (Hr2 & Hd2 & _ & _).
    unfold V1.fix_line at 1. rewrite Hr2, Hd2. apply V1_content_idem.
  - pose proof (V2_fix_role_settled line Hd) as Hs.
    destruct (settled_fixed _ Hs) as (_ & _ & _ & Hd1).
    assert (E : V2.fix_line line = V2.fix_content (V2.fix_role line)).
    { unfold V2.fix_line. rewrite Hd1. reflexivity. }
    rewrite E.
    pose proof (V2_fix_content_settled _ Hs) as Hs'.
    destruct (settled_fixed _ Hs') as (_ & _ & Hr2 & Hd2).
    unfold V2.fix_line at 1. rewrite Hr2, Hd2. apply V2_content_idem.
Qed.

End Idempotence.

Section Documents.
Import Py Re.

Lemma split_lines_one (l : text) :
  contains [newline] l = false -> split_lines l = [l].
Proof.
  induction l as [|c l IH]; [reflexivity|]. intros H.
  apply contains_cons_false in H as [H1 H2].
  cbn [startswith] in H1. rewrite andb_true_r, Ascii.eqb_sym in H1.
  cbn [split_lines]. rewrite H1, (IH H2). reflexivity.
Qed.

Lemma split_lines_app (l x : text) :
  contains [newline] l = false ->
  split_lines (l ++ newline :: x) = l :: split_lines x.
Proof.
  induction l as [|c l IH]; intros H.
  - cbn [app split_lines]. rewrite Ascii.eqb_refl. reflexivity.
  - apply contains_cons_false in H as [H1 H2].
    cbn [startswith] in H1. rewrite andb_true_r, Ascii.eqb_sym in H1.
    cbn [app split_lines]. rewrite H1, (IH H2). reflexivity.
Qed.

Lemma split_join_lines (ls : list text) :
  ls <> [] -> Forall (fun l => contains [newline] l = false) ls ->
  split_lines (join_lines ls) = ls.
Proof.
  induction ls as [|l ls IH]; [congruence|]. intros _ H.
  apply Forall_cons_iff in H as [Hl Hls].
  destruct ls as [|l' ls].
  - apply split_lines_one, Hl.
  - change (join_lines (l :: l' :: ls)) with (l ++ newline :: join_lines (l' :: ls)).
    rewrite (split_lines_app _ _ Hl), IH; [reflexivity|discriminate|exact Hls].
Qed.

Lemma split_lines_no_newline (s : text) :
  Forall (fun l => contains [newline] l = false) (split_lines s).
Proof.
  induction s as [|c s IH]; [repeat constructor|].
  cbn [split_lines]. destruct (Ascii.eqb c newline) eqn:E.
  - constructor; [reflexivity|exact IH].
  - destruct (split_lines s) as [|l ls]; [repeat constructor|].
    + cbn [contains startswith]. rewrite Ascii.eqb_sym, E. reflexivity.
    + apply Forall_cons_iff in IH as [Hl Hls]. constructor; [|exact Hls].
      cbn [contains startswith]. rewrite Ascii.eqb_sym, E, Hl. reflexivity.
Qed.

Lemma join_lines_infix (ls : list text) (l : text) :
  In l ls -> exists a b, join_lines ls = a ++ l ++ b.
Proof.
  induction ls as [|l0 ls IH]; [contradiction|]. intros [->|H].
  - destruct ls as [|l' ls].
    + exists [], []. cbn. rewrite app_nil_r. reflexivity.
    + exists [], (newline :: join_lines (l' :: ls)). reflexivity.
  - destruct ls as [|l' ls]; [contradiction|].
    destruct (IH H) as (a & b & E).
    exists (l0 ++ newline :: a), b.
    change (join_lines (l0 :: l' :: ls)) with (l0 ++ newline :: join_lines (l' :: ls)).
    rewrite E, <- app_assoc. reflexivity.
Qed.

(** A marker that is not in the document is in none of its lines. *)
Lemma split_lines_absent (p s : text) :
  contains p s = false ->
  Forall (fun l => contains p l = false) (split_lines s).
Proof.
  intros H. apply List.Forall_forall. intros l Hl.
  destruct (join_lines_infix _ _ Hl) as (a & b & E).
  rewrite join_split_lines in E. rewrite E in H.
  apply contains_app_false in H as [_ H].
  apply contains_app_false in H. apply H.
Qed.

Lemma V1_fix_unescaped_plain (p s : text) :
  p <> [] -> plain p = true ->
  contains p (V1.fix_unescaped s) = contains p s.
Proof.
  intros Hne Hp.
  destruct (V1_fix_unescaped_cases s) as [->|(before & part & Hf & ->)];
    [reflexivity|].
  apply find_spec in Hf. subst s. rewrite !(app_assoc before).
  pose proof (contains_escape_ctx p (before ++ V1.open_content) false part []
                Hne Hp) as H.
  rewrite !app_nil_r in H. exact H.
Qed.

Lemma delimited_absent (p pre lead t trail : text) :
  p <> [] -> absent_char backtick p = true ->
  contains p (pre ++ lead ++ t ++ trail) = false ->
  contains p (pre ++ backtick :: t ++ [backtick]) = false.
Proof.
  intros Hne Hb H.
  apply contains_app_false in H as [Hp H].
  apply contains_app_false in H as [_ H].
  apply contains_app_false in H as [Ht _].
  rewrite (contains_sep p pre backtick _ Hne Hb), Hp. cbn [orb].
  rewrite (contains_sep p t backtick _ Hne Hb), Ht.
  apply contains_nil_r, Hne.
Qed.

(** No rule puts a newline into a line. *)
Lemma fix_line_no_newline (line : text) :
  contains (str "description:") line = false ->
  contains [newline] line = false ->
  contains [newline] (V1.fix_line line) = false /\
  contains [newline] (V2.fix_line line) = false.
Proof.
  intros Hd Hn. split.
  - unfold V1.fix_line.
    destruct (settled_fixed _ (V1_fix_role_settled line Hd)) as (_ & -> & _ & _).
    assert (H1 : contains [newline] (V1.fix_role line) = false).
    { rewrite V1_fix_role_eq.
      apply replace_out_absent; try reflexivity; try discriminate. left.
      apply replace_out_absent; try reflexivity; try discriminate. left.
      exact Hn. }
    assert (H2 : contains [newline] (V1.fix_unescaped (V1.fix_role line)) = false).
    { rewrite V1_fix_unescaped_plain by (reflexivity || discriminate). exact H1. }
    destruct (V1_fix_missing_cases (V1.fix_unescaped (V1.fix_role line)))
      as [->|(ws1 & ws2 & lead & t & trail & _ & _ & E & ->)]; [exact H2|].
    rewrite E in H2.
    apply (delimited_absent _ _ lead t trail); [discriminate|reflexivity|exact H2].
  - unfold V2.fix_line.
    destruct (settled_fixed _ (V2_fix_role_settled line Hd)) as (_ & _ & _ & ->).
    assert (H1 : contains [newline] (V2.fix_role line) = false).
    { apply (role_sub_out_absent [newline] (length line));
        try reflexivity; try discriminate. left. exact Hn. }
    unfold V2.fix_content.
    destruct (contains (str "content:") (V2.fix_role line)); [|exact H1].
    rewrite V2_fix_unescaped_plain by (reflexivity || discriminate).
    destruct (V2_fix_missing_cases (V2.fix_role line))
      as [->|(ws1 & ws2 & lead & t & trail & _ & _ & E & ->)]; [exact H1|].
    rewrite E in H1.
    apply (delimited_absent _ _ lead t trail); [discriminate|reflexivity|exact H1].
Qed.

Lemma map_idem_lines (f : text -> text) (ls : list text) :
  Forall (fun l => f (f l) = f l) ls -> map f (map f ls) = map f ls.
Proof.
  induction 1 as [|l ls Hl _ IH]; [reflexivity|].
  cbn [map]. rewrite Hl, IH. reflexivity.
Qed.

(** C2, as the scripts have it.  On a document without [description:],
    and on any line without it, a second run of either script changes
    nothing. *)
Theorem repair_twice_without_description (doc line : text) :
  contains (str "description:") doc = false ->
  contains (str "description:") line = false ->
  (V1.fix_text (V1.fix_text doc) = V1.fix_text doc /\
   V2.fix_text (V2.fix_text doc) = V2.fix_text doc) /\
  (V1.fix_line (V1.fix_line line) = V1.fix_line line /\
   V2.fix_line (V2.fix_line line) = V2.fix_line line).
Proof.
  intros Hdoc Hline. split; [|apply fix_line_idem, Hline].
  pose proof (split_lines_absent _ _ Hdoc) as Hd.
  pose proof (split_lines_no_newline doc) as Hn.
  pose proof (split_lines_nonempty doc) as Hne.
  unfold V1.fix_text, V2.fix_text.
  rewrite !V1_repair_loop_map, !V2_repair_loop_map. cbn [app].
  assert (H1 : Forall (fun l => contains [newline] l = false)
                 (map V1.fix_line (split_lines doc))).
  { apply List.Forall_map. rewrite List.Forall_forall in Hd, Hn |- *. intros l Hl.
    apply fix_line_no_newline; auto. }
  assert (H2 : Forall (fun l => contains [newline] l = false)
                 (map V2.fix_line (split_lines doc))).
  { apply List.Forall_map. rewrite List.Forall_forall in Hd, Hn |- *. intros l Hl.
    apply fix_line_no_newline; auto. }
  rewrite !split_join_lines; try assumption;
    try (destruct (split_lines doc); [congruence|discriminate]).
  split; f_equal; apply map_idem_lines;
    rewrite List.Forall_forall in Hd |- *; intros l Hl; apply fix_line_idem; auto.
Qed.

Lemma repair_twice_without_description_witness :
  (V1.fix_text (V1.fix_text (Py.join_lines
     [str "  role: '`input`',"; str "  content: Hello `world`"; str "}"]))
   = V1.fix_text (Py.join_lines
     [str "  role: '`input`',"; str "  content: Hello `world`"; str "}"]) /\
   V2.fix_text (V2.fix_text (Py.join_lines
     [str "  role: '`input`',"; str "  content: Hello `world`"; str "}"]))
   = V2.fix_text (Py.join_lines
     [str "  role: '`input`',"; str "  content: Hello `world`"; str "}"])) /\
  (V1.fix_line (V1.fix_line (str "content: `Use `code` here"))
   = V1.fix_line (str "content: `Use `code` here") /\
   V2.fix_line (V2.fix_line (str "content: `Use `code` here"))
   = V2.fix_line (str "content: `Use `code` here")).
Proof.
  apply (repair_twice_without_description
           (Py.join_lines
              [str "  role: '`input`',"; str "  content: Hello `world`"; str "}"])
           (str "content: `Use `code` here")); reflexivity.
Defined.

(** C2 fails as stated: with a description string on the line a second
    pass can find work that the first pass made or left.  In
    [fix_backticks.py] the second description string is cleaned only on the
    second pass; in [fix_backticks2.py] the backtick that the first pass
    escaped pairs up with the delimiter that it put in. *)
Lemma repair_not_idempotent :
  V1.fix_line (V1.fix_line (str "description: 'a `b`', description: 'c `d`'"))
  <> V1.fix_line (str "description: 'a `b`', description: 'c `d`'") /\
  V2.fix_line (V2.fix_line (str "content: see description: 'it`s'"))
  <> V2.fix_line (str "content: see description: 'it`s'") /\
  V2.fix_text (V2.fix_text (str "content: see description: 'it`s'"))
  <> V2.fix_text (str "content: see description: 'it`s'").
Proof. repeat split; intros H; discriminate H. Qed.

End Documents.

(** ** Lines and newlines *)

Section Lines.
Import Py Re.

Lemma contains_char_existsb (c : ascii) (s : text) :
  contains [c] s = existsb (Ascii.eqb c) s.
Proof.
  induction s as [|a s IH]; [reflexivity|].
  cbn [contains startswith existsb]. rewrite andb_true_r, IH. reflexivity.
Qed.

Lemma existsb_filter (c : ascii) (k : ascii -> bool) (s : text) :
  k c = true ->
  existsb (Ascii.eqb c) (List.filter k s) = existsb (Ascii.eqb c) s.
Proof.
  intros Hk. induction s as [|a s IH]; [reflexivity|].
  cbn [List.filter existsb]. destruct (k a) eqn:Ea.
  - cbn [existsb]. rewrite IH. reflexivity.
  - rewrite IH. destruct (Ascii.eqb c a) eqn:E; [|reflexivity].
    apply Ascii.eqb_eq in E. subst a. congruence.
Qed.

Lemma contains_char_without_backticks (c : ascii) (s : text) :
  Ascii.eqb c backtick = false ->
  contains [c] (without_backticks s) = contains [c] s.
Proof.
  intros Hc. rewrite !contains_char_existsb. apply existsb_filter.
  unfold is_backtick. rewrite Hc. reflexivity.
Qed.

(** What the description pattern matches is a part of the text. *)
Lemma desc_match_here_prefix (s m : text) :
  desc_match_here s = Some m -> m <> [] /\ exists t, s = m ++ t.
Proof.
  unfold desc_match_here.
  destruct (startswith (str "description:") s) eqn:Hs; [|discriminate].
  apply startswith_true in Hs.
  change (length (str "description:")) with 12 in Hs.
  set (r := skipn 12 s) in *.
  pose proof (take_drop_while isspace r) as Hr.
  destruct (drop_while isspace r) as [|q r'] eqn:Ed; [discriminate|].
  destruct (Ascii.eqb q squote) eqn:Eq; [|discriminate].
  apply Ascii.eqb_eq in Eq. subst q.
  pose proof (take_drop_while not_squote r') as Hr'.
  pose proof (drop_while_head not_squote r') as Hh.
  destruct (drop_while not_squote r') as [|c r''] eqn:Ed'; [discriminate|].
  destruct (existsb is_backtick (take_while not_squote r')); [|discriminate].
  intros [= <-]. split; [discriminate|].
  destruct Hh as [Hh|Hh]; [discriminate|].
  cbn [first_is] in Hh. unfold not_squote in Hh.
  rewrite negb_involutive in Hh. apply Ascii.eqb_eq in Hh. subst c.
  exists r''. rewrite Hs at 1. rewrite <- Hr at 1. rewrite <- Hr' at 1.
  repeat (rewrite <- ?app_assoc; cbn [app]). reflexivity.
Qed.

Lemma desc_search_infix (s m : text) :
  desc_search s = Some m -> m <> [] /\ exists a b, s = a ++ m ++ b.
Proof.
  induction s as [|c s IH]; cbn [desc_search].
  - destruct (desc_match_here []) as [m'|] eqn:E; [|discriminate].
    intros [= <-]. destruct (desc_match_here_prefix _ _ E) as (Hne & t & Ht).
    split; [exact Hne|]. exists [], t. exact Ht.
  - destruct (desc_match_here (c :: s)) as [m'|] eqn:E.
    + intros [= <-]. destruct (desc_match_here_prefix _ _ E) as (Hne & t & Ht).
      split; [exact Hne|]. exists [], t. exact Ht.
    + intros H. destruct (IH H) as (Hne & a & b & ->).
      split; [exact Hne|]. exists (c :: a), b. reflexivity.
Qed.

(** The description rules bring no character but the ones of the line. *)
Lemma V1_fix_description_char (c : ascii) (line : text) :
  Ascii.eqb c backtick = false ->
  contains [c] line = false -> contains [c] (V1.fix_description line) = false.
Proof.
  intros Hc H. unfold V1.fix_description.
  match goal with |- contains _ (if ?b then _ else _) = _ => destruct b end;
    [|exact H].
  destruct (desc_search line) as [old|] eqn:E; [|exact H].
  destruct (desc_search_infix _ _ E) as (Hne & a & b & Hl).
  apply replace_out_absent; try reflexivity; try assumption; try discriminate.
  - rewrite replace_backtick_nil, (contains_char_without_backticks _ _ Hc).
    rewrite Hl in H. apply contains_app_false in H as [_ H].
    apply contains_app_false in H. apply H.
  - left. exact H.
Qed.

(** The pairwise removal keeps every character that is no backtick, in
    order: [k] is any choice of characters that leaves the backtick out. *)
Lemma strip_pairs_from_filter (k : ascii -> bool) (s : text) :
  k backtick = false ->
  forall pending,
    List.filter k (strip_pairs_from pending s)
    = List.filter k (match pending with Some acc => rev acc | None => [] end)
      ++ List.filter k s.
Proof.
  intros Hk. induction s as [|c s IH]; intros [acc|]; cbn [strip_pairs_from].
  - cbn [List.filter]. rewrite Hk, app_nil_r. reflexivity.
  - reflexivity.
  - destruct (Ascii.eqb c backtick) eqn:Ec.
    + apply Ascii.eqb_eq in Ec. subst c.
      rewrite List.filter_app, (IH None). cbn [List.filter app]. rewrite Hk.
      reflexivity.
    + rewrite (IH (Some (c :: acc))). cbn [rev].
      rewrite List.filter_app, <- app_assoc.
      change (c :: s) with ([c] ++ s). rewrite (List.filter_app k [c] s).
      reflexivity.
  - destruct (Ascii.eqb c backtick) eqn:Ec.
    + apply Ascii.eqb_eq in Ec. subst c.
      rewrite (IH (Some [])). cbn [rev List.filter app]. rewrite Hk. reflexivity.
    + cbn [List.filter app]. rewrite (IH None). reflexivity.
Qed.

Lemma without_backticks_strip_pairs (s : text) :
  without_backticks (strip_pairs s) = without_backticks s.
Proof.
  apply (strip_pairs_from_filter (fun c => negb (is_backtick c)) s eq_refl None).
Qed.

Lemma V2_fix_description_char (c : ascii) (line : text) :
  Ascii.eqb c backtick = false ->
  contains [c] line = false -> contains [c] (V2.fix_description line) = false.
Proof.
  intros Hc H. unfold V2.fix_description.
  destruct (desc_search line); [|exact H].
  rewrite <- (contains_char_without_backticks _ _ Hc), without_backticks_strip_pairs.
  rewrite (contains_char_without_backticks _ _ Hc). exact H.
Qed.

(** No rule puts a newline into a line, whatever the line holds. *)
Lemma fix_line_one_line (line : text) :
  contains [newline] line = false ->
  contains [newline] (V1.fix_line line) = false /\
  contains [newline] (V2.fix_line line) = false.
Proof.
  intros Hn. split.
  - unfold V1.fix_line.
    assert (H1 : contains [newline] (V1.fix_role line) = false).
    { rewrite V1_fix_role_eq.
      apply replace_out_absent; try reflexivity; try discriminate. left.
      apply replace_out_absent; try reflexivity; try discriminate. left.
      exact Hn. }
    apply (V1_fix_description_char newline _ eq_refl) in H1.
    set (l2 := V1.fix_description (V1.fix_role line)) in *.
    assert (H2 : contains [newline] (V1.fix_unescaped l2) = false).
    { rewrite V1_fix_unescaped_plain by (reflexivity || discriminate). exact H1. }
    destruct (V1_fix_missing_cases (V1.fix_unescaped l2))
      as [->|(ws1 & ws2 & lead & t & trail & _ & _ & E & ->)]; [exact H2|].
    rewrite E in H2.
    apply (delimited_absent _ _ lead t trail); [discriminate|reflexivity|exact H2].
  - unfold V2.fix_line.
    assert (H1 : contains [newline] (V2.fix_role line) = false).
    { apply (role_sub_out_absent [newline] (length line));
        try reflexivity; try discriminate. left. exact Hn. }
    apply (V2_fix_description_char newline _ eq_refl) in H1.
    set (l2 := V2.fix_description (V2.fix_role line)) in *.
    unfold V2.fix_content.
    destruct (contains (str "content:") l2); [|exact H1].
    rewrite V2_fix_unescaped_plain by (reflexivity || discriminate).
    destruct (V2_fix_missing_cases l2)
      as [->|(ws1 & ws2 & lead & t & trail & _ & _ & E & ->)]; [exact H1|].
    rewrite E in H1.
    apply (delimited_absent _ _ lead t trail); [discriminate|reflexivity|exact H1].
Qed.

Lemma fix_text_split (doc : text) :
  split_lines (V1.fix_text doc) = map V1.fix_line (split_lines doc) /\
  split_lines (V2.fix_text doc) = map V2.fix_line (split_lines doc).
Proof.
  pose proof (split_lines_no_newline doc) as Hn.
  pose proof (split_lines_nonempty doc) as Hne.
  unfold V1.fix_text, V2.fix_text.
  rewrite V1_repair_loop_map, V2_repair_loop_map. cbn [app].
  split; apply split_join_lines;
    try (destruct (split_lines doc); [congruence|discriminate]);
    apply List.Forall_map; rewrite List.Forall_forall in Hn |- *; intros l Hl;
    apply fix_line_one_line; auto.
Qed.

(** X1.  The text written holds as many lines as the text read, and its
    line number [i] is the repair of line number [i] of the text read: split
    again at the newlines, the output of [fix_file] is the list of the
    repaired input lines, in both scripts.  No rule adds a newline to a line
    or takes one away. *)
Theorem repaired_lines_in_place (doc : text) :
  (split_lines (V1.fix_text doc) = map V1.fix_line (split_lines doc) /\
   split_lines (V2.fix_text doc) = map V2.fix_line (split_lines doc)) /\
  (length (split_lines (V1.fix_text doc)) = length (split_lines doc) /\
   length (split_lines (V2.fix_text doc)) = length (split_lines doc)).
Proof.
  destruct (fix_text_split doc) as [H1 H2].
  split; [split; assumption|].
  rewrite H1, H2, !length_map. split; reflexivity.
Qed.

Lemma split_lines_newline (a b : text) :
  split_lines (a ++ newline :: b) = split_lines a ++ split_lines b.
Proof.
  induction a as [|c a IH].
  - cbn [app split_lines]. rewrite Ascii.eqb_refl. reflexivity.
  - cbn [app split_lines]. rewrite IH.
    destruct (Ascii.eqb c newline); [reflexivity|].
    pose proof (split_lines_nonempty a) as Hne.
    destruct (split_lines a) as [|l ls]; [congruence|]. reflexivity.
Qed.

Lemma join_lines_app (xs ys : list text) :
  xs <> [] -> ys <> [] ->
  join_lines (xs ++ ys) = join_lines xs ++ newline :: join_lines ys.
Proof.
  intros Hx Hy. induction xs as [|x xs IH]; [congruence|].
  destruct xs as [|x' xs].
  - destruct ys as [|y ys]; [congruence|]. reflexivity.
  - change (join_lines ((x :: x' :: xs) ++ ys))
      with (x ++ newline :: join_lines ((x' :: xs) ++ ys)).
    rewrite IH by discriminate.
    change (join_lines (x :: x' :: xs)) with (x ++ newline :: join_lines (x' :: xs)).
    rewrite <- app_assoc. reflexivity.
Qed.

Lemma map_nonempty {A B : Type} (f : A -> B) (l : list A) :
  l <> [] -> map f l <> [].
Proof. destruct l; [congruence|discriminate]. Qed.

(** X2.  Both scripts keep nothing from one line to the next: the repair of
    a text with a newline in it is the repair of the text before that
    newline, the newline, and the repair of the text after it.  So a final
    newline stays, and any part of a document between two newlines is
    repaired as it would be alone. *)
Theorem repair_distributes_over_newline (a b : text) :
  V1.fix_text (a ++ newline :: b)
  = V1.fix_text a ++ newline :: V1.fix_text b /\
  V2.fix_text (a ++ newline :: b)
  = V2.fix_text a ++ newline :: V2.fix_text b.
Proof.
  unfold V1.fix_text, V2.fix_text.
  rewrite !V1_repair_loop_map, !V2_repair_loop_map. cbn [app].
  rewrite split_lines_newline, !map_app.
  split; apply join_lines_app; apply map_nonempty, split_lines_nonempty.
Qed.

End Lines.

(** ** Characters that no rule touches *)

Section Skeleton.
Import Py Re.

Lemma skeleton_app (a b : text) : skeleton (a ++ b) = skeleton a ++ skeleton b.
Proof. apply List.filter_app. Qed.

Lemma skeleton_blank (ws : text) : blank ws = true -> skeleton ws = [].
Proof.
  induction ws as [|c ws IH]; [reflexivity|]. cbn [blank forallb].
  intros H. apply andb_true_iff in H as [Hc Hws].
  cbn [skeleton List.filter]. unfold inert at 1. rewrite Hc. exact (IH Hws).
Qed.

Lemma filter_without_backticks (k : ascii -> bool) (s : text) :
  k backtick = false ->
  List.filter k (without_backticks s) = List.filter k s.
Proof.
  intros Hk. unfold without_backticks, is_backtick.
  induction s as [|c s IH]; [reflexivity|]. cbn [List.filter].
  destruct (Ascii.eqb c backtick) eqn:Ec; cbn [negb].
  - apply Ascii.eqb_eq in Ec. subst c. rewrite Hk. exact IH.
  - cbn [List.filter]. rewrite IH. reflexivity.
Qed.

Lemma skeleton_without_backticks (s : text) :
  skeleton (without_backticks s) = skeleton s.
Proof. apply filter_without_backticks. reflexivity. Qed.

(** A substitution whose two sides have the same skeleton keeps the
    skeleton of the text. *)
Lemma skeleton_replace_from (old new : text) (n : nat) :
  old <> [] -> skeleton old = skeleton new ->
  forall s, length s <= n ->
    skeleton (replace_from old new 0 s) = skeleton s.
Proof.
  intros Hne Hs. induction n as [|n IH]; intros s Hn.
  - destruct s; [reflexivity|cbn in Hn; lia].
  - destruct (replace_from_unfold old new s Hne) as [H|(a & b & -> & _ & ->)].
    + rewrite (replace_from_absent _ _ _ H). reflexivity.
    + rewrite !skeleton_app, Hs, IH; [reflexivity|].
      rewrite !length_app in Hn. destruct old; [congruence|]. cbn in Hn. lia.
Qed.

Lemma skeleton_replace (old new s : text) :
  old <> [] -> skeleton old = skeleton new ->
  skeleton (replace old new s) = skeleton s.
Proof.
  intros Hne Hs. rewrite (replace_nonempty _ _ _ Hne).
  apply (skeleton_replace_from old new (length s)); auto.
Qed.

Lemma skeleton_role_sub (n : nat) (s : text) :
  length s <= n -> skeleton (V2.role_sub 0 s) = skeleton s.
Proof.
  revert s. induction n as [|n IH]; intros s Hn.
  - destruct s; [reflexivity|cbn in Hn; lia].
  - destruct (role_sub_unfold s)
      as [[H1 H2]|(a & b & tok & new & Ht & -> & _ & _ & ->)].
    + rewrite (V2_role_sub_absent _ H1 H2). reflexivity.
    + assert (Hs : skeleton new = skeleton tok)
        by (destruct Ht as [[-> ->]|[-> ->]]; vm_compute; reflexivity).
      rewrite !skeleton_app, Hs, IH; [reflexivity|].
      rewrite !length_app in Hn.
      destruct Ht as [[-> _]|[-> _]]; cbn [length] in Hn;
          [change (length V2.tok_input) with 15 in Hn
          |change (length V2.tok_output) with 16 in Hn]; lia.
Qed.

Lemma skeleton_fix_role (line : text) :
  skeleton (V1.fix_role line) = skeleton line /\
  skeleton (V2.fix_role line) = skeleton line.
Proof.
  split.
  - rewrite V1_fix_role_eq.
    rewrite (skeleton_replace V1.tok_output (str "role: 'output'"));
      [|discriminate|vm_compute; reflexivity].
    apply skeleton_replace; [discriminate|vm_compute; reflexivity].
  - apply (skeleton_role_sub (length line)). lia.
Qed.

Lemma skeleton_fix_description (line : text) :
  skeleton (V1.fix_description line) = skeleton line /\
  skeleton (V2.fix_description line) = skeleton line.
Proof.
  split.
  - unfold V1.fix_description.
    match goal with |- skeleton (if ?b then _ else _) = _ => destruct b end;
      [|reflexivity].
    destruct (desc_search line) as [old|] eqn:E; [|reflexivity].
    destruct (desc_search_infix _ _ E) as (Hne & _).
    apply skeleton_replace; [exact Hne|].
    rewrite replace_backtick_nil, skeleton_without_backticks. reflexivity.
  - unfold V2.fix_description. destruct (desc_search line); [|reflexivity].
    apply (strip_pairs_from_filter inert line eq_refl None).
Qed.

(** Escaping inserts backslashes and nothing else: [k] is any choice of
    characters that leaves the backslash out. *)
Lemma escape_from_filter (k : ascii -> bool) (s : text) :
  k bslash = false ->
  forall prev, List.filter k (escape_from prev s) = List.filter k s.
Proof.
  intros Hk. induction s as [|c s IH]; intros prev; [reflexivity|].
  cbn [escape_from]. destruct (Ascii.eqb c backtick) eqn:Ec.
  - destruct prev; cbn [app List.filter]; rewrite ?Hk, IH; reflexivity.
  - cbn [List.filter]. rewrite IH. reflexivity.
Qed.

Lemma skeleton_escape (s : text) : skeleton (escape_backticks s) = skeleton s.
Proof. apply (escape_from_filter inert s eq_refl). Qed.

Lemma skeleton_fix_unescaped (line : text) :
  skeleton (V1.fix_unescaped line) = skeleton line /\
  skeleton (V2.fix_unescaped line) = skeleton line.
Proof.
  split.
  - destruct (V1_fix_unescaped_cases line) as [->|(before & part & Hf & ->)];
      [reflexivity|].
    apply find_spec in Hf. rewrite Hf, !skeleton_app, skeleton_escape.
    reflexivity.
  - destruct (V2_fix_unescaped_cases line)
      as [->|(before & inner & suffix & Hf & _ & ->)]; [reflexivity|].
    apply find_spec in Hf. rewrite Hf, !skeleton_app, skeleton_escape.
    reflexivity.
Qed.

(** What the wrapping rules drop around the value is white space. *)
Lemma V1_fix_missing_blanks (line : text) :
  V1.fix_missing line = line \/
  exists prefix lead text trail,
    line = prefix ++ lead ++ text ++ trail /\
    blank lead = true /\ blank trail = true /\
    V1.fix_missing line = prefix ++ backtick :: text ++ [backtick].
Proof.
  unfold V1.fix_missing.
  match goal with |- (if ?b then _ else _) = _ \/ _ => destruct b end;
    [|left; reflexivity].
  destruct (wrap_match1 line) as [[prefix g]|] eqn:Em; [|left; reflexivity].
  apply wrap_match1_spec in Em.
  destruct (strip_spec g) as (lead & trail & Hg & Hl & Ht & _).
  match goal with |- (if ?b then _ else _) = _ \/ _ => destruct b end;
    [|left; reflexivity].
  right. exists prefix, lead, (strip g), trail.
  rewrite <- Hg. repeat split; assumption.
Qed.

Lemma V2_fix_missing_blanks (line : text) :
  V2.fix_missing line = line \/
  exists prefix lead text trail,
    line = prefix ++ lead ++ text ++ trail /\
    blank lead = true /\ blank trail = true /\
    V2.fix_missing line = prefix ++ backtick :: text ++ [backtick].
Proof.
  unfold V2.fix_missing.
  destruct (wrap_match2 line) as [[prefix g]|] eqn:Em; [|left; reflexivity].
  apply wrap_match2_spec in Em.
  destruct (strip_spec g) as (lead & trail & Hg & Hl & Ht & _).
  match goal with |- (if ?b then _ else _) = _ \/ _ => destruct b end;
    [|left; reflexivity].
  right. exists prefix, lead, (strip g), trail.
  rewrite <- Hg. repeat split; assumption.
Qed.

Lemma skeleton_delimited (prefix lead t trail : text) :
  blank lead = true -> blank trail = true ->
  skeleton (prefix ++ backtick :: t ++ [backtick])
  = skeleton (prefix ++ lead ++ t ++ trail).
Proof.
  intros Hl Ht.
  change (backtick :: t ++ [backtick]) with ([backtick] ++ t ++ [backtick]).
  rewrite !skeleton_app, (skeleton_blank _ Hl), (skeleton_blank _ Ht).
  reflexivity.
Qed.

Lemma skeleton_fix_missing (line : text) :
  skeleton (V1.fix_missing line) = skeleton line /\
  skeleton (V2.fix_missing line) = skeleton line.
Proof.
  split.
  - destruct (V1_fix_missing_blanks line)
      as [->|(prefix & lead & t & trail & E & Hl & Ht & ->)]; [reflexivity|].
    rewrite E. apply skeleton_delimited; assumption.
  - destruct (V2_fix_missing_blanks line)
      as [->|(prefix & lead & t & trail & E & Hl & Ht & ->)]; [reflexivity|].
    rewrite E. apply skeleton_delimited; assumption.
Qed.

Lemma skeleton_fix_line (line : text) :
  skeleton (V1.fix_line line) = skeleton line /\
  skeleton (V2.fix_line line) = skeleton line.
Proof.
  split.
  - unfold V1.fix_line.
    rewrite (proj1 (skeleton_fix_missing _)), (proj1 (skeleton_fix_unescaped _)),
      (proj1 (skeleton_fix_description _)). apply skeleton_fix_role.
  - unfold V2.fix_line, V2.fix_content.
    destruct (contains (str "content:") (V2.fix_description (V2.fix_role line))).
    + rewrite (proj2 (skeleton_fix_unescaped _)), (proj2 (skeleton_fix_missing _)),
        (proj2 (skeleton_fix_description _)). apply skeleton_fix_role.
    + rewrite (proj2 (skeleton_fix_description _)). apply skeleton_fix_role.
Qed.

Lemma skeleton_join_lines (ls : list text) :
  skeleton (join_lines ls) = concat (map skeleton ls).
Proof.
  induction ls as [|l ls IH]; [reflexivity|].
  destruct ls as [|l' ls].
  - cbn [join_lines map concat]. rewrite app_nil_r. reflexivity.
  - change (join_lines (l :: l' :: ls)) with (l ++ [newline] ++ join_lines (l' :: ls)).
    rewrite !skeleton_app, IH. reflexivity.
Qed.

Lemma map_skeleton_lines (f : text -> text) (ls : list text) :
  (forall l, skeleton (f l) = skeleton l) ->
  map skeleton (map f ls) = map skeleton ls.
Proof.
  intros H. rewrite map_map. apply map_ext. exact H.
Qed.

(** X3.  Either script only ever adds or removes backticks, backslashes and
    white space.  The characters of a line that are none of these come out
    of the repair as they went in, all of them and in the same order; so do
    those of a whole document. *)
Theorem repair_keeps_other_characters (line doc : text) :
  (skeleton (V1.fix_line line) = skeleton line /\
   skeleton (V2.fix_line line) = skeleton line) /\
  (skeleton (V1.fix_text doc) = skeleton doc /\
   skeleton (V2.fix_text doc) = skeleton doc).
Proof.
  split; [apply skeleton_fix_line|].
  unfold V1.fix_text, V2.fix_text.
  rewrite V1_repair_loop_map, V2_repair_loop_map. cbn [app].
  rewrite !skeleton_join_lines.
  rewrite (map_skeleton_lines V1.fix_line), (map_skeleton_lines V2.fix_line);
    try (intros l; apply skeleton_fix_line).
  rewrite <- skeleton_join_lines, join_split_lines. split; reflexivity.
Qed.

End Skeleton.

(** ** Where the two scripts agree *)

Section Agreement.
Import Py Re.

(** No occurrence of [p] starts inside [r], whatever follows [r], when [p]
    differs from every end of [r] at a position both have. *)
Lemma starts_in_clash_all (p r q : text) :
  (forall k, k < length r -> clash p (skipn k r) = true) ->
  starts_in p r q = false.
Proof.
  induction r as [|c r IH]; [reflexivity|]. intros H. cbn [starts_in].
  pose proof (clash_startswith _ _ q (H 0 ltac:(cbn; lia))) as H0.
  cbn [skipn] in H0. rewrite H0.
  apply IH. intros k Hk. apply (H (S k)). cbn. lia.
Qed.

Lemma starts_in_clash (p r q : text) :
  forallb (fun k => clash p (skipn k r)) (seq 0 (length r)) = true ->
  starts_in p r q = false.
Proof.
  intros H. apply starts_in_clash_all. intros k Hk.
  rewrite forallb_forall in H. apply H, in_seq. lia.
Qed.

Lemma starts_in_app (p a x q : text) :
  starts_in p (a ++ x) q = starts_in p a (x ++ q) || starts_in p x q.
Proof.
  induction a as [|c a IH]; [reflexivity|].
  cbn [app starts_in]. rewrite IH, <- !app_assoc, orb_assoc. reflexivity.
Qed.

Lemma role_rules_agree_upto (n : nat) (s : text) :
  length s <= n ->
  replace_from V1.tok_output (str "role: 'output'") 0
    (replace_from V1.tok_input (str "role: 'input'") 0 s)
  = V2.role_sub 0 s.
Proof.
  revert s. induction n as [|n IH]; intros s Hn.
  - destruct s; [reflexivity|cbn in Hn; lia].
  - destruct (role_sub_unfold s)
      as [[H1 H2]|(a & b & tok & new & Ht & -> & Hi & Ho & ->)].
    + rewrite (V2_role_sub_absent _ H1 H2).
      rewrite (replace_from_absent _ _ _ H1). apply replace_from_absent, H2.
    + assert (Hb : length b <= n).
      { rewrite !length_app in Hn.
        destruct Ht as [[-> _]|[-> _]];
          [change (length V2.tok_input) with 15 in Hn
          |change (length V2.tok_output) with 16 in Hn]; lia. }
      rewrite <- (IH b Hb).
      set (rb := replace_from V1.tok_input (str "role: 'input'") 0 b).
      change V2.tok_input with V1.tok_input in *.
      change V2.tok_output with V1.tok_output in *.
      destruct Ht as [[-> ->]|[-> ->]].
      * rewrite (replace_from_skip _ _ a _ Hi).
        rewrite (replace_from_here V1.tok_input (str "role: 'input'") b)
          by discriminate.
        fold rb.
        rewrite (replace_from_skip V1.tok_output _ a).
        2:{ apply (starts_in_marker V1.tok_output V1.tok_output a
                     (str "role: 'input'") rb); [reflexivity| |reflexivity].
            eapply starts_in_contains; [discriminate|exact Ho]. }
        rewrite (replace_from_skip V1.tok_output _ (str "role: 'input'") rb
                   (starts_in_clash V1.tok_output (str "role: 'input'") rb
                      eq_refl)).
        reflexivity.
      * rewrite (replace_from_skip _ _ a _ Hi).
        rewrite (replace_from_skip V1.tok_input _ V1.tok_output b
                   (starts_in_clash V1.tok_input V1.tok_output b eq_refl)).
        fold rb.
        rewrite (replace_from_skip V1.tok_output _ a).
        2:{ rewrite <- Ho. apply starts_in_indep. }
        rewrite (replace_from_here V1.tok_output (str "role: 'output'") rb)
          by discriminate.
        reflexivity.
Qed.

Lemma fix_role_agree (line : text) : V1.fix_role line = V2.fix_role line.
Proof.
  rewrite V1_fix_role_eq, !replace_nonempty by discriminate.
  apply (role_rules_agree_upto (length line)). lia.
Qed.

(** X4.  The role rule is the same function in both scripts: the two
    [str.replace] calls of [fix_backticks.py], one after the other, and the
    single [re.sub] of [fix_backticks2.py] give the same text on every
    line. *)
Theorem role_rules_agree (line : text) : V1.fix_role line = V2.fix_role line.
Proof. apply fix_role_agree. Qed.

Lemma fix_role_keeps_content_absent (line : text) :
  contains (str "content:") line = false ->
  contains (str "content:") (V1.fix_role line) = false.
Proof.
  intros H. rewrite V1_fix_role_eq.
  apply replace_out_absent; try reflexivity; try discriminate. left.
  apply replace_out_absent; try reflexivity; try discriminate. left.
  exact H.
Qed.

Lemma fix_line_agree (line : text) :
  contains (str "description:") line = false ->
  contains (str "content:") line = false ->
  V1.fix_line line = V2.fix_line line.
Proof.
  intros Hd Hc.
  destruct (V1_fix_role_clean line) as (_ & _ & Hd1).
  pose proof (fix_role_keeps_content_absent _ Hc) as Hc1.
  rewrite (V1_fix_line_role_only line (Hd1 Hd) Hc1).
  rewrite fix_role_agree in Hc1, Hd1.
  rewrite (V2_fix_line_role_only line (Hd1 Hd) Hc1).
  apply fix_role_agree.
Qed.

Lemma map_ext_Forall {A B : Type} (f g : A -> B) (l : list A) :
  Forall (fun x => f x = g x) l -> map f l = map g l.
Proof. induction 1 as [|x l Hx _ IH]; [reflexivity|]. cbn. rewrite Hx, IH. reflexivity. Qed.

(** X5.  Where no [description:] and no [content:] is written, the two
    scripts do the same: they give the same line for each such line, and the
    same text for a document that holds neither marker. *)
Theorem scripts_agree_off_description_and_content (line doc : text) :
  contains (str "description:") line = false ->
  contains (str "content:") line = false ->
  contains (str "description:") doc = false ->
  contains (str "content:") doc = false ->
  V1.fix_line line = V2.fix_line line /\ V1.fix_text doc = V2.fix_text doc.
Proof.
  intros Hd Hc Hdd Hcd. split; [apply fix_line_agree; assumption|].
  unfold V1.fix_text, V2.fix_text.
  rewrite V1_repair_loop_map, V2_repair_loop_map. cbn [app]. f_equal.
  apply map_ext_Forall.
  pose proof (split_lines_absent _ _ Hdd) as H1.
  pose proof (split_lines_absent _ _ Hcd) as H2.
  rewrite List.Forall_forall in H1, H2 |- *. intros l Hl.
  apply fix_line_agree; auto.
Qed.

Lemma scripts_agree_off_description_and_content_witness :
  V1.fix_line (str "  role: '`input`', // `in`")
  = V2.fix_line (str "  role: '`input`', // `in`") /\
  V1.fix_text (join_lines [str "{ role: '`output`',"; str "  id: `x` }"])
  = V2.fix_text (join_lines [str "{ role: '`output`',"; str "  id: `x` }"]).
Proof.
  apply (scripts_agree_off_description_and_content
           (str "  role: '`input`', // `in`")
           (join_lines [str "{ role: '`output`',"; str "  id: `x` }"]));
    vm_compute; reflexivity.
Defined.

End Agreement.

(** ** Files *)

Section Files.
Import Py Re.





Lemma fix_text_twice (doc : text) :
  contains (str "description:") doc = false ->
  V1.fix_text (V1.fix_text doc) = V1.fix_text doc /\
  V2.fix_text (V2.fix_text doc) = V2.fix_text doc.
Proof.
  intros Hdoc. pose proof (split_lines_absent _ _ Hdoc) as Hd.
  destruct (fix_text_split doc) as [H1 H2].
  split.
  - unfold V1.fix_text at 1. rewrite V1_repair_loop_map, H1. cbn [app].
    unfold V1.fix_text. rewrite V1_repair_loop_map. cbn [app]. f_equal.
    apply map_idem_lines. rewrite List.Forall_forall in Hd |- *.
    intros l Hl. apply fix_line_idem; auto.
  - unfold V2.fix_text at 1. rewrite V2_repair_loop_map, H2. cbn [app].
    unfold V2.fix_text. rewrite V2_repair_loop_map. cbn [app]. f_equal.
    apply map_idem_lines. rewrite List.Forall_forall in Hd |- *.
    intros l Hl. apply fix_line_idem; auto.
Qed.

(** X7.  Run twice on a file that holds no [description:], either script
    leaves every file after the second run as it was after the first; only
    the confirmation is printed a second time. *)
Theorem second_run_changes_no_file (path : string) (w : world) (doc : text) :
  files w !! path = Some doc ->
  contains (str "description:") doc = false ->
  (exists w1 w2,
     V1.fix_file path w = Some w1 /\ V1.fix_file path w1 = Some w2 /\
     files w2 = files w1 /\
     stdout w2 = stdout w ++ [confirmation path; confirmation path]) /\
  (exists w1 w2,
     V2.fix_file path w = Some w1 /\ V2.fix_file path w1 = Some w2 /\
     files w2 = files w1 /\
     stdout w2 = stdout w ++ [confirmation path; confirmation path]).
Proof.
  intros Hf Hd. destruct (fix_text_twice _ Hd) as [H1 H2].
  split.
  - eexists _, _. unfold V1.fix_file. rewrite Hf. split; [reflexivity|].
    cbn [files stdout]. rewrite lookup_insert_eq. split; [reflexivity|].
    cbn [files stdout]. rewrite H1, insert_insert_eq, <- app_assoc.
    split; reflexivity.
  - eexists _, _. unfold V2.fix_file. rewrite Hf. split; [reflexivity|].
    cbn [files stdout]. rewrite lookup_insert_eq. split; [reflexivity|].
    cbn [files stdout]. rewrite H2, insert_insert_eq, <- app_assoc.
    split; reflexivity.
Qed.

Lemma second_run_changes_no_file_witness :
  (exists w1 w2,
     V1.fix_file default_path two_files = Some w1 /\
     V1.fix_file default_path w1 = Some w2 /\
     files w2 = files w1 /\
     stdout w2 = [confirmation default_path; confirmation default_path]) /\
  (exists w1 w2,
     V2.fix_file default_path two_files = Some w1 /\
     V2.fix_file default_path w1 = Some w2 /\
     files w2 = files w1 /\
     stdout w2 = [confirmation default_path; confirmation default_path]).
Proof.
  apply (second_run_changes_no_file default_path two_files (str "content: y"));
    reflexivity.
Defined.


End Files.

(** ** The substitutions alone *)

Section EscapingFacts.
Import Py Re.

Lemma escape_from_length (prev : bool) (s : text) :
  length s <= length (escape_from prev s) <= length s + count backtick s.
Proof.
  revert prev. induction s as [|c s IH]; intros prev; [cbn; lia|].
  unfold count in *. cbn [escape_from List.filter].
  rewrite (Ascii.eqb_sym backtick c).
  destruct (Ascii.eqb c backtick).
  - specialize (IH false). destruct prev; cbn [app length]; lia.
  - specialize (IH (Ascii.eqb c bslash)). cbn [length]. lia.
Qed.

Lemma escape_from_count (prev : bool) (s : text) :
  count backtick (escape_from prev s) = count backtick s.
Proof.
  unfold count. f_equal.
  revert prev. induction s as [|c s IH]; intros prev; [reflexivity|].
  cbn [escape_from]. destruct (Ascii.eqb c backtick) eqn:Ec.
  - apply Ascii.eqb_eq in Ec. subst c.
    destruct prev; cbn [app List.filter]; rewrite ?Ascii.eqb_refl, IH;
      reflexivity.
  - cbn [List.filter]. rewrite IH. reflexivity.
Qed.

(** X9.  The substitution that escapes backticks ([re.sub] of a backtick
    that no backslash precedes by a backslash and a backtick) leaves no
    backtick without a backslash before it; it changes nothing in a text that
    has none, so applying it twice is applying it once; and all it does is
    insert backslashes: without its backslashes the result is the text
    without its backslashes, it holds the same number of backticks, and it
    is longer by at most one character for each of them. *)
Theorem escaping_leaves_no_bare_backtick (s : text) :
  all_escaped (escape_backticks s) = true /\
  (all_escaped s = true -> escape_backticks s = s) /\
  escape_backticks (escape_backticks s) = escape_backticks s /\
  without_backslashes (escape_backticks s) = without_backslashes s /\
  count backtick (escape_backticks s) = count backtick s /\
  length s <= length (escape_backticks s) <= length s + count backtick s.
Proof.
  split; [apply escape_all_escaped|].
  split; [apply escape_from_escaped|].
  split; [apply escape_backticks_idem|].
  split; [apply (escape_from_filter _ s eq_refl)|].
  split; [apply escape_from_count|apply escape_from_length].
Qed.

Lemma count_cons (c a : ascii) (s : text) :
  count c (a :: s) = (if Ascii.eqb c a then 1 else 0) + count c s.
Proof. unfold count. cbn [List.filter]. destruct (Ascii.eqb c a); reflexivity. Qed.

Lemma count_rev (c : ascii) (s : text) : count c (rev s) = count c s.
Proof.
  induction s as [|a s IH]; [reflexivity|].
  cbn [rev]. rewrite count_app, IH, !count_cons. cbn. lia.
Qed.

(** The backticks that the pairwise removal leaves: those of the text it
    has put aside, and one more when an odd number was met. *)
Lemma strip_pairs_from_count (s : text) :
  forall pending,
    count backtick (strip_pairs_from pending s)
    = match pending with
      | Some acc =>
          count backtick acc + Nat.b2n (negb (Nat.odd (count backtick s)))
      | None => Nat.b2n (Nat.odd (count backtick s))
      end.
Proof.
  induction s as [|c s IH]; intros [acc|]; cbn [strip_pairs_from].
  - rewrite count_cons, count_rev. cbn. lia.
  - reflexivity.
  - rewrite count_cons, (Ascii.eqb_sym backtick c).
    destruct (Ascii.eqb c backtick) eqn:Ec.
    + rewrite count_app, count_rev, (IH None).
      change (1 + count backtick s) with (S (count backtick s)).
      rewrite Nat.odd_succ, <- Nat.negb_odd, negb_involutive. reflexivity.
    + rewrite (IH (Some (c :: acc))), count_cons, (Ascii.eqb_sym backtick c), Ec.
      reflexivity.
  - rewrite count_cons, (Ascii.eqb_sym backtick c).
    destruct (Ascii.eqb c backtick) eqn:Ec.
    + rewrite (IH (Some [])).
      change (1 + count backtick s) with (S (count backtick s)).
      rewrite Nat.odd_succ, <- Nat.negb_odd. reflexivity.
    + rewrite count_cons, (Ascii.eqb_sym backtick c), Ec, (IH None).
      reflexivity.
Qed.

(** X10.  The description rule of [fix_backticks2.py] either leaves the
    line alone, when no description string with a backtick is on it, or
    removes backticks in pairs over the whole line: every other character
    stays where it was, no backtick is left when the line held an even
    number of them, and exactly one when it held an odd number. *)
Theorem description_rule_removes_pairs (line : text) :
  match desc_search line with
  | None => V2.fix_description line = line
  | Some _ =>
      without_backticks (V2.fix_description line) = without_backticks line /\
      count backtick (V2.fix_description line)
      = Nat.b2n (Nat.odd (count backtick line))
  end.
Proof.
  unfold V2.fix_description. destruct (desc_search line); [|reflexivity].
  split; [apply without_backticks_strip_pairs|].
  apply (strip_pairs_from_count line None).
Qed.

Lemma escape_from_before_backtick (prev : bool) (inner t : text) :
  exists x,
    escape_from prev (inner ++ backtick :: t)
    = x ++ backtick :: escape_from false t.
Proof.
  revert prev. induction inner as [|c inner IH]; intros prev.
  - cbn [app escape_from]. rewrite Ascii.eqb_refl.
    destruct prev; [exists []|exists [bslash]]; reflexivity.
  - cbn [app escape_from]. destruct (Ascii.eqb c backtick).
    + destruct (IH false) as (x & ->).
      exists ((if prev then [c] else [bslash; c]) ++ x).
      rewrite <- app_assoc. reflexivity.
    + destruct (IH (Ascii.eqb c bslash)) as (x & ->).
      exists (c :: x). reflexivity.
Qed.

Lemma all_escaped_before_backtick (x y : text) :
  forall prev,
    all_escaped_from prev (x ++ backtick :: y) = true ->
    (x = [] /\ prev = true) \/ exists x', x = x' ++ [bslash].
Proof.
  induction x as [|c x IH]; intros prev H.
  - cbn [app all_escaped_from] in H. rewrite Ascii.eqb_refl in H.
    apply andb_true_iff in H as [H _]. left. split; [reflexivity|exact H].
  - right. cbn [app all_escaped_from] in H.
    destruct (Ascii.eqb c backtick).
    + apply andb_true_iff in H as [_ H].
      destruct (IH false H) as [[_ E]|(x' & ->)]; [discriminate|].
      exists (c :: x'). reflexivity.
    + destruct (IH _ H) as [[-> E]|(x' & ->)].
      * apply Ascii.eqb_eq in E. subst c. exists []. reflexivity.
      * exists (c :: x'). reflexivity.
Qed.

Lemma escape_absent (prev : bool) (s : text) :
  contains [backtick] s = false -> escape_from prev s = s.
Proof.
  revert prev. induction s as [|c s IH]; intros prev H; [reflexivity|].
  apply contains_cons_false in H as [H1 H2].
  cbn [startswith] in H1. rewrite andb_true_r, Ascii.eqb_sym in H1.
  cbn [escape_from]. rewrite H1, (IH _ H2). reflexivity.
Qed.

Lemma V1_fix_unescaped_open (line before part : text) :
  find V1.open_content line = Some (before, part) ->
  endswith [backtick] (strip line) = false ->
  V1.fix_unescaped line = before ++ V1.open_content ++ escape_backticks part.
Proof.
  intros Hf He. pose proof (find_spec _ _ _ _ Hf) as Hl.
  assert (Hc : contains V1.open_content line = true).
  { apply contains_iff. exists before, part. exact Hl. }
  unfold V1.fix_unescaped, after_first, before_first.
  rewrite Hc, He, Hf. cbn [negb andb].
  destruct (contains [backtick] part) eqn:Hb; cbn [andb].
  - destruct (endswith [backtick] part) eqn:Hp; cbn [negb].
    + apply endswith_app in Hp as [x ->].
      rewrite Hl, !app_assoc, (strip_snoc _ backtick eq_refl) in He.
      discriminate He.
    + rewrite <- app_assoc. reflexivity.
  - unfold escape_backticks. rewrite (escape_absent _ _ Hb). exact Hl.
Qed.

(** X11.  On a line that holds [content: `] and does not end with a
    backtick, white space at the end apart, [fix_backticks.py] escapes
    every backtick behind the first [content: `] that no backslash
    precedes, and leaves none: the backtick that closes the literal before a
    final comma is escaped with the others, so that the line written ends
    with a backslash, the backtick and the comma. *)
Theorem first_script_escapes_closing_backtick (line before part : text) :
  find V1.open_content line = Some (before, part) ->
  endswith [backtick] (strip line) = false ->
  V1.fix_unescaped line = before ++ V1.open_content ++ escape_backticks part /\
  all_escaped (escape_backticks part) = true /\
  (endswith [backtick; comma] part = true ->
   endswith [bslash; backtick; comma] (V1.fix_unescaped line) = true).
Proof.
  intros Hf He. rewrite (V1_fix_unescaped_open _ _ _ Hf He).
  split; [reflexivity|]. split; [apply escape_all_escaped|].
  intros Hp. apply endswith_app in Hp as [inner ->].
  pose proof (escape_all_escaped false (inner ++ [backtick; comma])) as Ha.
  unfold escape_backticks.
  destruct (escape_from_before_backtick false inner [comma]) as (x & Ex).
  rewrite Ex in Ha |- *.
  destruct (all_escaped_before_backtick _ _ _ Ha) as [[_ E]|(x' & ->)];
    [discriminate|].
  change (escape_from false [comma]) with [comma].
  replace (before ++ V1.open_content ++ (x' ++ [bslash]) ++ [backtick; comma])
    with ((before ++ V1.open_content ++ x') ++ [bslash; backtick; comma])
    by (repeat rewrite <- app_assoc; reflexivity).
  apply endswith_app_r.
Qed.

Lemma first_script_escapes_closing_backtick_witness :
  V1.fix_unescaped (str "  content: `Use `code` here`,")
  = str "  content: `Use \`code\` here\`," /\
  all_escaped (escape_backticks (str "Use `code` here`,")) = true /\
  (endswith [backtick; comma] (str "Use `code` here`,") = true ->
   endswith [bslash; backtick; comma]
     (V1.fix_unescaped (str "  content: `Use `code` here`,")) = true).
Proof.
  apply (first_script_escapes_closing_backtick
           (str "  content: `Use `code` here`,") (str "  ")
           (str "Use `code` here`,")); reflexivity.
Defined.

End EscapingFacts.

(** ** Quoted values under the second wrapping rule *)

Section QuotedValues.
Import Py Re.

Lemma count_blank (ws : text) : blank ws = true -> count backtick ws = 0.
Proof.
  intros H. apply count_absent. apply contains_blank; [exact H|reflexivity].
Qed.

Lemma V2_fix_unescaped_two (line : text) :
  count backtick line = 2 -> V2.fix_unescaped line = line.
Proof.
  intros H. unfold V2.fix_unescaped. rewrite H, andb_false_r. reflexivity.
Qed.

(** X12.  The wrapping rule of [fix_backticks2.py] does not spare a value
    that starts with a backtick, a single quote or a double quote when white
    space stands between the colon and the value: on a line (a text with no
    newline) that starts with [content:], a value of two characters or more
    that does not end with a backtick is put between backticks, quotes and
    all, and the last white-space character before it is dropped.  Only a
    quoted value that follows the colon directly is left alone.  On a line
    without [role:] and [description:] whose value holds no backtick, this
    is what the whole pass writes. *)
Theorem second_script_wraps_quoted_values (ws1 ws2 : text) (w : ascii)
    (value ws3 : text) :
  let line := ws1 ++ str "content:" ++ ws2 ++ w :: value ++ ws3 in
  let wrapped :=
    ws1 ++ str "content:" ++ ws2 ++ backtick :: value ++ [backtick] in
  blank ws1 = true -> blank ws2 = true -> isspace w = true ->
  blank ws3 = true -> trimmed value = true ->
  first_is is_quote value = true -> 2 <= length value ->
  endswith [backtick] value = false ->
  contains [newline] line = false ->
  V2.fix_missing line = wrapped /\
  V2.fix_missing (ws1 ++ str "content:" ++ value ++ ws3)
  = ws1 ++ str "content:" ++ value ++ ws3 /\
  (contains (str "role:") line = false ->
   contains (str "description:") line = false ->
   contains [backtick] value = false ->
   V2.fix_line line = wrapped).
Proof.
  intros line wrapped H1 H2 Hw H3 Ht Hq Hlen He _.
  destruct value as [|c [|d v]]; [discriminate| cbn in Hlen; lia |].
  cbn [first_is] in Hq.
  assert (Hc : isspace c = false).
  { apply trimmed_first in Ht. cbn [first_is] in Ht. unfold solid in Ht.
    apply negb_true_iff in Ht. exact Ht. }
  assert (Hm : V2.fix_missing line = wrapped).
  { unfold V2.fix_missing, line.
    assert (Hb : blank (ws2 ++ [w]) = true).
    { rewrite blank_app, H2. cbn. rewrite Hw. reflexivity. }
    pose proof (wrap_match2_quoted ws1 (ws2 ++ [w]) c d (v ++ ws3) H1 Hb Hq Hc)
      as E.
    rewrite unsnoc_app in E. rewrite <- app_assoc in E. cbn [app] in E.
    cbn [app]. rewrite E.
    change (w :: c :: d :: v ++ ws3) with ([w] ++ (c :: d :: v) ++ ws3).
    rewrite (strip_shape [w] (c :: d :: v) ws3); [|cbn; rewrite Hw; reflexivity
                                                  |exact Ht|exact H3].
    rewrite (trimmed_length _ Ht), He. cbn [negb andb].
    unfold wrapped. repeat rewrite <- app_assoc. reflexivity. }
  split; [exact Hm|]. split.
  - unfold V2.fix_missing.
    pose proof (wrap_match2_quoted ws1 [] c d (v ++ ws3) H1 eq_refl Hq Hc) as E.
    cbn [app] in E |- *. rewrite E. reflexivity.
  - intros Hr Hd Hv. unfold V2.fix_line.
    rewrite (V2_fix_role_absent _ Hr), (V2_fix_description_absent _ Hd).
    unfold V2.fix_content.
    assert (Hcont : contains (str "content:") line = true).
    { apply contains_iff. exists ws1, (ws2 ++ w :: (c :: d :: v) ++ ws3).
      reflexivity. }
    rewrite Hcont, Hm. apply V2_fix_unescaped_two. unfold wrapped.
    change (backtick :: (c :: d :: v) ++ [backtick])
      with ([backtick] ++ (c :: d :: v) ++ [backtick]).
    rewrite !count_app, (count_blank _ H1), (count_blank _ H2),
      (count_absent _ _ Hv).
    reflexivity.
Qed.

Lemma second_script_wraps_quoted_values_witness :
  V2.fix_missing (str "  content: 'Hello world',")
  = str "  content:`'Hello world',`" /\
  V2.fix_missing (str "  content:'Hello world',") = str "  content:'Hello world'," /\
  (contains (str "role:") (str "  content: 'Hello world',") = false ->
   contains (str "description:") (str "  content: 'Hello world',") = false ->
   contains [backtick] (str "'Hello world',") = false ->
   V2.fix_line (str "  content: 'Hello world',") = str "  content:`'Hello world',`").
Proof.
  apply (second_script_wraps_quoted_values (str "  ") [] " "%char
           (str "'Hello world',") []); try reflexivity. cbn. lia.
Defined.

End QuotedValues.

(** ** Each rule alone *)

Section RulesAlone.
Import Py Re.

(** X13.  The wrapping rule of either script rewrites only a line whose
    first characters after the indentation are [content:]; a [content:]
    field further along the line is never wrapped.  Such a line, when it
    holds no [role:], no [description:] and no [content: `], goes through
    either script unchanged. *)
Theorem wrap_only_at_line_start (line : text) :
  startswith (str "content:") (lstrip line) = false ->
  V1.fix_missing line = line /\ V2.fix_missing line = line /\
  (contains (str "role:") line = false ->
   contains (str "description:") line = false ->
   contains (str "content: `") line = false ->
   V1.fix_line line = line /\ V2.fix_line line = line).
Proof.
  unfold lstrip. intros H.
  assert (H1 : V1.fix_missing line = line).
  { unfold V1.fix_missing, wrap_match1. rewrite H.
    match goal with |- (if ?b then _ else _) = _ => destruct b end; reflexivity. }
  assert (H2 : V2.fix_missing line = line).
  { unfold V2.fix_missing, wrap_match2. rewrite H. reflexivity. }
  split; [exact H1|]. split; [exact H2|].
  intros Hr Hd Ho. split.
  - unfold V1.fix_line.
    rewrite (V1_fix_role_absent _ Hr), (V1_fix_description_absent _ Hd),
      (V1_fix_unescaped_closed _ Ho). exact H1.
  - unfold V2.fix_line, V2.fix_content.
    rewrite (V2_fix_role_absent _ Hr), (V2_fix_description_absent _ Hd), H2.
    assert (E : V2.fix_unescaped line = line).
    { unfold V2.fix_unescaped.
      change V2.open_content with (str "content: `"). rewrite Ho. reflexivity. }
    rewrite E. destruct (contains (str "content:") line); reflexivity.
Qed.

Lemma wrap_only_at_line_start_witness :
  V1.fix_missing (str "  { content: Hello world },")
  = str "  { content: Hello world }," /\
  V2.fix_missing (str "  { content: Hello world },")
  = str "  { content: Hello world }," /\
  (contains (str "role:") (str "  { content: Hello world },") = false ->
   contains (str "description:") (str "  { content: Hello world },") = false ->
   contains (str "content: `") (str "  { content: Hello world },") = false ->
   V1.fix_line (str "  { content: Hello world },")
   = str "  { content: Hello world }," /\
   V2.fix_line (str "  { content: Hello world },")
   = str "  { content: Hello world },").
Proof.
  apply (wrap_only_at_line_start (str "  { content: Hello world },")).
  reflexivity.
Defined.

(** X14.  When the escaping case of [fix_backticks2.py] applies (the line
    holds [content: `], more than two backticks, and ends with a backtick or
    with a backtick and a comma) the closing backtick, with its comma, is
    written as it was, and between the first [content: `] and that
    closing backtick no backtick is left without a backslash before it.
    With at most two backticks on the line the case changes nothing. *)
Theorem second_script_keeps_closing_backtick (line before rest : text) :
  find V2.open_content line = Some (before, rest) ->
  (2 < count backtick line ->
   endswith [backtick] rest = true \/ endswith [backtick; comma] rest = true ->
   exists inner suffix,
     rest = inner ++ suffix /\
     (suffix = [backtick] \/ suffix = [backtick; comma]) /\
     V2.fix_unescaped line
     = before ++ V2.open_content ++ escape_backticks inner ++ suffix /\
     all_escaped (escape_backticks inner) = true) /\
  (count backtick line <= 2 -> V2.fix_unescaped line = line).
Proof.
  intros Hf. pose proof (find_spec _ _ _ _ Hf) as Hl.
  assert (Hc : contains V2.open_content line = true).
  { apply contains_iff. exists before, rest. exact Hl. }
  split.
  - intros Hn He. apply Nat.ltb_lt in Hn.
    unfold V2.fix_unescaped. rewrite Hc, Hn, Hf. cbn [andb].
    destruct (endswith [backtick; comma] rest) eqn:E2.
    + rewrite orb_true_r. exists (drop_last 2 rest), [backtick; comma].
      split; [apply (endswith_spec _ _ E2)|]. split; [right; reflexivity|].
      split; [rewrite <- !app_assoc; reflexivity|apply escape_all_escaped].
    + destruct He as [E1|E1]; [|discriminate E1]. rewrite E1. cbn [orb].
      exists (drop_last 1 rest), [backtick].
      split; [apply (endswith_spec _ _ E1)|]. split; [left; reflexivity|].
      split; [rewrite <- !app_assoc; reflexivity|apply escape_all_escaped].
  - intros Hn. unfold V2.fix_unescaped.
    assert (E : (2 <? count backtick line) = false) by (apply Nat.ltb_ge; lia).
    rewrite E, andb_false_r. reflexivity.
Qed.

Lemma second_script_keeps_closing_backtick_witness :
  (2 < count backtick (str "{ content: `Use `code` here`,") ->
   endswith [backtick] (str "Use `code` here`,") = true \/
   endswith [backtick; comma] (str "Use `code` here`,") = true ->
   exists inner suffix,
     str "Use `code` here`," = inner ++ suffix /\
     (suffix = [backtick] \/ suffix = [backtick; comma]) /\
     V2.fix_unescaped (str "{ content: `Use `code` here`,")
     = str "{ " ++ V2.open_content ++ escape_backticks inner ++ suffix /\
     all_escaped (escape_backticks inner) = true) /\
  (count backtick (str "{ content: `Use `code` here`,") <= 2 ->
   V2.fix_unescaped (str "{ content: `Use `code` here`,")
   = str "{ content: `Use `code` here`,").
Proof.
  apply (second_script_keeps_closing_backtick
           (str "{ content: `Use `code` here`,") (str "{ ")
           (str "Use `code` here`,")).
  reflexivity.
Defined.

Lemma strip_pairs_pending_absent (s acc : text) :
  contains [backtick] s = false ->
  strip_pairs_from (Some acc) s = backtick :: rev acc ++ s.
Proof.
  revert acc. induction s as [|c s IH]; intros acc H.
  - cbn. rewrite app_nil_r. reflexivity.
  - apply contains_cons_false in H as [H1 H2].
    cbn [startswith] in H1. rewrite andb_true_r, Ascii.eqb_sym in H1.
    cbn [strip_pairs_from]. rewrite H1, (IH _ H2). cbn [rev].
    rewrite <- app_assoc. reflexivity.
Qed.

Lemma count_zero_absent (s : text) :
  count backtick s = 0 -> contains [backtick] s = false.
Proof.
  induction s as [|c s IH]; [reflexivity|].
  rewrite count_cons. cbn [contains startswith]. rewrite andb_true_r.
  destruct (Ascii.eqb backtick c); [discriminate|]. exact IH.
Qed.

(** With at most one backtick there is no pair to remove. *)
Lemma strip_pairs_single (s : text) :
  count backtick s <= 1 -> strip_pairs_from None s = s.
Proof.
  induction s as [|c s IH]; [reflexivity|].
  rewrite count_cons, (Ascii.eqb_sym backtick c). cbn [strip_pairs_from].
  destruct (Ascii.eqb c backtick) eqn:Ec; intros H.
  - apply Ascii.eqb_eq in Ec. subst c.
    rewrite strip_pairs_pending_absent by (apply count_zero_absent; lia).
    reflexivity.
  - rewrite IH by (cbn in H; exact H). reflexivity.
Qed.

Lemma V2_fix_description_idem (line : text) :
  V2.fix_description (V2.fix_description line) = V2.fix_description line.
Proof.
  destruct (desc_search line) eqn:E.
  - assert (H1 : V2.fix_description line = strip_pairs line)
      by (unfold V2.fix_description; rewrite E; reflexivity).
    rewrite H1. unfold V2.fix_description.
    destruct (desc_search (strip_pairs line)); [|reflexivity].
    apply strip_pairs_single. unfold strip_pairs.
    rewrite (strip_pairs_from_count line None).
    destruct (Nat.odd (count backtick line)); cbn; lia.
  - assert (H1 : V2.fix_description line = line)
      by (unfold V2.fix_description; rewrite E; reflexivity).
    rewrite H1. exact H1.
Qed.

Lemma fix_role_idem (line : text) :
  V1.fix_role (V1.fix_role line) = V1.fix_role line /\
  V2.fix_role (V2.fix_role line) = V2.fix_role line.
Proof.
  split.
  - destruct (V1_fix_role_clean line) as (H1 & H2 & _).
    unfold V1.fix_role at 1. rewrite H1, H2. reflexivity.
  - destruct (V2_fix_role_clean line) as (H1 & H2 & _).
    apply (V2_role_sub_absent _ H1 H2).
Qed.

Lemma fix_missing_idem (line : text) :
  V1.fix_missing (V1.fix_missing line) = V1.fix_missing line /\
  V2.fix_missing (V2.fix_missing line) = V2.fix_missing line.
Proof.
  split.
  - destruct (V1_fix_missing_cases line)
      as [H|(ws1 & ws2 & lead & t & trail & H1 & H2 & _ & ->)];
      [rewrite H; exact H|].
    apply V1_fix_missing_delimited; assumption.
  - destruct (V2_fix_missing_cases line)
      as [H|(ws1 & ws2 & lead & t & trail & H1 & H2 & _ & ->)];
      [rewrite H; exact H|].
    apply V2_fix_missing_delimited; assumption.
Qed.

(** X15.  Taken alone, every rule of the two scripts but one does on a
    second application nothing: the role rules, the escaping rules, the
    wrapping rules and the description rule of [fix_backticks2.py] are
    idempotent on every line, and so are the two content rules of each
    script taken together.  The description rule of [fix_backticks.py] is
    the exception: it cleans one description string at a time. *)
Theorem rules_idempotent_alone (line : text) :
  (V1.fix_role (V1.fix_role line) = V1.fix_role line /\
   V2.fix_role (V2.fix_role line) = V2.fix_role line) /\
  V2.fix_description (V2.fix_description line) = V2.fix_description line /\
  (V1.fix_unescaped (V1.fix_unescaped line) = V1.fix_unescaped line /\
   V2.fix_unescaped (V2.fix_unescaped line) = V2.fix_unescaped line) /\
  (V1.fix_missing (V1.fix_missing line) = V1.fix_missing line /\
   V2.fix_missing (V2.fix_missing line) = V2.fix_missing line) /\
  (V1.fix_missing (V1.fix_unescaped (V1.fix_missing (V1.fix_unescaped line)))
   = V1.fix_missing (V1.fix_unescaped line) /\
   V2.fix_content (V2.fix_content line) = V2.fix_content line) /\
  V1.fix_description
    (V1.fix_description (str "description: 'a `b`', description: 'c `d`'"))
  <> V1.fix_description (str "description: 'a `b`', description: 'c `d`'").
Proof.
  split; [apply fix_role_idem|].
  split; [apply V2_fix_description_idem|].
  split; [split; [apply V1_fix_unescaped_idem|apply V2_fix_unescaped_idem]|].
  split; [apply fix_missing_idem|].
  split; [split; [apply V1_content_idem|apply V2_content_idem]|].
  intros H. discriminate H.
Qed.

End RulesAlone.
